(** * A weather-reading consumer and a ride-update producer (Python, Kafka)

    Shallow embedding of
      - [consumers/csv_consumer_Adeyemi.py]: [process_message], [main];
      - [producers/json_producer_Adeyemi.py]: [generate_messages], [main];
    together with the fragment of Python they run on: the values [json.loads]
    produces, exceptions and [try]/[except]/[finally], the bounded
    [collections.deque], [max], [min], [-], [int] and [os.getenv].

    Conventions.
      - A Python [str] is a Rocq [string]; one [ascii] stands for one code
        point, so the model covers text below U+0100.
      - A Python [float] is a binary64 number, a [spec_float] with precision
        53 and maximal exponent 1024; every operation on it rounds to nearest
        even as IEEE 754 prescribes.
      - A Python [int] is a [Z].
      - Code that can raise returns a [result]; code that also mutates the
        rolling window, writes a log record or closes a handle runs in the
        monad [M], whose state survives an exception, as a mutated Python
        object does.
      - [logger] calls append one structured [event] and never raise; the
        f-string that builds the text of a record is evaluated before the
        call and can.
      - The interpreter is CPython with its default settings on a 64-bit
        platform: [int] and [str] convert at most 4300 digits, a
        [Py_ssize_t] has 64 bits. *)

From Stdlib Require Import ZArith String Ascii List Lia.
From Stdlib Require Import Floats.SpecFloat.
From Stdlib Require Import DecimalString DecimalZ DecimalPos.
From stdpp Require Import base option list strings gmap.

Set Warnings "-register-all".
Open Scope string_scope.
Open Scope list_scope.
Open Scope Z_scope.

(** ** Exceptions *)

Inductive exn : Type :=
  | JSONDecodeError
  | AttributeError
  | TypeError
  | ValueError
  | OverflowError
  | RecursionError
  | OtherException (name : string)      (* any other subclass of Exception *)
  | KeyboardInterrupt
  | SystemExit (code : Z)
  | GeneratorExit
  | OtherBaseException (name : string). (* any other direct BaseException *)

(** [isinstance(e, Exception)]: the classes that derive from [BaseException]
    directly are the only ones an [except Exception] clause lets through. *)
Definition is_Exception (e : exn) : bool :=
  match e with
  | KeyboardInterrupt | SystemExit _ | GeneratorExit | OtherBaseException _ => false
  | _ => true
  end.

Definition is_JSONDecodeError (e : exn) : bool :=
  match e with JSONDecodeError => true | _ => false end.

Definition is_KeyboardInterrupt (e : exn) : bool :=
  match e with KeyboardInterrupt => true | _ => false end.

Inductive result (A : Type) : Type :=
  | Ok (a : A)
  | Raise (e : exn).
Arguments Ok {A} a.
Arguments Raise {A} e.

Definition result_bind {A B} (r : result A) (k : A -> result B) : result B :=
  match r with
  | Ok a => k a
  | Raise e => Raise e
  end.

Declare Scope py_scope.
Delimit Scope py_scope with py.
Notation "x <~ r ; k" := (result_bind r (fun x => k))
  (at level 100, r at next level, right associativity) : py_scope.

(** ** Python values

    The values [json.loads] can return: [None], [bool], [int], [float],
    [str], [list] and [dict] with [str] keys. A [dict] keeps its items in
    insertion order, one item per key. *)

Inductive pyval : Type :=
  | PNone
  | PBool (b : bool)
  | PInt (z : Z)
  | PFloat (f : spec_float)
  | PStr (s : string)
  | PList (l : list pyval)
  | PDict (d : list (string * pyval)).

Definition is_None (v : pyval) : bool :=
  match v with PNone => true | _ => false end.

Fixpoint dict_lookup (key : string) (d : list (string * pyval)) : option pyval :=
  match d with
  | [] => None
  | (k, v) :: rest => if String.eqb k key then Some v else dict_lookup key rest
  end.

(** [d[key] = v]: an existing key keeps its position and takes the new value,
    a new key goes last. *)
Fixpoint dict_set (key : string) (v : pyval) (d : list (string * pyval))
  : list (string * pyval) :=
  match d with
  | [] => [(key, v)]
  | (k, w) :: rest =>
      if String.eqb k key then (k, v) :: rest else (k, w) :: dict_set key v rest
  end.

(** [data.get(key)]: [None] for a missing key; a value that is not a [dict]
    has no attribute [get]. *)
Definition py_get (data : pyval) (key : string) : result pyval :=
  match data with
  | PDict d => Ok (default PNone (dict_lookup key d))
  | _ => Raise AttributeError
  end.

(** ** Numbers *)

Definition prec : Z := 53.
Definition emax : Z := 1024.

(** [float(z)] for an [int]: correctly rounded, [OverflowError] when the
    rounded value leaves the finite range. *)
Definition float_of_int (z : Z) : result spec_float :=
  match binary_normalize prec emax z 0 false with
  | S754_infinity _ => Raise OverflowError
  | f => Ok f
  end.

(** Exact comparison of an [int] with a [float]; [None] for a NaN. *)
Definition compare_int_float (z : Z) (f : spec_float) : option comparison :=
  match f with
  | S754_nan => None
  | S754_infinity false => Some Lt
  | S754_infinity true => Some Gt
  | S754_zero _ => Some (z ?= 0)
  | S754_finite s m e =>
      let sm := if s then Z.neg m else Z.pos m in
      Some (if 0 <=? e then z ?= sm * 2 ^ e else z * 2 ^ (- e) ?= sm)
  end.

Inductive number : Type :=
  | NInt (z : Z)
  | NFloat (f : spec_float).

(** [bool] is a subclass of [int]: [True] is 1 and [False] is 0. *)
Definition as_number (v : pyval) : option number :=
  match v with
  | PBool b => Some (NInt (Z.b2z b))
  | PInt z => Some (NInt z)
  | PFloat f => Some (NFloat f)
  | _ => None
  end.

Definition number_compare (a b : number) : option comparison :=
  match a, b with
  | NInt x, NInt y => Some (x ?= y)
  | NInt x, NFloat g => compare_int_float x g
  | NFloat f, NInt y => option_map CompOpp (compare_int_float y f)
  | NFloat f, NFloat g => SFcompare f g
  end.

Definition number_sub (a b : number) : result pyval :=
  match a, b with
  | NInt x, NInt y => Ok (PInt (x - y))
  | NInt x, NFloat g => (f <~ float_of_int x; Ok (PFloat (SFsub prec emax f g)))%py
  | NFloat f, NInt y => (g <~ float_of_int y; Ok (PFloat (SFsub prec emax f g)))%py
  | NFloat f, NFloat g => Ok (PFloat (SFsub prec emax f g))
  end.

(** ** Comparison and subtraction of values *)

Definition comparison_is (want : comparison) (c : option comparison) : bool :=
  match c, want with
  | Some Lt, Lt | Some Eq, Eq | Some Gt, Gt => true
  | _, _ => false
  end.

Definition numbers_eq (x : number) (b : pyval) : bool :=
  match as_number b with
  | Some y => comparison_is Eq (number_compare x y)
  | None => false
  end.

(** [a == b]; it never raises on these values. Containers compare their items
    with [==] (CPython tries identity first, which only matters for a NaN
    stored in a container). *)
Fixpoint py_eq (a b : pyval) {struct a} : bool :=
  match a, b with
  | PNone, PNone => true
  | PBool x, _ => numbers_eq (NInt (Z.b2z x)) b
  | PInt x, _ => numbers_eq (NInt x) b
  | PFloat f, _ => numbers_eq (NFloat f) b
  | PStr s, PStr t => String.eqb s t
  | PList l, PList m =>
      (fix items_eq (l m : list pyval) {struct l} : bool :=
         match l, m with
         | [], [] => true
         | x :: l', y :: m' => py_eq x y && items_eq l' m'
         | _, _ => false
         end) l m
  | PDict d, PDict d' =>
      Nat.eqb (length d) (length d') &&
      (fix values_eq (d : list (string * pyval)) {struct d} : bool :=
         match d with
         | [] => true
         | (k, v) :: rest =>
             match dict_lookup k d' with
             | Some v' => py_eq v v' && values_eq rest
             | None => false
             end
         end) d
  | _, _ => false
  end.

(** [a < b] for [want = Lt] and [a > b] for [want = Gt]. Numbers compare by
    value, strings by code points, lists by their first unequal items or,
    when one is a prefix of the other, by length; every other pair of
    operands is unorderable. *)
Fixpoint py_order (want : comparison) (a b : pyval) {struct a} : result bool :=
  match a, b with
  | PStr s, PStr t => Ok (comparison_is want (Some (String.compare s t)))
  | PList l, PList m =>
      (fix items_order (l m : list pyval) {struct l} : result bool :=
         match l, m with
         | [], [] => Ok false
         | [], _ :: _ => Ok (comparison_is want (Some Lt))
         | _ :: _, [] => Ok (comparison_is want (Some Gt))
         | x :: l', y :: m' =>
             if py_eq x y then items_order l' m' else py_order want x y
         end) l m
  | _, _ =>
      match as_number a, as_number b with
      | Some x, Some y => Ok (comparison_is want (number_compare x y))
      | _, _ => Raise TypeError
      end
  end.

Definition py_lt : pyval -> pyval -> result bool := py_order Lt.
Definition py_gt : pyval -> pyval -> result bool := py_order Gt.

(** [a - b]: defined on numbers only. *)
Definition py_sub (a b : pyval) : result pyval :=
  match as_number a, as_number b with
  | Some x, Some y => number_sub x y
  | _, _ => Raise TypeError
  end.

(** The loop of the builtins [max] and [min]: [best] is replaced by a later
    item only when [better item best] holds, so the first of several equal
    extremes is returned. *)
Fixpoint extremum (better : pyval -> pyval -> result bool) (best : pyval)
    (rest : list pyval) : result pyval :=
  match rest with
  | [] => Ok best
  | item :: rest' =>
      (b <~ better item best;
       extremum better (if b : bool then item else best) rest')%py
  end.

Definition py_max (l : list pyval) : result pyval :=
  match l with
  | [] => Raise ValueError
  | first :: rest => extremum py_gt first rest
  end.

Definition py_min (l : list pyval) : result pyval :=
  match l with
  | [] => Raise ValueError
  | first :: rest => extremum py_lt first rest
  end.

(** [max(l) - min(l)] *)
Definition max_minus_min (l : list pyval) : result pyval :=
  (highest <~ py_max l;
   lowest <~ py_min l;
   py_sub highest lowest)%py.

(** [None in values] for a tuple: true when an item is [None]; no other value
    of the model equals [None]. *)
Definition None_in (values : list pyval) : bool := existsb is_None values.

(** ** [collections.deque] *)

Record deque : Type := Deque {
  maxlen : option Z;        (* [None]: unbounded *)
  items : list pyval        (* left to right, oldest first *)
}.

(** The range of the C type [Py_ssize_t] on a 64-bit platform. *)
Definition ssize_max : Z := 2 ^ 63 - 1.
Definition ssize_min : Z := - 2 ^ 63.

(** [deque(maxlen=n)]: [n] is first converted to a [Py_ssize_t], which
    raises [OverflowError] outside its range; a negative bound within the
    range raises [ValueError]. *)
Definition deque_new (n : Z) : result deque :=
  if (n <? ssize_min) || (ssize_max <? n) then Raise OverflowError
  else if n <? 0 then Raise ValueError
  else Ok (Deque (Some n) []).

(** [d.append(x)]: the item goes to the right end, then a deque longer than
    its bound drops its leftmost item. *)
Definition deque_append (x : pyval) (d : deque) : deque :=
  let grown := items d ++ [x] in
  match maxlen d with
  | None => Deque None grown
  | Some n =>
      Deque (Some n) (if n <? Z.of_nat (length grown) then drop 1 grown else grown)
  end.

Definition deque_len (d : deque) : Z := Z.of_nat (length (items d)).

(** The deque after appending the given values one after the other. *)
Definition push_all (values : list pyval) (d : deque) : deque :=
  foldl (fun d' v => deque_append v d') d values.

(** A deque within its bound, as every deque built by [deque_new] and
    [deque_append] is. *)
Definition within_bound (d : deque) : Prop :=
  match maxlen d with
  | Some n => 0 <= n /\ deque_len d <= n
  | None => True
  end.

(** ** Log records *)

Inductive event : Type :=
  (* consumer, [process_message] *)
  | DebugRawMessage (message : string)
  | InfoProcessedJSON (data : pyval)
  | ErrorInvalidFormat (message : string)
  | InfoWeatherData (timestamp temperature humidity pressure : pyval)
  | DebugTemperatureRange (window_size : Z) (temp_range : pyval)
  | ErrorJSONDecoding (message : string) (e : exn)
  | ErrorProcessing (message : string) (e : exn)
  (* consumer, getters and [main] *)
  | InfoKafkaTopic (topic : string)
  | InfoConsumerGroup (group_id : string)
  | InfoWindowSize (window_size : Z)
  | InfoStartConsumer
  | InfoConsumer (topic group_id : string)
  | InfoPolling (topic : string)
  | DebugReceived (offset : Z) (message : string)
  | WarningConsumerInterrupted
  | ErrorConsuming (e : exn)
  | InfoConsumerClosed (topic : string)
  (* producer *)
  | InfoStartProducer
  | InfoMessageInterval (interval : Z)
  | ErrorCreateProducer
  | InfoTopicReady (topic : string)
  | ErrorCreateTopic (topic : string) (e : exn)
  | InfoStartProduction (topic : string)
  | DebugGenerated (message : pyval)
  | InfoSent (topic : string) (message : pyval)
  | WarningProducerInterrupted
  | ErrorProduction (e : exn)
  | InfoProducerClosed
  | InfoEndProducer.

(** ** The monad of stateful code that can raise

    A computation maps the state before to an [outcome] and the state after.
    [Running] is the outcome of a loop that has not ended when the observed
    behaviour of its surroundings is used up: nothing follows it, no handler
    and no [finally] clause runs. *)

Inductive outcome (A : Type) : Type :=
  | Returned (a : A)
  | Raised (e : exn)
  | Running.
Arguments Returned {A} a.
Arguments Raised {A} e.
Arguments Running {A}.

Definition M (S A : Type) : Type := S -> outcome A * S.

Definition ret {S A} (a : A) : M S A := fun s => (Returned a, s).

Definition raise {S A} (e : exn) : M S A := fun s => (Raised e, s).

Definition running {S A} : M S A := fun s => (Running, s).

Definition bind {S A B} (m : M S A) (k : A -> M S B) : M S B :=
  fun s =>
    match m s with
    | (Returned a, s') => k a s'
    | (Raised e, s') => (Raised e, s')
    | (Running, s') => (Running, s')
    end.

Definition lift {S A} (r : result A) : M S A :=
  fun s =>
    match r with
    | Ok a => (Returned a, s)
    | Raise e => (Raised e, s)
    end.

Definition get {S} : M S S := fun s => (Returned s, s).

Definition modify {S} (f : S -> S) : M S unit := fun s => (Returned tt, f s).

Notation "x <- m ;; k" := (bind m (fun x => k))
  (at level 100, m at next level, right associativity) : py_scope.
Notation "m ;; k" := (bind m (fun _ => k))
  (at level 100, right associativity) : py_scope.

(** [try: body except ...: ...]: [handler e] is the body of the first clause
    that matches [e], or [None] when no clause does and [e] propagates. *)
Definition try_except {S A} (body : M S A) (handler : exn -> option (M S A))
  : M S A :=
  fun s =>
    match body s with
    | (Raised e, s') =>
        match handler e with
        | Some h => h s'
        | None => (Raised e, s')
        end
    | finished => finished
    end.

(** [try: body finally: cleanup]: [cleanup] runs on every way out of [body];
    the outcome is that of [body] unless [cleanup] does not return. *)
Definition try_finally {S A} (body : M S A) (cleanup : M S unit) : M S A :=
  fun s =>
    match body s with
    | (Running, s') => (Running, s')
    | (r, s') =>
        match cleanup s' with
        | (Returned _, s'') => (r, s'')
        | (Raised e, s'') => (Raised e, s'')
        | (Running, s'') => (Running, s'')
        end
    end.

(** ** [int] of a string and [str] of an integer *)

Definition code (c : ascii) : Z := Z.of_N (N_of_ascii c).

(** The code points [int] strips from both ends of its argument: the six
    ASCII white space characters and, above U+007F, NEL and the no-break
    space. (The separators U+001C to U+001F, white space for [str.isspace],
    are not stripped: [int] rejects a text that holds one.) *)
Definition is_space (c : ascii) : bool :=
  let n := code c in
  ((9 <=? n) && (n <=? 13)) || (n =? 32) || (n =? 133) || (n =? 160).

Definition digit_value (c : ascii) : option Z :=
  let n := code c in
  if (48 <=? n) && (n <=? 57) then Some (n - 48) else None.

Fixpoint lstrip (s : list ascii) : list ascii :=
  match s with
  | c :: rest => if is_space c then lstrip rest else s
  | [] => []
  end.

Definition strip (s : list ascii) : list ascii := rev (lstrip (rev (lstrip s))).

(** Decimal digits in which single underscores may separate digits. *)
Fixpoint digits_value (acc : Z) (after_digit : bool) (s : list ascii) : option Z :=
  match s with
  | [] => if after_digit then Some acc else None
  | c :: rest =>
      match digit_value c with
      | Some d => digits_value (10 * acc + d) true rest
      | None =>
          if Ascii.eqb c "_" && after_digit then digits_value acc false rest
          else None
      end
  end.

(** The interpreter's limit on the conversion between [int] and [str]
    ([sys.int_info.default_max_str_digits]; the programs do not change it):
    [int] refuses a text of more digits, leading zeros included, and [str]
    refuses an [int] of more digits. Both raise [ValueError]. *)
Definition int_max_str_digits : Z := 4300.

Fixpoint count_digits (s : list ascii) : Z :=
  match s with
  | [] => 0
  | c :: rest =>
      match digit_value c with
      | Some _ => 1 + count_digits rest
      | None => count_digits rest
      end
  end.

(** [int(s)] in base 10: surrounding white space, an optional sign, digits,
    no more of them than the limit allows. *)
Definition py_int (s : string) : result Z :=
  let body := strip (list_ascii_of_string s) in
  let signed :=
    match body with
    | "-"%char :: rest => option_map Z.opp (digits_value 0 false rest)
    | "+"%char :: rest => digits_value 0 false rest
    | _ => digits_value 0 false body
    end in
  match signed with
  | Some z =>
      if int_max_str_digits <? count_digits body then Raise ValueError else Ok z
  | None => Raise ValueError
  end.

(** [str(z)], for [z] within the limit. *)
Definition py_str_int (z : Z) : string := NilZero.string_of_int (Z.to_int z).

(** The least absolute value that has more digits than [str] converts. *)
Definition str_digits_bound : Z := 10 ^ int_max_str_digits.

(** Formatting a value, as the field [{v}] of an f-string does. The log
    records of the model are structured, so the text is left out and only
    the outcome is kept: the conversion raises [ValueError] when the value
    is, or holds, an [int] of more digits than the limit. *)
Fixpoint py_format (v : pyval) : result unit :=
  match v with
  | PInt z => if str_digits_bound <=? Z.abs z then Raise ValueError else Ok tt
  | PList l =>
      (fix format_items (l : list pyval) : result unit :=
         match l with
         | [] => Ok tt
         | x :: rest =>
             match py_format x with
             | Ok _ => format_items rest
             | Raise e => Raise e
             end
         end) l
  | PDict d =>
      (fix format_values (d : list (string * pyval)) : result unit :=
         match d with
         | [] => Ok tt
         | (_, x) :: rest =>
             match py_format x with
             | Ok _ => format_values rest
             | Raise e => Raise e
             end
         end) d
  | _ => Ok tt
  end.

(** [temp_range = max(l) - min(l)] followed by the formatting of
    [temp_range] for the log record: the value that is reported. *)
Definition logged_range (l : list pyval) : result pyval :=
  match max_minus_min l with
  | Ok temp_range =>
      match py_format temp_range with
      | Ok _ => Ok temp_range
      | Raise e => Raise e
      end
  | Raise e => Raise e
  end.

(** ** The environment

    [conv(os.getenv(key, default))]: the text of the variable, converted,
    when it is set; otherwise the default, which the callers give in the
    converted form ([int(5)] is 5, a [str] needs no conversion). *)

Definition os_getenv {A} (environ : gmap string string) (key : string)
    (from_str : string -> A) (default : A) : A :=
  match environ !! key with
  | Some value => from_str value
  | None => default
  end.

(** ** A JSON decoder

    [json_loads] follows the grammar Python's [json.loads] accepts for a
    [str] argument with default options: the JSON grammar, the constants
    [NaN], [Infinity] and [-Infinity], a repeated key keeping its last value,
    no control character inside a string, an integer literal converted as
    [int] does ([ValueError] beyond the limit on digits). [depth] bounds the
    nesting of arrays and objects, beyond it the interpreter raises
    [RecursionError]; the interpreter's own bound depends on the stack in
    use when [json.loads] is called, 900 stands for it. A [\u] escape above
    U+00FF names a string outside the model and is reported as undecodable,
    where Python's decoder returns that string. The consumer below is
    parametric in its decoder; this one runs the examples, on payloads
    within the model. *)

Definition dquote : ascii := "034".
Definition backslash : ascii := "092".

Fixpoint skip_ws (s : string) : string :=
  match s with
  | String c rest =>
      if (code c =? 32) || (code c =? 9) || (code c =? 10) || (code c =? 13)
      then skip_ws rest else s
  | EmptyString => s
  end.

(** [rest_after p s]: what follows the prefix [p] of [s]. *)
Fixpoint rest_after (p s : string) : option string :=
  match p, s with
  | EmptyString, _ => Some s
  | String a p', String b s' => if Ascii.eqb a b then rest_after p' s' else None
  | String _ _, EmptyString => None
  end.

Definition hex_value (c : ascii) : option Z :=
  let n := code c in
  if (48 <=? n) && (n <=? 57) then Some (n - 48)
  else if (65 <=? n) && (n <=? 70) then Some (n - 55)
  else if (97 <=? n) && (n <=? 102) then Some (n - 87)
  else None.

Definition hex4 (a b c d : ascii) : option Z :=
  match hex_value a, hex_value b, hex_value c, hex_value d with
  | Some w, Some x, Some y, Some z => Some (((w * 16 + x) * 16 + y) * 16 + z)
  | _, _, _, _ => None
  end.

Definition char_of_code (n : Z) : ascii := ascii_of_N (Z.to_N n).

(** The characters of a string literal after its opening quote, up to and
    including the closing quote. [acc] holds the decoded text reversed. *)
Fixpoint scan_string (acc : list ascii) (s : string) : option (string * string) :=
  match s with
  | EmptyString => None
  | String c rest =>
      if Ascii.eqb c dquote then Some (string_of_list_ascii (rev acc), rest)
      else if Ascii.eqb c backslash then
        match rest with
        | String e rest' =>
            let simple (d : ascii) := scan_string (d :: acc) rest' in
            if Ascii.eqb e dquote then simple dquote
            else if Ascii.eqb e backslash then simple backslash
            else match e with
                 | "/"%char => simple "/"%char
                 | "b"%char => simple (char_of_code 8)
                 | "f"%char => simple (char_of_code 12)
                 | "n"%char => simple (char_of_code 10)
                 | "r"%char => simple (char_of_code 13)
                 | "t"%char => simple (char_of_code 9)
                 | "u"%char =>
                     match rest' with
                     | String h1 (String h2 (String h3 (String h4 rest''))) =>
                         match hex4 h1 h2 h3 h4 with
                         | Some n =>
                             if n <? 256 then scan_string (char_of_code n :: acc) rest''
                             else None
                         | None => None
                         end
                     | _ => None
                     end
                 | _ => None
                 end
        | EmptyString => None
        end
      else if code c <? 32 then None
      else scan_string (c :: acc) rest
  end.

(** The longest run of decimal digits at the head of [s]: their number, the
    value they denote after [acc], and what follows. *)
Fixpoint scan_digits (count : nat) (acc : Z) (s : string) : nat * Z * string :=
  match s with
  | String c rest =>
      match digit_value c with
      | Some d => scan_digits (S count) (10 * acc + d) rest
      | None => (count, acc, s)
      end
  | EmptyString => (count, acc, s)
  end.

(** [float] of the decimal numeral [m * 10 ^ e10], [m >= 0], with sign
    [negative]: the nearest binary64 number, ties to even. *)
Definition float_of_decimal (negative : bool) (m e10 : Z) : spec_float :=
  match m with
  | Z.pos p =>
      if 0 <=? e10 then binary_round prec emax negative (Z.to_pos (m * 10 ^ e10)) 0
      else SFdiv prec emax (S754_finite negative p 0)
                           (S754_finite false (Z.to_pos (10 ^ (- e10))) 0)
  | _ => S754_zero negative
  end.

(** A number: an optional minus sign; an integer part, either a single 0 or
    digits that do not start with 0; an optional fraction, a dot and at least
    one digit; an optional exponent, e or E, an optional sign and at least
    one digit. Without fraction and exponent it is an [int], converted as
    [int] converts its digits, hence [ValueError] beyond the limit on their
    number; otherwise it is a [float]. A text that does not start with a
    number is undecodable. *)
Definition scan_number (s : string) : result (pyval * string) :=
  let '(negative, s1) :=
    match s with
    | String "-" rest => (true, rest)
    | _ => (false, s)
    end in
  let integer_part :=
    match s1 with
    | String "0" rest => Some (1%nat, 0, rest)
    | String c _ =>
        match digit_value c with
        | Some _ => Some (scan_digits 0 0 s1)
        | None => None
        end
    | EmptyString => None
    end in
  match integer_part with
  | None => Raise JSONDecodeError
  | Some (int_digits, int_value, s2) =>
      let '(frac, s3) :=
        match s2 with
        | String "." rest =>
            match scan_digits 0 int_value rest with
            | (O, _, _) => (None, s2)
            | (n, v, rest') => (Some (n, v), rest')
            end
        | _ => (None, s2)
        end in
      let '(expo, s4) :=
        match s3 with
        | String e rest =>
            if Ascii.eqb e "e" || Ascii.eqb e "E" then
              let '(exp_negative, digits) :=
                match rest with
                | String "-" r => (true, r)
                | String "+" r => (false, r)
                | _ => (false, rest)
                end in
              match scan_digits 0 0 digits with
              | (O, _, _) => (None, s3)
              | (_, v, rest') => (Some (if exp_negative then - v else v), rest')
              end
            else (None, s3)
        | EmptyString => (None, s3)
        end in
      match frac, expo with
      | None, None =>
          if int_max_str_digits <? Z.of_nat int_digits then Raise ValueError
          else Ok (PInt (if negative then - int_value else int_value), s4)
      | _, _ =>
          let '(frac_digits, mantissa) := default (O, int_value) frac in
          let e10 := default 0 expo - Z.of_nat frac_digits in
          Ok (PFloat (float_of_decimal negative mantissa e10), s4)
      end
  end.

Definition nan : spec_float := S754_nan.
Definition inf : spec_float := S754_infinity false.
Definition neg_inf : spec_float := S754_infinity true.

(** A value that is not an array or an object. *)
Definition scan_scalar (s : string) : result (pyval * string) :=
  match s with
  | String c rest =>
      if Ascii.eqb c dquote then
        match scan_string [] rest with
        | Some (text, rest') => Ok (PStr text, rest')
        | None => Raise JSONDecodeError
        end
      else
        let constant (name : string) (v : pyval) :=
          option_map (fun rest' => (v, rest')) (rest_after name s) in
        let tried :=
          match c with
          | "n"%char => constant "null" PNone
          | "t"%char => constant "true" (PBool true)
          | "f"%char => constant "false" (PBool false)
          | "N"%char => constant "NaN" (PFloat nan)
          | "I"%char => constant "Infinity" (PFloat inf)
          | "-"%char => constant "-Infinity" (PFloat neg_inf)
          | _ => None
          end in
        match tried with
        | Some found => Ok found
        | None => scan_number s
        end
  | EmptyString => Raise JSONDecodeError
  end.

(** [after c s]: what follows [c] at the head of [s]. *)
Definition after (c : ascii) (s : string) : option string :=
  match s with
  | String c' rest => if Ascii.eqb c c' then Some rest else None
  | EmptyString => None
  end.

(** [fuel] makes the recursion structural; twice the length of the text is
    enough, every other call consumes a character. *)
Fixpoint scan_value (fuel depth : nat) (s : string) {struct fuel}
  : result (pyval * string) :=
  match fuel with
  | O => Raise RecursionError
  | S fuel' =>
      match after "[" s, after "{" s with
      | Some rest, _ =>
          match depth with
          | O => Raise RecursionError
          | S depth' =>
              match after "]" (skip_ws rest) with
              | Some rest' => Ok (PList [], rest')
              | None => scan_items fuel' depth' [] (skip_ws rest)
              end
          end
      | None, Some rest =>
          match depth with
          | O => Raise RecursionError
          | S depth' =>
              match after "}" (skip_ws rest) with
              | Some rest' => Ok (PDict [], rest')
              | None => scan_members fuel' depth' [] (skip_ws rest)
              end
          end
      | None, None => scan_scalar s
      end
  end

with scan_items (fuel depth : nat) (acc : list pyval) (s : string) {struct fuel}
  : result (pyval * string) :=
  match fuel with
  | O => Raise RecursionError
  | S fuel' =>
      (found <~ scan_value fuel' depth s;
       let '(v, rest) := found in
       match after "]" (skip_ws rest), after "," (skip_ws rest) with
       | Some rest', _ => Ok (PList (rev (v :: acc)), rest')
       | None, Some rest' => scan_items fuel' depth (v :: acc) (skip_ws rest')
       | None, None => Raise JSONDecodeError
       end)%py
  end

with scan_members (fuel depth : nat) (acc : list (string * pyval)) (s : string)
    {struct fuel} : result (pyval * string) :=
  match fuel with
  | O => Raise RecursionError
  | S fuel' =>
      let key :=
        match after dquote s with
        | Some literal => scan_string [] literal
        | None => None
        end in
      match key with
      | Some (key, rest) =>
          match after ":" (skip_ws rest) with
          | Some rest' =>
              (found <~ scan_value fuel' depth (skip_ws rest');
               let '(v, rest'') := found in
               let acc' := dict_set key v acc in
               match after "}" (skip_ws rest''), after "," (skip_ws rest'') with
               | Some rest3, _ => Ok (PDict acc', rest3)
               | None, Some rest3 => scan_members fuel' depth acc' (skip_ws rest3)
               | None, None => Raise JSONDecodeError
               end)%py
          | None => Raise JSONDecodeError
          end
      | None => Raise JSONDecodeError
      end
  end.

Definition json_loads_depth (depth : nat) (s : string) : result pyval :=
  (found <~ scan_value (2 * String.length s + 2) depth (skip_ws s);
   let '(v, rest) := found in
   match skip_ws rest with
   | EmptyString => Ok v
   | _ => Raise JSONDecodeError
   end)%py.

Definition json_loads : string -> result pyval := json_loads_depth 900.

(** The exceptions of the decoder: an undecodable text, a nesting too deep,
    an integer of too many digits. *)
Definition decoding_error (e : exn) : Prop :=
  e = JSONDecodeError \/ e = RecursionError \/ e = ValueError.

(** * The consumer: [consumers/csv_consumer_Adeyemi.py] *)

Module Consumer.

(** What iterating over the Kafka consumer does at each step: it delivers a
    record or raises (an interrupt while polling, an error of the client).
    After the last step the stream ends. *)
Inductive delivery : Type :=
  | Message (value : string) (offset : Z)
  | PollRaises (e : exn).

(** The objects the process mutates: the rolling window, the consumer handle
    (how often [close] was called on it) and the log. *)
Record state : Type := State {
  rolling_window : deque;
  close_calls : nat;
  log : list event
}.

Definition emit (ev : event) : M state unit :=
  modify (fun s => State (rolling_window s) (close_calls s) (log s ++ [ev])).

Definition set_rolling_window (d : deque) : M state unit :=
  modify (fun s => State d (close_calls s) (log s)).

(** [rolling_window.append(x)] *)
Definition rolling_window_append (x : pyval) : M state unit :=
  modify (fun s => State (deque_append x (rolling_window s)) (close_calls s) (log s)).

(** [consumer.close()] *)
Definition consumer_close : M state unit :=
  modify (fun s => State (rolling_window s) (S (close_calls s)) (log s)).

Definition get_kafka_topic (environ : gmap string string) : M state string :=
  (let topic := os_getenv environ "WEATHER_TOPIC" id "weather_data_topic" in
   emit (InfoKafkaTopic topic);;
   ret topic)%py.

Definition get_kafka_consumer_group_id (environ : gmap string string) : M state string :=
  (let group_id := os_getenv environ "WEATHER_CONSUMER_GROUP_ID" id "weather_group" in
   emit (InfoConsumerGroup group_id);;
   ret group_id)%py.

Definition get_rolling_window_size (environ : gmap string string) : M state Z :=
  (window_size <- lift (os_getenv environ "WEATHER_ROLLING_WINDOW_SIZE" py_int (Ok 5));;
   emit (InfoWindowSize window_size);;
   ret window_size)%py.

Section WithCollaborators.

(** [json.loads] *)
Variable json_loads : string -> result pyval.

(** [utils.utils_consumer.create_kafka_consumer(topic, group_id)]: it
    raises, or returns a consumer whose iteration runs the given steps. *)
Variable create_kafka_consumer : string -> string -> result (list delivery).

(** [process_message(message, rolling_window, window_size)]. The log calls
    format their arguments in f-strings. What [json.loads] returned, and the
    window size, hold no [int] beyond the limit on digits, so these are
    formatted without an exception and their records are plain [emit]s;
    [temp_range] is computed here, by a subtraction, and its formatting can
    raise. *)
Definition process_message (message : string) (window_size : Z) : M state unit :=
  try_except
    (emit (DebugRawMessage message);;
     data <- lift (json_loads message);;
     timestamp <- lift (py_get data "timestamp");;
     temperature <- lift (py_get data "temperature");;
     humidity <- lift (py_get data "humidity");;
     pressure <- lift (py_get data "pressure");;
     emit (InfoProcessedJSON data);;
     if None_in [timestamp; temperature; humidity; pressure] then
       emit (ErrorInvalidFormat message)
     else
       rolling_window_append temperature;;
       emit (InfoWeatherData timestamp temperature humidity pressure);;
       s <- get;;
       if deque_len (rolling_window s) =? window_size then
         temp_range <- lift (max_minus_min (items (rolling_window s)));;
         lift (py_format temp_range);;
         emit (DebugTemperatureRange window_size temp_range)
       else ret tt)%py
    (fun e =>
       if is_JSONDecodeError e then Some (emit (ErrorJSONDecoding message e))
       else if is_Exception e then Some (emit (ErrorProcessing message e))
       else None).

(** [for message in consumer: ...] *)
Fixpoint for_message_in (consumer : list delivery) (window_size : Z) : M state unit :=
  match consumer with
  | [] => ret tt
  | Message message_str offset :: rest =>
      (emit (DebugReceived offset message_str);;
       process_message message_str window_size;;
       for_message_in rest window_size)%py
  | PollRaises e :: _ => raise e
  end.

(** The [try] statement of [main] *)
Definition poll_and_process (consumer : list delivery) (topic : string)
    (window_size : Z) : M state unit :=
  try_finally
    (try_except (for_message_in consumer window_size)
       (fun e =>
          if is_KeyboardInterrupt e then Some (emit WarningConsumerInterrupted)
          else if is_Exception e then Some (emit (ErrorConsuming e))
          else None))
    (consumer_close;;
     emit (InfoConsumerClosed topic))%py.

Definition main (environ : gmap string string) : M state unit :=
  (emit InfoStartConsumer;;
   topic <- get_kafka_topic environ;;
   group_id <- get_kafka_consumer_group_id environ;;
   window_size <- get_rolling_window_size environ;;
   emit (InfoConsumer topic group_id);;
   emit (InfoWindowSize window_size);;
   rolling_window <- lift (deque_new window_size);;
   set_rolling_window rolling_window;;
   consumer <- lift (create_kafka_consumer topic group_id);;
   emit (InfoPolling topic);;
   poll_and_process consumer topic window_size)%py.

End WithCollaborators.

(** The state a fresh process starts from. *)
Definition initial : state := State (Deque None []) 0 [].

(** [s] after the log records [evs]. *)
Definition logging (evs : list event) (s : state) : state :=
  State (rolling_window s) (close_calls s) (log s ++ evs).

(** The log records written between the states [s] and [s']. *)
Definition new_events (s s' : state) : list event := drop (length (log s)) (log s').

(** The fields [process_message] requires, and their values in a decoded
    object. *)
Definition required_fields : list string :=
  ["timestamp"; "temperature"; "humidity"; "pressure"].

Definition field (d : list (string * pyval)) (key : string) : pyval :=
  default PNone (dict_lookup key d).

(** What a valid record adds to the log once [window] has taken its
    temperature. *)
Definition valid_record_events (message : string) (W : Z)
    (d : list (string * pyval)) (window : deque) : list event :=
  [DebugRawMessage message; InfoProcessedJSON (PDict d);
   InfoWeatherData (field d "timestamp") (field d "temperature")
                   (field d "humidity") (field d "pressure")]
  ++ (if deque_len window =? W then
        match logged_range (items window) with
        | Ok temp_range => [DebugTemperatureRange W temp_range]
        | Raise e => [ErrorProcessing message e]
        end
      else []).

(** A payload the consumer rejects: the decoder raises [JSONDecodeError] on
    it, or it decodes to an object that lacks a required field. *)
Definition rejected (decoder : string -> result pyval) (message : string) : Prop :=
  (exists e, decoder message = Raise e /\ is_JSONDecodeError e = true)
  \/ (exists d key,
        decoder message = Ok (PDict d) /\ In key required_fields
        /\ dict_lookup key d = None).

Definition is_Message (step : delivery) : Prop :=
  match step with
  | Message _ _ => True
  | PollRaises _ => False
  end.

Definition delivers_rejected (decoder : string -> result pyval) (step : delivery) : Prop :=
  match step with
  | Message message _ => rejected decoder message
  | PollRaises _ => False
  end.

(** A step that delivers a valid record with the given temperature. *)
Definition delivers_valid (decoder : string -> result pyval) (step : delivery)
    (temperature : pyval) : Prop :=
  match step with
  | Message message _ =>
      exists d,
        decoder message = Ok (PDict d)
        /\ None_in (map (field d) required_fields) = false
        /\ field d "temperature" = temperature
  | PollRaises _ => False
  end.

(** A decoder that, like [json.loads], raises nothing but subclasses of
    [Exception]. *)
Definition raises_Exceptions_only (decoder : string -> result pyval) : Prop :=
  forall message e, decoder message = Raise e -> is_Exception e = true.

(** The temperature ranges a log reports, oldest first. *)
Definition reported_ranges (l : list event) : list pyval :=
  omap (fun ev => match ev with
                  | DebugTemperatureRange _ temp_range => Some temp_range
                  | _ => None
                  end) l.

End Consumer.

(** * The producer: [producers/json_producer_Adeyemi.py] *)

Module Producer.

(** What the process does to the world, in order. *)
Inductive action : Type :=
  | Log (ev : event)
  | Sleep (seconds : Z)                   (* [time.sleep(seconds)] *)
  | Send (topic : string) (value : pyval) (* [producer.send(topic, value=value)] *)
  | Close.                                (* [producer.close()] *)

(** The state of the process is the trace of what it has done so far. *)
Abbreviation state := (list action).

Definition perform (a : action) : M state unit := modify (fun trace => trace ++ [a]).

Definition emit (ev : event) : M state unit := perform (Log ev).

Definition is_Sleep (a : action) : bool :=
  match a with Sleep _ => true | _ => false end.

Definition is_Send (a : action) : bool :=
  match a with Send _ _ => true | _ => false end.

Definition is_Close (a : action) : bool :=
  match a with Close => true | _ => false end.

Inductive kafka_producer : Type := KafkaProducer.

(** [bool(producer)] for what [create_kafka_producer] returned: [None] is
    false, a producer object is true. *)
Definition truth (producer : option kafka_producer) : bool :=
  match producer with
  | Some _ => true
  | None => false
  end.

Definition get_kafka_topic (environ : gmap string string) : M state string :=
  (let topic := os_getenv environ "TRANSPORT_TOPIC" id "transportation_updates" in
   emit (InfoKafkaTopic topic);;
   ret topic)%py.

Definition get_message_interval (environ : gmap string string) : M state Z :=
  (interval <- lift (os_getenv environ "TRANSPORT_INTERVAL_SECONDS" py_int (Ok 2));;
   emit (InfoMessageInterval interval);;
   ret interval)%py.

(** The record built at each turn of the generator's loop. The counter
    starts at 1 and grows by one per record: in a run it stays far within
    the limit on the digits [str] converts. *)
Definition ride_message (ride_id_counter : Z) : pyval :=
  PDict
    [ ("ride_id", PStr (py_str_int ride_id_counter));
      ("service", PStr "Uber");
      ("status",
        PStr (if ride_id_counter mod 2 =? 0 then "Completed" else "In Progress"));
      ("duration", PInt (ride_id_counter * 10));
      ("pickup_location", PStr "Downtown");
      ("dropoff_location",
        PStr (if ride_id_counter mod 2 =? 0 then "Airport" else "Hotel")) ].

(** A generator object of [generate_messages]: not started yet, or suspended
    at its [yield] with the counter it last used. *)
Inductive generator : Type :=
  | NotStarted
  | AtYield (ride_id_counter : Z).

Definition generate_messages : generator := NotStarted.

Section WithCollaborators.

(** [utils.utils_producer]: [verify_services()], [create_kafka_producer(...)]
    (a producer, or [None]) and [create_kafka_topic(topic)]. *)
Variable verify_services : result unit.
Variable create_kafka_producer : result (option kafka_producer).
Variable create_kafka_topic : string -> result unit.

(** How the [k]-th call of [time.sleep] and of [producer.send] ends,
    counting from 0. *)
Variable sleep_ends : nat -> result unit.
Variable send_ends : nat -> result unit.

Definition time_sleep (seconds : Z) : M state unit :=
  (trace <- get;;
   perform (Sleep seconds);;
   lift (sleep_ends (length (filter is_Sleep trace))))%py.

Definition producer_send (topic : string) (value : pyval) : M state unit :=
  (trace <- get;;
   perform (Send topic value);;
   lift (send_ends (length (filter is_Send trace))))%py.

(** From the top of the [while True] loop to the [yield]. *)
Definition run_to_yield (ride_id_counter : Z) : M state (pyval * generator) :=
  (let message := ride_message ride_id_counter in
   emit (DebugGenerated message);;
   ret (message, AtYield ride_id_counter))%py.

(** [next(g)]: a new generator starts with counter 1; a suspended one
    resumes after its [yield], adds 1 to the counter, sleeps 2 seconds and
    goes round the loop. *)
Definition next (g : generator) : M state (pyval * generator) :=
  match g with
  | NotStarted => run_to_yield 1
  | AtYield ride_id_counter =>
      (let ride_id_counter := ride_id_counter + 1 in
       time_sleep 2;;
       run_to_yield ride_id_counter)%py
  end.

(** [for message_dict in generate_messages(): ...], observed for the given
    number of turns. *)
Fixpoint for_message_dict_in (turns : nat) (g : generator) (topic : string)
  : M state unit :=
  match turns with
  | O => running
  | S turns' =>
      (yielded <- next g;;
       let '(message_dict, g') := yielded in
       producer_send topic message_dict;;
       emit (InfoSent topic message_dict);;
       for_message_dict_in turns' g' topic)%py
  end.

Definition main (turns : nat) (environ : gmap string string) : M state unit :=
  (emit InfoStartProducer;;
   lift verify_services;;
   topic <- get_kafka_topic environ;;
   interval_secs <- get_message_interval environ;;
   producer <- lift create_kafka_producer;;
   (if negb (truth producer) then
      emit ErrorCreateProducer;;
      raise (SystemExit 3)
    else ret tt);;
   try_except
     (lift (create_kafka_topic topic);;
      emit (InfoTopicReady topic))
     (fun e =>
        if is_Exception e then
          Some (emit (ErrorCreateTopic topic e);;
                raise (SystemExit 1))
        else None);;
   emit (InfoStartProduction topic);;
   try_finally
     (try_except (for_message_dict_in turns generate_messages topic)
        (fun e =>
           if is_KeyboardInterrupt e then Some (emit WarningProducerInterrupted)
           else if is_Exception e then Some (emit (ErrorProduction e))
           else None))
     (perform Close;;
      emit InfoProducerClosed);;
   emit InfoEndProducer)%py.

End WithCollaborators.

(** The status with which the interpreter leaves when [main()] ends this
    way, where the way fixes one: 0 after a return, the code of a
    [SystemExit], 1 after another uncaught [Exception]. *)
Definition exit_status (o : outcome unit) : option Z :=
  match o with
  | Returned _ => Some 0
  | Raised (SystemExit code) => Some code
  | Raised e => if is_Exception e then Some 1 else None
  | Running => None
  end.

(** The seconds slept between one [Send] and the next, for every pair of
    consecutive sends of a trace. [since] collects the sleeps since the last
    send, [None] before the first one. *)
Fixpoint delays_from (since : option Z) (trace : list action) : list Z :=
  match trace with
  | [] => []
  | Sleep seconds :: rest => delays_from (option_map (Z.add seconds) since) rest
  | Send _ _ :: rest =>
      match since with
      | Some d => d :: delays_from (Some 0) rest
      | None => delays_from (Some 0) rest
      end
  | _ :: rest => delays_from since rest
  end.

Definition delays (trace : list action) : list Z := delays_from None trace.

(** The counter of a generator; 0 stands for one that has not started, whose
    first record uses 1. *)
Definition counter (g : generator) : Z :=
  match g with
  | NotStarted => 0
  | AtYield ride_id_counter => ride_id_counter
  end.

(** The values handed to [producer.send], in order. *)
Definition sent_values (trace : list action) : list pyval :=
  omap (fun a => match a with Send _ value => Some value | _ => None end) trace.

(** What one turn of the loop of [main] does when its calls return, and what
    the following turns do. *)
Definition turn_actions (g : generator) (topic : string) : list action :=
  let message := ride_message (counter g + 1) in
  match g with
  | NotStarted => []
  | AtYield _ => [Sleep 2]
  end
  ++ [Log (DebugGenerated message); Send topic message; Log (InfoSent topic message)].

Fixpoint loop_actions (turns : nat) (g : generator) (topic : string) : list action :=
  match turns with
  | O => []
  | S turns' =>
      turn_actions g topic ++ loop_actions turns' (AtYield (counter g + 1)) topic
  end.

(** The topic and the interval [main] reads from the environment. *)
Definition configured_topic (environ : gmap string string) : string :=
  os_getenv environ "TRANSPORT_TOPIC" id "transportation_updates".

Definition configured_interval (environ : gmap string string) : result Z :=
  os_getenv environ "TRANSPORT_INTERVAL_SECONDS" py_int (Ok 2).

(** What [main] does up to its loop when every step succeeds. *)
Definition startup_actions (topic : string) (interval : Z) : list action :=
  [Log InfoStartProducer; Log (InfoKafkaTopic topic);
   Log (InfoMessageInterval interval); Log (InfoTopicReady topic);
   Log (InfoStartProduction topic)].

(** The turn of the loop after [next] has returned. *)
Definition loop_body (send_ends : nat -> result unit) (topic : string)
    (message_dict : pyval) : M state unit :=
  (producer_send send_ends topic message_dict;;
   emit (InfoSent topic message_dict))%py.

End Producer.

(** * Example payloads *)

Definition quoted (s : string) : string :=
  String dquote (s ++ String dquote EmptyString)%string.

(** A record in the format of the consumer's documentation, with the texts of
    its three numbers. *)
Definition weather_record (timestamp temperature humidity pressure : string) : string :=
  ("{" ++ quoted "timestamp" ++ ": " ++ quoted timestamp ++ ", "
       ++ quoted "temperature" ++ ": " ++ temperature ++ ", "
       ++ quoted "humidity" ++ ": " ++ humidity ++ ", "
       ++ quoted "pressure" ++ ": " ++ pressure ++ "}")%string.

Definition reading (temperature : string) : string :=
  weather_record "2023-10-01T12:00:00Z" temperature "60" "1013.2".

(** The same record without its temperature. *)
Definition record_without_temperature : string :=
  ("{" ++ quoted "timestamp" ++ ": " ++ quoted "2023-10-01T12:00:00Z" ++ ", "
       ++ quoted "humidity" ++ ": 60, "
       ++ quoted "pressure" ++ ": 1013.2}")%string.

(** What it decodes to. *)
Definition object_without_temperature : list (string * pyval) :=
  [ ("timestamp", PStr "2023-10-01T12:00:00Z");
    ("humidity", PInt 60);
    ("pressure", PFloat (float_of_decimal false 10132 (-1))) ].

(** A record cut off in the middle. *)
Definition truncated_record : string :=
  ("{" ++ quoted "timestamp" ++ ": " ++ quoted "2023-10-01T12:00:00Z" ++ ", "
       ++ quoted "temperature" ++ ": 2")%string.

(** A record whose temperature is a string. *)
Definition record_with_text_temperature : string :=
  weather_record "2023-10-01T12:00:00Z" (quoted "warm") "60" "1013.2".

Definition object_with_text_temperature : list (string * pyval) :=
  [ ("timestamp", PStr "2023-10-01T12:00:00Z");
    ("temperature", PStr "warm");
    ("humidity", PInt 60);
    ("pressure", PFloat (float_of_decimal false 10132 (-1))) ].

(** Deliveries of the given payloads at offsets 0, 1, 2, ... *)
Definition deliveries (payloads : list string) : list Consumer.delivery :=
  imap (fun i payload => Consumer.Message payload (Z.of_nat i)) payloads.

Definition float_of_Z (z : Z) : spec_float := binary_normalize prec emax z 0 false.

(** The state after the consumer loop has run over the given payloads. *)
Definition after_records (decoder : string -> result pyval) (payloads : list string)
    (W : Z) (s : Consumer.state) : Consumer.state :=
  snd (Consumer.for_message_in decoder (deliveries payloads) W s).

(** The numeral made of [n] times the digit [c]. *)
Definition repeated_digit (c : ascii) (n : nat) : string :=
  string_of_list_ascii (List.repeat c n).

(** The state of a process whose window [deque(maxlen=W)] is still empty. *)
Definition empty_window (W : Z) : Consumer.state :=
  Consumer.State (Deque (Some W) []) 0 [].

(** * Streams of deliveries and traces of the producer *)

(** The temperature [process_message] appends to the window for a payload:
    that of an object in which the four fields are present and not [None];
    nothing for any other payload. *)
Definition accepted_temperature (decoder : string -> result pyval) (message : string)
  : option pyval :=
  match decoder message with
  | Ok (PDict d) =>
      if None_in (map (Consumer.field d) Consumer.required_fields) then None
      else Some (Consumer.field d "temperature")
  | _ => None
  end.

(** The payloads the loop of the consumer receives: those delivered before
    the source raises for the first time. *)
Fixpoint polled (consumer : list Consumer.delivery) : list string :=
  match consumer with
  | Consumer.Message message _ :: rest => message :: polled rest
  | _ => []
  end.

(** The steps of a source up to its first exception. *)
Fixpoint until_raise (consumer : list Consumer.delivery) : list Consumer.delivery :=
  match consumer with
  | [] => []
  | Consumer.Message message offset :: rest =>
      Consumer.Message message offset :: until_raise rest
  | Consumer.PollRaises e :: _ => [Consumer.PollRaises e]
  end.

(** What the consumer reads from the environment. *)
Definition consumer_topic (environ : gmap string string) : string :=
  os_getenv environ "WEATHER_TOPIC" id "weather_data_topic".

Definition consumer_group_id (environ : gmap string string) : string :=
  os_getenv environ "WEATHER_CONSUMER_GROUP_ID" id "weather_group".

Definition consumer_window_size (environ : gmap string string) : result Z :=
  os_getenv environ "WEATHER_ROLLING_WINDOW_SIZE" py_int (Ok 5).

(** What the consumer's [main] logs before it creates its window. *)
Definition consumer_startup_events (topic group_id : string) (W : Z) : list event :=
  [InfoStartConsumer; InfoKafkaTopic topic; InfoConsumerGroup group_id;
   InfoWindowSize W; InfoConsumer topic group_id; InfoWindowSize W].

Definition is_number (v : pyval) : bool :=
  match as_number v with
  | Some _ => true
  | None => false
  end.

(** The range [process_message] reports for a window with the given items:
    [max(rolling_window) - min(rolling_window)], when the expression has a
    value and the value can be formatted for the log record. *)
Definition range_of_window (window_items : list pyval) : option pyval :=
  match logged_range window_items with
  | Ok temp_range => Some temp_range
  | Raise _ => None
  end.

(** The ranges [process_message] reports while the given temperatures are
    appended to the window one call after the other: the append and the
    test on the length of the window, for each of them. *)
Fixpoint pushed_ranges (W : Z) (temperatures : list pyval) (window : deque)
  : list pyval :=
  match temperatures with
  | [] => []
  | temperature :: rest =>
      let window' := deque_append temperature window in
      (if deque_len window' =? W then
         match range_of_window (items window') with
         | Some temp_range => [temp_range]
         | None => []
         end
       else [])
      ++ pushed_ranges W rest window'
  end.

(** The seconds slept since the last [Send] at the end of a trace, starting
    from [since]; [None] while nothing has been sent. *)
Fixpoint since_after (since : option Z) (trace : list Producer.action) : option Z :=
  match trace with
  | [] => since
  | Producer.Sleep seconds :: rest => since_after (option_map (Z.add seconds) since) rest
  | Producer.Send _ _ :: rest => since_after (Some 0) rest
  | _ :: rest => since_after since rest
  end.

(** What the [try] statement of the producer's [main] and the line after it
    make of the way its loop has ended in the trace [t]. *)
Definition producer_finish (loop : outcome unit * list Producer.action)
  : outcome unit * list Producer.action :=
  let closing := [Producer.Close; Producer.Log InfoProducerClosed] in
  match loop with
  | (Running, t) => (Running, t)
  | (Returned _, t) => (Returned tt, t ++ closing ++ [Producer.Log InfoEndProducer])
  | (Raised e, t) =>
      if is_KeyboardInterrupt e then
        (Returned tt,
         t ++ [Producer.Log WarningProducerInterrupted] ++ closing
           ++ [Producer.Log InfoEndProducer])
      else if is_Exception e then
        (Returned tt,
         t ++ [Producer.Log (ErrorProduction e)] ++ closing
           ++ [Producer.Log InfoEndProducer])
      else (Raised e, t ++ closing)
  end.

(** A weather record whose temperature is [null], and what it decodes to. *)
Definition record_with_null_temperature : string :=
  weather_record "2023-10-01T12:00:00Z" "null" "60" "1013.2".

Definition object_with_null_temperature : list (string * pyval) :=
  [ ("timestamp", PStr "2023-10-01T12:00:00Z");
    ("temperature", PNone);
    ("humidity", PInt 60);
    ("pressure", PFloat (float_of_decimal false 10132 (-1))) ].

(** The second record of the producer as a JSON text. *)
Definition ride_record_2 : string :=
  ("{" ++ quoted "ride_id" ++ ": " ++ quoted "2" ++ ", "
       ++ quoted "service" ++ ": " ++ quoted "Uber" ++ ", "
       ++ quoted "status" ++ ": " ++ quoted "Completed" ++ ", "
       ++ quoted "duration" ++ ": 20, "
       ++ quoted "pickup_location" ++ ": " ++ quoted "Downtown" ++ ", "
       ++ quoted "dropoff_location" ++ ": " ++ quoted "Airport" ++ "}")%string.

(** * The rolling window *)

Section RollingWindow.

Implicit Types (d : deque) (v : pyval) (values : list pyval) (W : Z).

Lemma deque_new_spec W d :
  deque_new W = Ok d -> d = Deque (Some W) [] /\ 0 <= W.
Proof.
  unfold deque_new.
  destruct ((W <? ssize_min) || (ssize_max <? W)); [discriminate|].
  destruct (W <? 0) eqn:Hneg; [discriminate|].
  intros [= <-]. split; [reflexivity | lia].
Qed.

Lemma ssize_range : ssize_min < 0 < ssize_max.
Proof. unfold ssize_min, ssize_max. lia. Qed.

Lemma deque_new_in_range W :
  0 <= W <= ssize_max -> deque_new W = Ok (Deque (Some W) []).
Proof.
  intros [Hlow Hhigh]. pose proof ssize_range. unfold deque_new.
  destruct (Z.ltb_spec W ssize_min); [lia|].
  destruct (Z.ltb_spec ssize_max W); [lia|].
  by destruct (Z.ltb_spec W 0); [lia|].
Qed.

Lemma deque_new_negative W :
  ssize_min <= W < 0 -> deque_new W = Raise ValueError.
Proof.
  intros [Hlow Hhigh]. pose proof ssize_range. unfold deque_new.
  destruct (Z.ltb_spec W ssize_min); [lia|].
  destruct (Z.ltb_spec ssize_max W); [lia|].
  by destruct (Z.ltb_spec W 0); [|lia].
Qed.

Lemma deque_new_out_of_range W :
  W < ssize_min \/ ssize_max < W -> deque_new W = Raise OverflowError.
Proof.
  intros Hout. unfold deque_new.
  destruct (Z.ltb_spec W ssize_min); [done|].
  by destruct (Z.ltb_spec ssize_max W); [|lia].
Qed.

Lemma maxlen_append v d : maxlen (deque_append v d) = maxlen d.
Proof. unfold deque_append. destruct (maxlen d); reflexivity. Qed.

Lemma push_all_cons v values d :
  push_all (v :: values) d = push_all values (deque_append v d).
Proof. reflexivity. Qed.

Lemma push_all_snoc values v d :
  push_all (values ++ [v]) d = deque_append v (push_all values d).
Proof. unfold push_all. by rewrite foldl_snoc. Qed.

Lemma maxlen_push_all values d : maxlen (push_all values d) = maxlen d.
Proof.
  revert d. induction values as [|v values IH]; intros d; [reflexivity|].
  rewrite push_all_cons, IH. apply maxlen_append.
Qed.

(** One append to a deque within its bound [W] keeps the last [W] items. *)
Lemma items_append_bounded W v d :
  maxlen d = Some W -> within_bound d ->
  items (deque_append v d)
  = drop (length (items d ++ [v]) - Z.to_nat W) (items d ++ [v]).
Proof.
  unfold within_bound, deque_append, deque_len. intros -> [HW Hlen]. cbn.
  rewrite length_app in *. cbn.
  destruct (W <? Z.of_nat (length (items d) + 1)) eqn:Hfull.
  - apply Z.ltb_lt in Hfull.
    replace (length (items d) + 1 - Z.to_nat W)%nat with 1%nat by lia.
    reflexivity.
  - apply Z.ltb_ge in Hfull.
    replace (length (items d) + 1 - Z.to_nat W)%nat with 0%nat by lia.
    reflexivity.
Qed.

Lemma within_bound_append v d : within_bound d -> within_bound (deque_append v d).
Proof.
  unfold within_bound, deque_append, deque_len.
  destruct (maxlen d) as [n|]; cbn; [|done].
  intros [Hn Hlen]. split; [done|].
  destruct (n <? _) eqn:Hfull.
  - rewrite length_drop, length_app. cbn. lia.
  - apply Z.ltb_ge in Hfull. done.
Qed.

Lemma within_bound_push_all values d :
  within_bound d -> within_bound (push_all values d).
Proof.
  revert d. induction values as [|v values IH]; intros d Hd; [done|].
  rewrite push_all_cons. apply IH, within_bound_append, Hd.
Qed.

(** Appending [values] to a deque within its bound [W] leaves the last [W]
    of the old items followed by the new ones. *)
Lemma items_push_all W values d :
  maxlen d = Some W -> within_bound d ->
  items (push_all values d)
  = drop (length (items d ++ values) - Z.to_nat W) (items d ++ values).
Proof.
  revert d. induction values as [|v values IH]; intros d Hmax Hd.
  - cbn. rewrite app_nil_r.
    unfold within_bound, deque_len in Hd. rewrite Hmax in Hd.
    replace (_ - _)%nat with 0%nat by lia. reflexivity.
  - rewrite push_all_cons.
    rewrite IH; [|by rewrite maxlen_append | by apply within_bound_append].
    rewrite (items_append_bounded W) by done.
    unfold within_bound, deque_len in Hd. rewrite Hmax in Hd.
    destruct Hd as [HW Hlen].
    set (k := (length (items d ++ [v]) - Z.to_nat W)%nat).
    assert (Hk : (k <= length (items d ++ [v]))%nat) by (unfold k; lia).
    rewrite <- (drop_app_le _ values) by exact Hk.
    rewrite <- (app_assoc (items d) [v] values). cbn [app].
    rewrite drop_drop. f_equal.
    rewrite length_drop, !length_app. cbn [length].
    unfold k. rewrite length_app. cbn [length]. lia.
Qed.

End RollingWindow.


(** * What the builtins can raise *)

Lemma py_order_raises want : forall a b e, py_order want a b = Raise e -> e = TypeError.
Proof.
  fix IH 1. intros a b e.
  destruct a as [ | | | | |l|d]; destruct b as [ | | | | |m|d']; cbn;
    try congruence.
  revert m. induction l as [|x l IHl]; intros [|y m]; try congruence.
  destruct (py_eq x y); [apply IHl | apply IH].
Qed.

Lemma extremum_raises want best rest e :
  extremum (py_order want) best rest = Raise e -> e = TypeError.
Proof.
  revert best. induction rest as [|item rest IH]; intros best; cbn; [congruence|].
  destruct (py_order want item best) as [b|e'] eqn:Hcmp; cbn.
  - apply IH.
  - intros [= <-]. eapply py_order_raises, Hcmp.
Qed.

Lemma py_max_raises l e : py_max l = Raise e -> e = ValueError \/ e = TypeError.
Proof.
  destruct l as [|first rest]; cbn; [intros [= <-]; by left|].
  intros H. right. eapply extremum_raises, H.
Qed.

Lemma py_min_raises l e : py_min l = Raise e -> e = ValueError \/ e = TypeError.
Proof.
  destruct l as [|first rest]; cbn; [intros [= <-]; by left|].
  intros H. right. eapply extremum_raises, H.
Qed.

Lemma float_of_int_raises z e : float_of_int z = Raise e -> e = OverflowError.
Proof. unfold float_of_int. destruct (binary_normalize _ _ _ _ _); congruence. Qed.

Lemma py_sub_raises a b e : py_sub a b = Raise e -> e = TypeError \/ e = OverflowError.
Proof.
  unfold py_sub.
  destruct (as_number a) as [[x|f]|], (as_number b) as [[y|g]|]; cbn;
    try (intros [= <-]; by left); try congruence.
  - destruct (float_of_int x) eqn:Hf; cbn; [congruence|].
    intros [= <-]. right. eapply float_of_int_raises, Hf.
  - destruct (float_of_int y) eqn:Hf; cbn; [congruence|].
    intros [= <-]. right. eapply float_of_int_raises, Hf.
Qed.

Lemma max_minus_min_raises l e :
  max_minus_min l = Raise e -> e = ValueError \/ e = TypeError \/ e = OverflowError.
Proof.
  unfold max_minus_min.
  destruct (py_max l) as [hi|e1] eqn:Hmax; cbn.
  - destruct (py_min l) as [lo|e2] eqn:Hmin; cbn.
    + intros H. apply py_sub_raises in H. tauto.
    + intros [= <-]. apply py_min_raises in Hmin. tauto.
  - intros [= <-]. apply py_max_raises in Hmax. tauto.
Qed.

Lemma max_minus_min_caught l e :
  max_minus_min l = Raise e -> is_JSONDecodeError e = false /\ is_Exception e = true.
Proof. intros H. apply max_minus_min_raises in H as [->|[->| ->]]; done. Qed.

Lemma py_format_raises v e : py_format v = Raise e -> e = ValueError.
Proof.
  revert v e. fix IH 1. intros [| b | z | f | t | l | d] e; cbn; try discriminate.
  - destruct (str_digits_bound <=? Z.abs z); [|discriminate]. by intros [= <-].
  - induction l as [|x l IHl]; [discriminate|].
    destruct (py_format x) as [[]|e'] eqn:Hx; [exact IHl|].
    intros [= <-]. exact (IH x e' Hx).
  - induction d as [|[k x] d IHd]; [discriminate|].
    destruct (py_format x) as [[]|e'] eqn:Hx; [exact IHd|].
    intros [= <-]. exact (IH x e' Hx).
Qed.

(** [str] refuses an [int] of more than 4300 digits, nothing else among the
    numbers. *)
Lemma py_format_int z :
  py_format (PInt z) = if 10 ^ 4300 <=? Z.abs z then Raise ValueError else Ok tt.
Proof. reflexivity. Qed.

Lemma py_format_float f : py_format (PFloat f) = Ok tt.
Proof. reflexivity. Qed.

(** A range is a number. *)
Lemma max_minus_min_number l temp_range :
  max_minus_min l = Ok temp_range ->
  (exists z, temp_range = PInt z) \/ (exists f, temp_range = PFloat f).
Proof.
  unfold max_minus_min.
  destruct (py_max l) as [hi|e1]; [|discriminate]. cbn.
  destruct (py_min l) as [lo|e2]; [|discriminate]. cbn.
  unfold py_sub. destruct (as_number hi) as [[x|f]|]; [| |discriminate];
    (destruct (as_number lo) as [[y|g]|]; [| |discriminate]); cbn.
  - intros [= <-]. left. by eexists.
  - destruct (float_of_int x); [|discriminate]. cbn. intros [= <-]. right. by eexists.
  - destruct (float_of_int y); [|discriminate]. cbn. intros [= <-]. right. by eexists.
  - intros [= <-]. right. by eexists.
Qed.

Lemma logged_range_raises l e :
  logged_range l = Raise e -> e = ValueError \/ e = TypeError \/ e = OverflowError.
Proof.
  unfold logged_range. destruct (max_minus_min l) as [r|e'] eqn:Hrange.
  - destruct (py_format r) as [[]|e''] eqn:Hformat; [discriminate|].
    intros [= <-]. left. by eapply py_format_raises.
  - intros [= <-]. exact (max_minus_min_raises l e' Hrange).
Qed.

Lemma logged_range_not_computed l e :
  max_minus_min l = Raise e -> logged_range l = Raise e.
Proof. unfold logged_range. by intros ->. Qed.

Lemma logged_range_caught l e :
  logged_range l = Raise e -> is_JSONDecodeError e = false /\ is_Exception e = true.
Proof. intros H. apply logged_range_raises in H as [->|[->| ->]]; done. Qed.

(** A range that is logged is the range computed, and it can be formatted. *)
Lemma logged_range_Ok l temp_range :
  logged_range l = Ok temp_range
  <-> max_minus_min l = Ok temp_range /\ py_format temp_range = Ok tt.
Proof.
  unfold logged_range. destruct (max_minus_min l) as [r|e]; [|split; [|intros []]; discriminate].
  destruct (py_format r) as [[]|e] eqn:Hformat.
  - split; [intros [= <-]; by split | by intros [[= <-] _]].
  - split; [discriminate|]. intros [[= <-] Hok]. congruence.
Qed.

Lemma py_get_raises data key e : py_get data key = Raise e -> e = AttributeError.
Proof. destruct data; cbn; congruence. Qed.

Lemma is_Exception_JSONDecodeError e : is_JSONDecodeError e = true -> is_Exception e = true.
Proof. by destruct e. Qed.


(** * [int] and [str] share their limit *)

Section IntAndStr.

Lemma digit_value_range c d : digit_value c = Some d -> 0 <= d <= 9.
Proof.
  unfold digit_value. destruct (Z.leb_spec 48 (code c)); [|discriminate].
  destruct (Z.leb_spec (code c) 57); [|discriminate]. cbn. intros [= <-]. lia.
Qed.

Lemma count_digits_nonneg s : 0 <= count_digits s.
Proof.
  induction s as [|c s IH]; cbn; [lia|]. destruct (digit_value c); lia.
Qed.

(** The digits read after [acc] extend it by one decimal place each. *)
Lemma digits_value_bound s : forall acc after_digit v,
  0 <= acc -> digits_value acc after_digit s = Some v ->
  0 <= v < (acc + 1) * 10 ^ count_digits s.
Proof.
  induction s as [|c s IH]; intros acc after_digit v Hacc; cbn.
  - destruct after_digit; [|discriminate]. intros [= <-]. lia.
  - pose proof (count_digits_nonneg s) as Hcount.
    destruct (digit_value c) as [d|] eqn:Hd.
    + apply digit_value_range in Hd. intros Hv.
      apply IH in Hv; [|lia].
      replace (1 + count_digits s) with (Z.succ (count_digits s)) by lia.
      rewrite Z.pow_succ_r by done. nia.
    + destruct (Ascii.eqb c "_" && after_digit); [|discriminate]. by apply IH.
Qed.

Lemma sign_cases {A} (body : list ascii) (minus plus : list ascii -> A) (other : A) :
  match body with
  | "-"%char :: rest => minus rest
  | "+"%char :: rest => plus rest
  | _ => other
  end
  = match body with
    | c :: rest =>
        if Ascii.eqb c "-" then minus rest
        else if Ascii.eqb c "+" then plus rest else other
    | [] => other
    end.
Proof. destruct body as [|[[] [] [] [] [] [] [] []] rest]; reflexivity. Qed.

(** What [int] returns, [str] converts: the limit on digits is the same in
    both directions. *)
Lemma py_int_within_limit s z : py_int s = Ok z -> Z.abs z < 10 ^ int_max_str_digits.
Proof.
  unfold py_int. set (body := strip (list_ascii_of_string s)).
  rewrite (sign_cases body (fun rest => option_map Z.opp (digits_value 0 false rest))
             (fun rest => digits_value 0 false rest) (digits_value 0 false body)).
  assert (Hbody : forall rest v,
             count_digits rest <= count_digits body ->
             digits_value 0 false rest = Some v ->
             count_digits body <= int_max_str_digits ->
             v < 10 ^ int_max_str_digits /\ 0 <= v).
  { intros rest v Hcount Hv Hlimit.
    apply digits_value_bound in Hv; [|lia].
    pose proof (count_digits_nonneg rest).
    assert (10 ^ count_digits rest <= 10 ^ int_max_str_digits)
      by (apply Z.pow_le_mono_r; lia).
    lia. }
  assert (Hend : forall signed : option Z,
             (forall v, signed = Some v -> count_digits body <= int_max_str_digits ->
                        Z.abs v < 10 ^ int_max_str_digits) ->
             match signed with
             | Some z' =>
                 if int_max_str_digits <? count_digits body then Raise ValueError
                 else Ok z'
             | None => Raise ValueError
             end = Ok z -> Z.abs z < 10 ^ int_max_str_digits).
  { intros [v|] Hsigned; [|discriminate].
    destruct (Z.ltb_spec int_max_str_digits (count_digits body)); [discriminate|].
    intros [= <-]. by apply Hsigned. }
  apply Hend. intros v Hv Hlimit.
  destruct body as [|c rest] eqn:Hshape; [discriminate|].
  assert (Hrest : count_digits rest <= count_digits (c :: rest))
    by (cbn; destruct (digit_value c); lia).
  destruct (Ascii.eqb c "-"); [|destruct (Ascii.eqb c "+")].
  - destruct (digits_value 0 false rest) as [w|] eqn:Hw; [|discriminate].
    injection Hv as <-. destruct (Hbody rest w Hrest Hw Hlimit). lia.
  - destruct (Hbody rest v Hrest Hv Hlimit). lia.
  - destruct (Hbody (c :: rest) v ltac:(lia) Hv Hlimit). lia.
Qed.

(** So the window size and the message interval are formatted in their log
    records without an exception. *)
Lemma py_int_formats s z : py_int s = Ok z -> py_format (PInt z) = Ok tt.
Proof.
  intros Hint. apply py_int_within_limit in Hint. rewrite py_format_int.
  change (10 ^ 4300) with (10 ^ int_max_str_digits).
  by destruct (Z.leb_spec (10 ^ int_max_str_digits) (Z.abs z)); [lia|].
Qed.

End IntAndStr.


(** * The decoder raises [JSONDecodeError], [RecursionError] or [ValueError] only *)

Lemma scan_number_raises s e :
  scan_number s = Raise e -> e = JSONDecodeError \/ e = ValueError.
Proof.
  unfold scan_number.
  destruct (match s with EmptyString => _ | String _ _ => _ end) as [negative s1].
  destruct (match s1 with EmptyString => _ | String _ _ => _ end)
    as [[[int_digits int_value] s2]|]; [|intros [= <-]; by left].
  destruct (match s2 with EmptyString => _ | String _ _ => _ end) as [frac s3].
  destruct (match s3 with EmptyString => _ | String _ _ => _ end) as [expo s4].
  destruct frac as [[frac_digits mantissa]|], expo as [exponent|]; try discriminate.
  destruct (int_max_str_digits <? _); [|discriminate]. intros [= <-]. by right.
Qed.

Lemma scan_scalar_raises s e :
  scan_scalar s = Raise e -> e = JSONDecodeError \/ e = ValueError.
Proof.
  unfold scan_scalar. destruct s as [|c rest]; [intros [= <-]; by left|].
  destruct (Ascii.eqb c dquote).
  - destruct (scan_string [] rest) as [[text rest']|]; [discriminate|].
    intros [= <-]. by left.
  - destruct (match c with Ascii _ _ _ _ _ _ _ _ => _ end); [discriminate|].
    apply scan_number_raises.
Qed.

Lemma scan_raises fuel :
  forall depth,
    (forall s e, scan_value fuel depth s = Raise e -> decoding_error e)
    /\ (forall acc s e, scan_items fuel depth acc s = Raise e -> decoding_error e)
    /\ (forall acc s e, scan_members fuel depth acc s = Raise e -> decoding_error e).
Proof.
  unfold decoding_error.
  induction fuel as [|fuel IH]; intros depth.
  { repeat split; intros; cbn in *; right; left; congruence. }
  repeat split.
  - intros s e. cbn.
    destruct (after "[" s) as [rest|].
    + destruct depth as [|depth]; [intros [= <-]; right; by left|].
      destruct (after "]" _); [congruence|]. apply (proj1 (proj2 (IH depth))).
    + destruct (after "{" s) as [rest|].
      * destruct depth as [|depth]; [intros [= <-]; right; by left|].
        destruct (after "}" _); [congruence|]. apply (proj2 (proj2 (IH depth))).
      * intros Hscalar. apply scan_scalar_raises in Hscalar as [-> | ->]; tauto.
  - intros acc s e. cbn.
    destruct (scan_value fuel depth s) as [[v rest]|e'] eqn:Hv; cbn.
    + destruct (after "]" _); [congruence|].
      destruct (after "," _); [apply (proj1 (proj2 (IH depth)))|].
      intros [= <-]. by left.
    + intros [= <-]. eapply (proj1 (IH depth)), Hv.
  - intros acc s e. cbn.
    destruct (match after dquote s with Some _ => _ | None => _ end) as [[key rest]|];
      [|intros [= <-]; by left].
    destruct (after ":" _); [|intros [= <-]; by left].
    destruct (scan_value fuel depth _) as [[v rest']|e'] eqn:Hv; cbn.
    + destruct (after "}" _); [congruence|].
      destruct (after "," _); [apply (proj2 (proj2 (IH depth)))|].
      intros [= <-]. by left.
    + intros [= <-]. eapply (proj1 (IH depth)), Hv.
Qed.

Lemma json_loads_depth_raises depth s e :
  json_loads_depth depth s = Raise e -> decoding_error e.
Proof.
  unfold json_loads_depth.
  destruct (scan_value _ depth _) as [[v rest]|e'] eqn:Hv; cbn.
  - destruct (skip_ws rest); [congruence|]. intros [= <-]. by left.
  - intros [= <-]. eapply (proj1 (scan_raises _ _)), Hv.
Qed.

Lemma json_loads_raises_Exceptions_only : Consumer.raises_Exceptions_only json_loads.
Proof.
  intros message e H.
  apply json_loads_depth_raises in H as [-> | [-> | ->]]; reflexivity.
Qed.


(** * [process_message], case by case *)

Section ProcessMessage.

Import Consumer.

Variable json_loads : string -> result pyval.

Implicit Types (s : state) (message : string) (W : Z) (d : list (string * pyval)).

Ltac run :=
  unfold process_message, try_except, bind, lift, emit, rolling_window_append,
    modify, get, ret, logging; cbn.

Lemma logging_logging evs evs' s :
  logging evs' (logging evs s) = logging (evs ++ evs') s.
Proof. unfold logging; cbn. by rewrite app_assoc. Qed.

(** The decoder raises [JSONDecodeError]: first [except] clause. *)
Lemma process_message_undecodable message W s e :
  json_loads message = Raise e -> is_JSONDecodeError e = true ->
  process_message json_loads message W s
  = (Returned tt, logging [DebugRawMessage message; ErrorJSONDecoding message e] s).
Proof.
  intros Hload Hjson. run. rewrite Hload, Hjson. cbn.
  by rewrite <- app_assoc.
Qed.

(** The decoder raises another [Exception]: second [except] clause. *)
Lemma process_message_decoder_error message W s e :
  json_loads message = Raise e -> is_JSONDecodeError e = false ->
  is_Exception e = true ->
  process_message json_loads message W s
  = (Returned tt, logging [DebugRawMessage message; ErrorProcessing message e] s).
Proof.
  intros Hload Hjson Hexc. run. rewrite Hload, Hjson, Hexc. cbn.
  by rewrite <- app_assoc.
Qed.

(** The payload decodes to something that is not an object: [data.get]
    raises [AttributeError]. *)
Lemma process_message_not_an_object message W s data :
  json_loads message = Ok data -> py_get data "timestamp" = Raise AttributeError ->
  process_message json_loads message W s
  = (Returned tt,
     logging [DebugRawMessage message; ErrorProcessing message AttributeError] s).
Proof.
  intros Hload Hget. run. rewrite Hload. cbn. rewrite Hget. cbn.
  by rewrite <- app_assoc.
Qed.

(** An object with a required field missing or [None]: early [return]. *)
Lemma process_message_invalid message W s d :
  json_loads message = Ok (PDict d) ->
  None_in (map (field d) required_fields) = true ->
  process_message json_loads message W s
  = (Returned tt,
     logging [DebugRawMessage message; InfoProcessedJSON (PDict d);
              ErrorInvalidFormat message] s).
Proof.
  intros Hload Hnone. run. rewrite Hload. cbn.
  cbn in Hnone. unfold field in Hnone. rewrite Hnone. cbn.
  by rewrite <- !app_assoc.
Qed.

(** An object with all four fields: the window takes the temperature, and a
    window of [W] items has its range reported. *)
Lemma process_message_valid message W s d :
  json_loads message = Ok (PDict d) ->
  None_in (map (field d) required_fields) = false ->
  let window := deque_append (field d "temperature") (rolling_window s) in
  process_message json_loads message W s
  = (Returned tt,
     State window (close_calls s) (log s ++ valid_record_events message W d window)).
Proof.
  intros Hload Hnone window. run. rewrite Hload. cbn.
  cbn in Hnone. unfold field in Hnone. rewrite Hnone. cbn.
  subst window. unfold valid_record_events, logged_range, field.
  destruct (deque_len _ =? W); cbn.
  - destruct (max_minus_min _) as [r|e] eqn:Hrange; cbn.
    + destruct (py_format r) as [[]|e] eqn:Hformat; cbn.
      * by rewrite <- !app_assoc.
      * apply py_format_raises in Hformat as ->. cbn.
        by rewrite <- !app_assoc.
    + apply max_minus_min_caught in Hrange as [-> ->]. cbn.
      by rewrite <- !app_assoc.
  - by rewrite <- !app_assoc.
Qed.

End ProcessMessage.


(** * The consumer's window and its reports *)

Section ConsumerFacts.

Import Consumer.

Variable decoder : string -> result pyval.

Implicit Types (s : state) (message : string) (W : Z) (d : list (string * pyval)).

Lemma new_events_logging evs s : new_events s (logging evs s) = evs.
Proof. unfold new_events, logging; cbn. apply drop_app_length. Qed.

Lemma py_get_not_dict data key :
  (forall d, data <> PDict d) -> py_get data key = Raise AttributeError.
Proof. intros Hnot. destruct data; try reflexivity. by destruct (Hnot d). Qed.

(** A decoder exception that is not an [Exception] passes both [except]
    clauses. *)
Lemma process_message_escape message W s e :
  decoder message = Raise e -> is_Exception e = false ->
  process_message decoder message W s
  = (Raised e, logging [DebugRawMessage message] s).
Proof.
  intros Hload Hexc.
  unfold process_message, try_except, bind, lift, emit, modify, logging; cbn.
  rewrite Hload. destruct e; try discriminate; reflexivity.
Qed.

(** Either the record is valid and the window takes its temperature, or the
    window stays as it is and no range is reported. *)
Lemma process_message_cases message W s :
  (exists d,
      decoder message = Ok (PDict d)
      /\ None_in (map (field d) required_fields) = false
      /\ process_message decoder message W s
         = (Returned tt,
            State (deque_append (field d "temperature") (rolling_window s))
                  (close_calls s)
                  (log s ++ valid_record_events message W d
                     (deque_append (field d "temperature") (rolling_window s)))))
  \/ (exists o evs,
         process_message decoder message W s = (o, logging evs s)
         /\ reported_ranges evs = []
         /\ (forall e, o = Raised e -> decoder message = Raise e /\ is_Exception e = false)
         /\ o <> Running).
Proof.
  destruct (decoder message) as [data|e] eqn:Hload.
  - destruct data as [ | | | | | |d];
      try (right; do 2 eexists; split;
           [eapply process_message_not_an_object; [exact Hload|reflexivity]
           |repeat split; [congruence|congruence|congruence]]).
    destruct (None_in (map (field d) required_fields)) eqn:Hnone.
    + right. do 2 eexists. split; [by eapply process_message_invalid|].
      repeat split; congruence.
    + left. exists d. repeat split; [done|]. by apply process_message_valid.
  - right. destruct (is_JSONDecodeError e) eqn:Hjson.
    { do 2 eexists. split; [by eapply process_message_undecodable|].
      repeat split; congruence. }
    destruct (is_Exception e) eqn:Hexc.
    { do 2 eexists. split; [by eapply process_message_decoder_error|].
      repeat split; congruence. }
    do 2 eexists. split; [by eapply process_message_escape|].
    split; [reflexivity|]. split; [|congruence]. by intros e' [= <-].
Qed.

(** [process_message] returns, whatever it is given. *)
Lemma process_message_returns message W s :
  raises_Exceptions_only decoder ->
  fst (process_message decoder message W s) = Returned tt.
Proof.
  intros Hdec.
  destruct (process_message_cases message W s)
    as [(d & _ & _ & ->) | (o & evs & -> & _ & Hraised & Hrun)]; [done|].
  cbn. destruct o as [[]|e|]; [done| |done].
  destruct (Hraised e eq_refl) as [Hload Hexc].
  apply Hdec in Hload. congruence.
Qed.

(** It leaves the handle alone and only adds to the log. *)
Lemma process_message_frame message W s :
  let s' := snd (process_message decoder message W s) in
  close_calls s' = close_calls s /\ log s' = log s ++ new_events s s'.
Proof.
  destruct (process_message_cases message W s)
    as [(d & _ & _ & ->) | (o & evs & -> & _)]; cbn.
  - split; [done|]. unfold new_events; cbn. by rewrite drop_app_length.
  - split; [done|]. by rewrite new_events_logging.
Qed.

(** The window stays within its bound. *)
Lemma process_message_within_bound message W s :
  within_bound (rolling_window s) ->
  within_bound (rolling_window (snd (process_message decoder message W s))).
Proof.
  intros Hs.
  destruct (process_message_cases message W s)
    as [(d & _ & _ & ->) | (o & evs & -> & _)]; cbn; [|done].
  by apply within_bound_append.
Qed.

End ConsumerFacts.


(** * Properties of the consumer *)

Section ConsumerClaims.

Import Consumer.

Implicit Types (decoder : string -> result pyval) (s : state) (message : string)
  (W : Z) (d : list (string * pyval)).

Lemma In_reported_ranges w temp_range evs :
  In (DebugTemperatureRange w temp_range) evs -> In temp_range (reported_ranges evs).
Proof.
  intros Hin. apply list_elem_of_In, list_elem_of_omap.
  exists (DebugTemperatureRange w temp_range). split; [by apply list_elem_of_In|done].
Qed.

Lemma In_valid_record_events message W d window w temp_range :
  In (DebugTemperatureRange w temp_range) (valid_record_events message W d window) ->
  w = W /\ deque_len window = W /\ max_minus_min (items window) = Ok temp_range
  /\ py_format temp_range = Ok tt.
Proof.
  unfold valid_record_events. rewrite in_app_iff. intros [Hhead|Hrange].
  - cbn in Hhead. destruct Hhead as [|[|[|[]]]]; discriminate.
  - destruct (deque_len window =? W) eqn:Hfull; [|destruct Hrange].
    apply Z.eqb_eq in Hfull.
    destruct (logged_range (items window)) as [r|e] eqn:Hlogged; cbn in Hrange;
      destruct Hrange as [[=]|[]]. subst.
    apply logged_range_Ok in Hlogged as [Hrange Hformat]. by repeat split.
Qed.

Lemma reported_ranges_valid_record message W d window temp_range :
  deque_len window = W -> logged_range (items window) = Ok temp_range ->
  reported_ranges (valid_record_events message W d window) = [temp_range].
Proof.
  intros Hfull Hrange. unfold valid_record_events.
  apply Z.eqb_eq in Hfull. rewrite Hfull, Hrange. reflexivity.
Qed.

(** A full window whose range cannot be computed or formatted: the error is
    logged and no range is. *)
Lemma reported_ranges_failed_record message W d window e :
  deque_len window = W -> logged_range (items window) = Raise e ->
  valid_record_events message W d window
  = [DebugRawMessage message; InfoProcessedJSON (PDict d);
     InfoWeatherData (field d "timestamp") (field d "temperature")
                     (field d "humidity") (field d "pressure");
     ErrorProcessing message e]
  /\ reported_ranges (valid_record_events message W d window) = [].
Proof.
  intros Hfull Hrange. unfold valid_record_events.
  apply Z.eqb_eq in Hfull. rewrite Hfull, Hrange. by split.
Qed.

(** C1. A range is reported only by a record that leaves the window with
    exactly [W] items, and it is [max(window) - min(window)]; a valid record
    that fills the window has that range computed, and reported whenever
    its log record can be formatted: every [float], and every [int] of at
    most 4300 digits; for a longer [int] the f-string raises [ValueError],
    which is logged in place of the range. With [W = 5] the readings
    20, 21, 19, 22 report nothing, the fifth reading 23 reports 4, and the
    sixth reading 18 evicts 20, leaves [21, 19, 22, 23, 18] and reports 5.
    With [W = 3] the window [2.0, 5.0, 3.0] has range 3.0. *)
Theorem range_reported_when_window_full :
  (forall decoder message W s w temp_range,
      let s' := snd (process_message decoder message W s) in
      In (DebugTemperatureRange w temp_range) (new_events s s') ->
      w = W /\ deque_len (rolling_window s') = W
      /\ max_minus_min (items (rolling_window s')) = Ok temp_range)
  /\ (forall decoder message W s d temp_range,
      let s' := snd (process_message decoder message W s) in
      decoder message = Ok (PDict d) ->
      None_in (map (field d) required_fields) = false ->
      deque_len (deque_append (field d "temperature") (rolling_window s)) = W ->
      max_minus_min (items (deque_append (field d "temperature") (rolling_window s)))
      = Ok temp_range ->
      rolling_window s' = deque_append (field d "temperature") (rolling_window s)
      /\ ((exists z, temp_range = PInt z) \/ (exists f, temp_range = PFloat f))
      /\ ((forall z, temp_range = PInt z -> Z.abs z < 10 ^ 4300) ->
          reported_ranges (new_events s s') = [temp_range])
      /\ (forall z, temp_range = PInt z -> 10 ^ 4300 <= Z.abs z ->
          reported_ranges (new_events s s') = []
          /\ last (new_events s s') = Some (ErrorProcessing message ValueError)))
  /\ (let s4 := after_records json_loads (map reading ["20"; "21"; "19"; "22"]) 5
                  (empty_window 5) in
      let s5 := snd (process_message json_loads (reading "23") 5 s4) in
      let s6 := snd (process_message json_loads (reading "18") 5 s5) in
      reported_ranges (log s4) = []
      /\ items (rolling_window s5) = map PInt [20; 21; 19; 22; 23]
      /\ reported_ranges (new_events s4 s5) = [PInt 4]
      /\ items (rolling_window s6) = map PInt [21; 19; 22; 23; 18]
      /\ reported_ranges (new_events s5 s6) = [PInt 5])
  /\ (let s2 := after_records json_loads (map reading ["2.0"; "5.0"]) 3
                  (empty_window 3) in
      let s3 := snd (process_message json_loads (reading "3.0") 3 s2) in
      items (rolling_window s3) = map (fun z => PFloat (float_of_Z z)) [2; 5; 3]
      /\ reported_ranges (new_events s2 s3) = [PFloat (float_of_Z 3)]).
Proof.
  split; [|split; [|split]].
  - intros decoder message W s w temp_range s' Hin. subst s'.
    destruct (process_message_cases decoder message W s)
      as [(d & _ & _ & Hrun) | (o & evs & Hrun & Hnone & _)];
      rewrite Hrun in *; cbn in *.
    + unfold new_events in Hin; cbn in Hin. rewrite drop_app_length in Hin.
      apply In_valid_record_events in Hin. tauto.
    + rewrite new_events_logging in Hin. apply In_reported_ranges in Hin.
      rewrite Hnone in Hin. destruct Hin.
  - intros decoder message W s d temp_range s' Hload Hnone Hfull Hrange. subst s'.
    rewrite (process_message_valid decoder message W s d Hload Hnone).
    cbn [snd rolling_window].
    split; [done|]. split; [by eapply max_minus_min_number|].
    unfold new_events; cbn [log]. rewrite drop_app_length.
    set (window := deque_append (field d "temperature") (rolling_window s)) in *.
    split.
    + intros Hshort. apply reported_ranges_valid_record; [done|].
      apply logged_range_Ok. split; [done|].
      destruct (max_minus_min_number _ _ Hrange) as [[z ->]|[f ->]]; [|reflexivity].
      rewrite py_format_int. specialize (Hshort z eq_refl).
      by destruct (Z.leb_spec (10 ^ 4300) (Z.abs z)); [exfalso; apply (Z.lt_irrefl (Z.abs z)); eapply Z.lt_le_trans|].
    + intros z -> Hlong.
      assert (Hlogged : logged_range (items window) = Raise ValueError).
      { unfold logged_range. rewrite Hrange, py_format_int.
        by destruct (Z.leb_spec (10 ^ 4300) (Z.abs z));
          [|exfalso; apply (Z.lt_irrefl (Z.abs z)); eapply Z.lt_le_trans]. }
      destruct (reported_ranges_failed_record message W d window ValueError
                  Hfull Hlogged) as [Hevents Hnone'].
      split; [exact Hnone'|]. rewrite Hevents. reflexivity.
  - vm_compute. repeat split.
  - vm_compute. repeat split.
Qed.

(** The fifth reading of the scenario, checked through the general part. *)
Lemma range_reported_when_window_full_witness :
  let s4 := after_records json_loads (map reading ["20"; "21"; "19"; "22"]) 5
              (empty_window 5) in
  let s5 := snd (process_message json_loads (reading "23") 5 s4) in
  deque_len (rolling_window s5) = 5
  /\ max_minus_min (items (rolling_window s5)) = Ok (PInt 4).
Proof.
  intros s4 s5.
  apply (proj1 range_reported_when_window_full json_loads (reading "23") 5 s4 5 (PInt 4)).
  vm_compute. auto 10.
Defined.

(** C2. With capacity [W >= 1], after more than [W] values have been pushed
    the window holds exactly the last [W] of them, in arrival order. *)
Theorem fifo_eviction W values window :
  deque_new W = Ok window -> 1 <= W -> W < Z.of_nat (length values) ->
  items (push_all values window) = drop (length values - Z.to_nat W) values
  /\ deque_len (push_all values window) = W.
Proof.
  intros Hnew HW Hmore. apply deque_new_spec in Hnew as [-> _].
  assert (Hitems : items (push_all values (Deque (Some W) []))
                   = drop (length values - Z.to_nat W) values).
  { rewrite (items_push_all W); [done|done|]. unfold within_bound, deque_len; cbn. lia. }
  split; [done|]. unfold deque_len. rewrite Hitems, length_drop. lia.
Qed.

Lemma fifo_eviction_witness :
  items (push_all (map PInt [1; 2; 3; 4; 5]) (Deque (Some 2) [])) = map PInt [4; 5]
  /\ deque_len (push_all (map PInt [1; 2; 3; 4; 5]) (Deque (Some 2) [])) = 2.
Proof.
  apply (fifo_eviction 2 (map PInt [1; 2; 3; 4; 5]) (Deque (Some 2) []));
    [reflexivity | lia | cbn; lia].
Defined.

End ConsumerClaims.


Section WindowBound.

Implicit Types (W : Z) (values : list pyval) (window : deque).

(** The window after [W + 1] pushes is the 2nd to the last pushed value. *)
Lemma items_after_one_more W first rest window :
  deque_new W = Ok window -> Z.of_nat (length (first :: rest)) = W + 1 ->
  items (push_all (first :: rest) window) = rest.
Proof.
  intros Hnew Hlen. apply deque_new_spec in Hnew as [-> HW].
  rewrite (items_push_all W); [|done|unfold within_bound, deque_len; cbn; lia].
  cbn [items app]. cbn [length] in *.
  replace (S (length rest) - Z.to_nat W)%nat with 1%nat by lia. reflexivity.
Qed.

(** C3, as stated, fails: with [W = 1] the pushes 7, 7 leave [7] in the
    window, the value that was pushed first. *)
Lemma first_value_can_remain :
  ~ (forall W first rest window,
        deque_new W = Ok window -> Z.of_nat (length (first :: rest)) = W + 1 ->
        ~ In first (items (push_all (first :: rest) window))).
Proof.
  intros Hclaim.
  apply (Hclaim 1 (PInt 7) [PInt 7] (Deque (Some 1) [])); [reflexivity|reflexivity|].
  cbn. by left.
Qed.

(** C3, amended. The window never holds more than [W] items; after the
    [(W+1)]-th push it holds exactly the 2nd to [(W+1)]-th pushed values, so
    the first pushed item is gone, and so is its value unless a later push
    repeated it. *)
Theorem window_bound W values window :
  deque_new W = Ok window ->
  (forall n, deque_len (push_all (take n values) window) <= W)
  /\ (forall first rest,
        values = first :: rest -> Z.of_nat (length values) = W + 1 ->
        items (push_all values window) = rest
        /\ (~ In first rest -> ~ In first (items (push_all values window)))).
Proof.
  intros Hnew. split.
  - intros n. pose proof Hnew as Hd. apply deque_new_spec in Hd as [-> HW].
    pose proof (within_bound_push_all (take n values) (Deque (Some W) [])) as Hb.
    unfold within_bound in Hb. rewrite maxlen_push_all in Hb. cbn in Hb.
    apply Hb. unfold deque_len; cbn. lia.
  - intros first rest -> Hlen.
    rewrite (items_after_one_more W first rest window Hnew Hlen). by split.
Qed.

Lemma window_bound_witness :
  (forall n, deque_len (push_all (take n (map PInt [1; 2; 3])) (Deque (Some 2) [])) <= 2)
  /\ (forall first rest,
        map PInt [1; 2; 3] = first :: rest ->
        Z.of_nat (length (map PInt [1; 2; 3])) = 2 + 1 ->
        items (push_all (map PInt [1; 2; 3]) (Deque (Some 2) [])) = rest
        /\ (~ In first rest ->
            ~ In first (items (push_all (map PInt [1; 2; 3]) (Deque (Some 2) []))))).
Proof.
  apply (window_bound 2 (map PInt [1; 2; 3]) (Deque (Some 2) [])). reflexivity.
Defined.

End WindowBound.

Section Rejections.

Import Consumer.

Implicit Types (decoder : string -> result pyval) (s : state) (message : string)
  (W : Z) (d : list (string * pyval)).

Lemma missing_field_is_None d key :
  In key required_fields -> dict_lookup key d = None ->
  None_in (map (field d) required_fields) = true.
Proof.
  intros Hkey Hmissing. unfold None_in. apply existsb_exists.
  exists (field d key). split; [by apply in_map|].
  unfold field. by rewrite Hmissing.
Qed.

Lemma for_message_in_step decoder message offset rest W s evs :
  process_message decoder message W (logging [DebugReceived offset message] s)
  = (Returned tt, logging evs (logging [DebugReceived offset message] s)) ->
  for_message_in decoder (Message message offset :: rest) W s
  = for_message_in decoder rest W (logging (DebugReceived offset message :: evs) s).
Proof.
  intros Hstep. cbn [for_message_in]. unfold bind at 1 2.
  unfold emit at 1, modify. fold (logging [DebugReceived offset message] s).
  rewrite Hstep, logging_logging. reflexivity.
Qed.

(** C4. A payload that decodes to an object lacking a required field is
    reported as an invalid message and dropped: [process_message] returns,
    the window is as before, and the loop goes on with the next message. *)
Theorem missing_field_rejected decoder message W s d key :
  decoder message = Ok (PDict d) -> In key required_fields ->
  dict_lookup key d = None ->
  process_message decoder message W s
  = (Returned tt,
     logging [DebugRawMessage message; InfoProcessedJSON (PDict d);
              ErrorInvalidFormat message] s)
  /\ rolling_window (snd (process_message decoder message W s)) = rolling_window s
  /\ forall offset rest,
       for_message_in decoder (Message message offset :: rest) W s
       = for_message_in decoder rest W
           (logging [DebugReceived offset message; DebugRawMessage message;
                     InfoProcessedJSON (PDict d); ErrorInvalidFormat message] s).
Proof.
  intros Hload Hkey Hmissing.
  pose proof (missing_field_is_None d key Hkey Hmissing) as Hnone.
  assert (Hrun : forall s0, process_message decoder message W s0
     = (Returned tt,
        logging [DebugRawMessage message; InfoProcessedJSON (PDict d);
                 ErrorInvalidFormat message] s0))
    by (intros s0; by apply process_message_invalid).
  split; [apply Hrun|]. split; [by rewrite Hrun|].
  intros offset rest. apply for_message_in_step, Hrun.
Qed.

Lemma missing_field_rejected_witness :
  rolling_window (snd (process_message json_loads record_without_temperature 5
                         (empty_window 5)))
  = Deque (Some 5) [].
Proof.
  apply (missing_field_rejected json_loads record_without_temperature 5
           (empty_window 5) object_without_temperature "temperature").
  - vm_compute. reflexivity.
  - cbn. auto.
  - reflexivity.
Defined.

End Rejections.


Section Isolation.

Import Consumer.

Implicit Types (decoder : string -> result pyval) (s : state) (message : string)
  (W : Z) (d : list (string * pyval)) (consumer : list delivery).

Lemma process_message_rejected decoder message W s :
  rejected decoder message ->
  exists evs, process_message decoder message W s = (Returned tt, logging evs s).
Proof.
  intros [(e & Hload & Hjson) | (d & key & Hload & Hkey & Hmissing)].
  - eexists. by apply process_message_undecodable.
  - eexists. apply process_message_invalid; [done|].
    by eapply missing_field_is_None.
Qed.

Lemma for_message_in_rejected decoder consumer W s :
  Forall (delivers_rejected decoder) consumer ->
  exists evs, for_message_in decoder consumer W s = (Returned tt, logging evs s).
Proof.
  intros Hall. revert s.
  induction Hall as [|step consumer Hstep _ IH]; intros s.
  - exists []. unfold logging; cbn. rewrite app_nil_r. by destruct s.
  - destruct step as [message offset|e]; [|destruct Hstep].
    destruct (process_message_rejected decoder message W
                (logging [DebugReceived offset message] s) Hstep) as [evs Hrun].
    rewrite (for_message_in_step _ _ _ _ _ _ _ Hrun).
    destruct (IH (logging (DebugReceived offset message :: evs) s)) as [evs' ->].
    rewrite logging_logging. by eexists.
Qed.

(** C5. A payload the decoder cannot decode leaves the window as it was and
    [process_message] returns; the loop goes on with the next message. A
    stream of nothing but undecodable payloads and objects with a missing
    field is processed to its end, and the window is still as it was. *)
Theorem malformed_payload_isolated decoder W :
  (forall message s e,
      decoder message = Raise e -> is_JSONDecodeError e = true ->
      process_message decoder message W s
      = (Returned tt,
         logging [DebugRawMessage message; ErrorJSONDecoding message e] s)
      /\ rolling_window (snd (process_message decoder message W s)) = rolling_window s
      /\ forall offset rest,
           for_message_in decoder (Message message offset :: rest) W s
           = for_message_in decoder rest W
               (logging [DebugReceived offset message; DebugRawMessage message;
                         ErrorJSONDecoding message e] s))
  /\ (forall consumer s,
        Forall (delivers_rejected decoder) consumer ->
        fst (for_message_in decoder consumer W s) = Returned tt
        /\ rolling_window (snd (for_message_in decoder consumer W s))
           = rolling_window s).
Proof.
  split.
  - intros message s e Hload Hjson.
    assert (Hrun : forall s0, process_message decoder message W s0
       = (Returned tt,
          logging [DebugRawMessage message; ErrorJSONDecoding message e] s0))
      by (intros s0; by apply process_message_undecodable).
    split; [apply Hrun|]. split; [by rewrite Hrun|].
    intros offset rest. apply for_message_in_step, Hrun.
  - intros consumer s Hall.
    destruct (for_message_in_rejected decoder consumer W s Hall) as [evs ->].
    by split.
Qed.

Lemma malformed_payload_isolated_witness :
  rolling_window (snd (process_message json_loads truncated_record 5 (empty_window 5)))
  = Deque (Some 5) [].
Proof.
  apply (proj1 (malformed_payload_isolated json_loads 5) truncated_record
           (empty_window 5) JSONDecodeError).
  - vm_compute. reflexivity.
  - reflexivity.
Defined.

(** C10. Whatever the payload and the window, [process_message] returns and
    no exception leaves it. A record whose fields are all present goes into
    the window whatever the type of its temperature; when the range of the
    full window cannot be computed, the exception is logged and the call
    still returns. *)
Theorem process_message_never_raises decoder message W s :
  raises_Exceptions_only decoder ->
  fst (process_message decoder message W s) = Returned tt
  /\ forall d e,
       decoder message = Ok (PDict d) ->
       None_in (map (field d) required_fields) = false ->
       let window := deque_append (field d "temperature") (rolling_window s) in
       deque_len window = W -> max_minus_min (items window) = Raise e ->
       process_message decoder message W s
       = (Returned tt,
          State window (close_calls s)
            (log s ++ [DebugRawMessage message; InfoProcessedJSON (PDict d);
                       InfoWeatherData (field d "timestamp") (field d "temperature")
                                       (field d "humidity") (field d "pressure");
                       ErrorProcessing message e])).
Proof.
  intros Hdec. split; [by apply process_message_returns|].
  intros d e Hload Hnone window Hfull Hrange.
  rewrite (process_message_valid decoder message W s d Hload Hnone).
  fold window. unfold valid_record_events.
  apply Z.eqb_eq in Hfull.
  by rewrite Hfull, (logged_range_not_computed _ _ Hrange).
Qed.

Lemma process_message_never_raises_witness :
  fst (process_message json_loads record_with_text_temperature 1 (empty_window 1))
  = Returned tt
  /\ process_message json_loads record_with_text_temperature 1 (empty_window 1)
     = (Returned tt,
        State (Deque (Some 1) [PStr "warm"]) 0
          [DebugRawMessage record_with_text_temperature;
           InfoProcessedJSON (PDict object_with_text_temperature);
           InfoWeatherData (PStr "2023-10-01T12:00:00Z") (PStr "warm") (PInt 60)
                           (PFloat (float_of_decimal false 10132 (-1)));
           ErrorProcessing record_with_text_temperature TypeError]).
Proof.
  pose proof (process_message_never_raises json_loads record_with_text_temperature 1
                (empty_window 1) json_loads_raises_Exceptions_only) as [Hret Hlog].
  split; [exact Hret|].
  apply (Hlog object_with_text_temperature TypeError); reflexivity.
Defined.

End Isolation.


(** * The consumer's loop and its handle *)

Section Shutdown.

Import Consumer.

Implicit Types (decoder : string -> result pyval) (s : state) (message : string)
  (W : Z) (consumer : list delivery) (topic : string).

Lemma for_message_in_cons decoder message offset rest W s :
  for_message_in decoder (Message message offset :: rest) W s
  = match process_message decoder message W
            (logging [DebugReceived offset message] s) with
    | (Returned _, s') => for_message_in decoder rest W s'
    | (Raised e, s') => (Raised e, s')
    | (Running, s') => (Running, s')
    end.
Proof. reflexivity. Qed.

(** The loop never touches the handle, and with a finite stream it ends. *)
Lemma for_message_in_frame decoder consumer W s :
  close_calls (snd (for_message_in decoder consumer W s)) = close_calls s
  /\ fst (for_message_in decoder consumer W s) <> Running.
Proof.
  revert s. induction consumer as [|[message offset|e] consumer IH]; intros s.
  - by split.
  - rewrite for_message_in_cons.
    set (s1 := logging [DebugReceived offset message] s).
    destruct (process_message_cases decoder message W s1)
      as [(d & _ & _ & ->) | (o & evs & -> & _ & _ & Hrun)].
    + destruct (IH (State (deque_append (field d "temperature") (rolling_window s1))
                          (close_calls s1)
                          (log s1 ++ valid_record_events message W d
                             (deque_append (field d "temperature") (rolling_window s1)))))
        as [Hc Hr]. split; [by rewrite Hc|exact Hr].
    + destruct o as [[]|e|]; [|by split|done].
      destruct (IH (logging evs s1)) as [Hc Hr]. split; [by rewrite Hc|exact Hr].
  - by split.
Qed.

(** With a decoder that raises [Exception]s only, the loop runs until the
    source stops or raises. *)
Lemma for_message_in_messages decoder consumer W s :
  raises_Exceptions_only decoder -> Forall is_Message consumer ->
  fst (for_message_in decoder consumer W s) = Returned tt.
Proof.
  intros Hdec Hall. revert s.
  induction Hall as [|[message offset|e] consumer Hstep _ IH]; intros s;
    [done| |destruct Hstep].
  rewrite for_message_in_cons.
  pose proof (process_message_returns decoder message W
                (logging [DebugReceived offset message] s) Hdec) as Hret.
  destruct (process_message _ _ _ _) as [o s']. cbn in Hret. subst o. apply IH.
Qed.

Lemma for_message_in_source_raises decoder before e after W s :
  raises_Exceptions_only decoder -> Forall is_Message before ->
  fst (for_message_in decoder (before ++ PollRaises e :: after) W s) = Raised e.
Proof.
  intros Hdec Hall. revert s.
  induction Hall as [|[message offset|e'] before Hstep _ IH]; intros s;
    [done| |destruct Hstep].
  cbn [app]. rewrite for_message_in_cons.
  pose proof (process_message_returns decoder message W
                (logging [DebugReceived offset message] s) Hdec) as Hret.
  destruct (process_message _ _ _ _) as [o s']. cbn in Hret. subst o. apply IH.
Qed.

(** The outcome of the [try] statement, from the outcome of its loop. *)
Lemma poll_and_process_outcome decoder consumer topic W s :
  fst (poll_and_process decoder consumer topic W s)
  = match fst (for_message_in decoder consumer W s) with
    | Raised e =>
        if is_KeyboardInterrupt e || is_Exception e then Returned tt else Raised e
    | o => o
    end
  /\ close_calls (snd (poll_and_process decoder consumer topic W s))
     = S (close_calls s).
Proof.
  destruct (for_message_in_frame decoder consumer W s) as [Hclose Hrun].
  unfold poll_and_process, try_finally, try_except.
  destruct (for_message_in decoder consumer W s) as [[[]|e|] s1]; cbn in *;
    [by rewrite Hclose| |done].
  destruct (is_KeyboardInterrupt e); cbn; [by rewrite Hclose|].
  destruct (is_Exception e); cbn; by rewrite Hclose.
Qed.

(** C6. However the loop of [main] is left, [close] has been called on the
    consumer exactly once. With a decoder that raises [Exception]s only:
    a stream that ends lets the [try] statement return; an interrupt while
    polling lets it return too, nothing is thrown; an [Exception] of the
    source is logged and it returns; any other exception of the source
    propagates, after the one call of [close]. *)
Theorem consumer_closed_exactly_once decoder consumer topic W s :
  close_calls (snd (poll_and_process decoder consumer topic W s)) = S (close_calls s)
  /\ (raises_Exceptions_only decoder ->
      (Forall is_Message consumer ->
       fst (poll_and_process decoder consumer topic W s) = Returned tt)
      /\ (forall before after,
            consumer = before ++ PollRaises KeyboardInterrupt :: after ->
            Forall is_Message before ->
            fst (poll_and_process decoder consumer topic W s) = Returned tt)
      /\ (forall before e after,
            consumer = before ++ PollRaises e :: after ->
            Forall is_Message before ->
            fst (poll_and_process decoder consumer topic W s)
            = if is_KeyboardInterrupt e || is_Exception e then Returned tt
              else Raised e)).
Proof.
  destruct (poll_and_process_outcome decoder consumer topic W s) as [Hout Hclose].
  split; [exact Hclose|]. intros Hdec. repeat split.
  - intros Hall. rewrite Hout. by rewrite for_message_in_messages.
  - intros before after -> Hall. rewrite Hout.
    by rewrite for_message_in_source_raises.
  - intros before e after -> Hall. rewrite Hout.
    by rewrite for_message_in_source_raises.
Qed.

Lemma consumer_closed_exactly_once_witness :
  let consumer := deliveries [reading "20"; truncated_record]
                  ++ PollRaises KeyboardInterrupt :: deliveries [reading "21"] in
  close_calls (snd (poll_and_process json_loads consumer "weather_data_topic" 5
                      (empty_window 5))) = 1%nat
  /\ fst (poll_and_process json_loads consumer "weather_data_topic" 5 (empty_window 5))
     = Returned tt.
Proof.
  intros consumer.
  destruct (consumer_closed_exactly_once json_loads consumer "weather_data_topic" 5
              (empty_window 5)) as [Hclose Hexit].
  split; [exact Hclose|].
  destruct (Hexit json_loads_raises_Exceptions_only) as (_ & Hinterrupt & _).
  apply (Hinterrupt (deliveries [reading "20"; truncated_record])
           (deliveries [reading "21"])); [reflexivity|].
  repeat constructor.
Defined.

(** [main] from start to end: six readings with the default window of 5,
    then the stream ends. *)
Example main_six_readings :
  let consumer := deliveries (map reading ["20"; "21"; "19"; "22"; "23"; "18"]) in
  let run := main json_loads (fun _ _ => Ok consumer) ∅ initial in
  fst run = Returned tt
  /\ items (rolling_window (snd run)) = map PInt [21; 19; 22; 23; 18]
  /\ reported_ranges (log (snd run)) = [PInt 4; PInt 5]
  /\ close_calls (snd run) = 1%nat.
Proof. vm_compute. repeat split. Qed.

(** A window size that is not a number stops [main] before a consumer
    exists. *)
Example main_bad_window_size :
  let run := main json_loads (fun _ _ => Ok [])
               {[ "WEATHER_ROLLING_WINDOW_SIZE" := "five" ]} initial in
  fst run = Raised ValueError /\ close_calls (snd run) = 0%nat.
Proof. vm_compute. repeat split. Qed.

End Shutdown.


(** * The window in the loop *)

Section WindowInTheLoop.

Import Consumer.

Implicit Types (decoder : string -> result pyval) (s : state) (W : Z)
  (consumer : list delivery).

(** Valid records push their temperatures into the window, in the order in
    which they arrive. *)
Lemma window_after_valid_records decoder consumer temperatures W s :
  Forall2 (delivers_valid decoder) consumer temperatures ->
  rolling_window (snd (for_message_in decoder consumer W s))
  = push_all temperatures (rolling_window s).
Proof.
  intros Hall. revert s.
  induction Hall as [|step temperature consumer temperatures Hstep _ IH]; intros s;
    [reflexivity|].
  destruct step as [message offset|e]; [|destruct Hstep].
  destruct Hstep as (d & Hload & Hnone & <-).
  rewrite for_message_in_cons, push_all_cons.
  rewrite (process_message_valid decoder message W _ d Hload Hnone).
  rewrite IH. reflexivity.
Qed.

(** Whatever arrives, the window of the loop stays within its bound. *)
Lemma for_message_in_within_bound decoder consumer W s :
  within_bound (rolling_window s) ->
  within_bound (rolling_window (snd (for_message_in decoder consumer W s))).
Proof.
  revert s. induction consumer as [|[message offset|e] consumer IH]; intros s Hs;
    [done| |done].
  rewrite for_message_in_cons.
  pose proof (process_message_within_bound decoder message W
                (logging [DebugReceived offset message] s) Hs) as Hstep.
  destruct (process_message _ _ _ _) as [[[]|e|] s']; cbn in Hstep; [|done|done].
  by apply IH.
Qed.

End WindowInTheLoop.

(** * The producer *)

Section ProducerFacts.

Import Producer.

Implicit Types (g : generator) (trace : list action) (topic : string) (c : Z).

Lemma next_not_started sleep_ends trace :
  next sleep_ends NotStarted trace
  = (Returned (ride_message 1, AtYield 1),
     trace ++ [Log (DebugGenerated (ride_message 1))]).
Proof. reflexivity. Qed.

Lemma next_resumed sleep_ends c trace :
  sleep_ends (length (filter is_Sleep trace)) = Ok tt ->
  next sleep_ends (AtYield c) trace
  = (Returned (ride_message (c + 1), AtYield (c + 1)),
     trace ++ [Sleep 2; Log (DebugGenerated (ride_message (c + 1)))]).
Proof.
  intros Hsleep. unfold next, time_sleep, run_to_yield, bind, get, emit, perform,
    modify, lift, ret; cbv beta.
  rewrite Hsleep. cbn. by rewrite <- app_assoc.
Qed.

(** A resumed generator whose sleep is interrupted yields nothing. *)
Lemma next_interrupted sleep_ends c trace e :
  sleep_ends (length (filter is_Sleep trace)) = Raise e ->
  next sleep_ends (AtYield c) trace = (Raised e, trace ++ [Sleep 2]).
Proof.
  intros Hsleep. unfold next, time_sleep, run_to_yield, bind, get, emit, perform,
    modify, lift, ret; cbv beta.
  by rewrite Hsleep.
Qed.

Lemma status_alternates c :
  py_get (ride_message (c + 1)) "status" <> py_get (ride_message c) "status"
  /\ py_get (ride_message (c + 1)) "dropoff_location"
     <> py_get (ride_message c) "dropoff_location".
Proof.
  cbn.
  assert (Hpar : (c + 1) mod 2 = 1 - c mod 2).
  { rewrite Z.add_mod by lia. pose proof (Z.mod_pos_bound c 2 ltac:(lia)).
    assert (Hc : c mod 2 = 0 \/ c mod 2 = 1) by lia.
    destruct Hc as [-> | ->]; reflexivity. }
  rewrite Hpar. pose proof (Z.mod_pos_bound c 2 ltac:(lia)).
  assert (Hc : c mod 2 = 0 \/ c mod 2 = 1) by lia.
  destruct Hc as [-> | ->]; cbn; split; discriminate.
Qed.

Lemma loop_body_returns send_ends topic message trace :
  send_ends (length (filter is_Send trace)) = Ok tt ->
  loop_body send_ends topic message trace
  = (Returned tt, trace ++ [Send topic message; Log (InfoSent topic message)]).
Proof.
  intros Hsend. unfold loop_body, producer_send, bind, get, emit, perform, modify,
    lift; cbv beta.
  rewrite Hsend. cbn. by rewrite <- app_assoc.
Qed.

Lemma for_message_dict_in_S sleep_ends send_ends turns g topic trace :
  for_message_dict_in sleep_ends send_ends (S turns) g topic trace
  = match next sleep_ends g trace with
    | (Returned (message_dict, g'), trace') =>
        match loop_body send_ends topic message_dict trace' with
        | (Returned _, trace'') =>
            for_message_dict_in sleep_ends send_ends turns g' topic trace''
        | (Raised e, trace'') => (Raised e, trace'')
        | (Running, trace'') => (Running, trace'')
        end
    | (Raised e, trace') => (Raised e, trace')
    | (Running, trace') => (Running, trace')
    end.
Proof.
  cbn [for_message_dict_in]. unfold bind at 1.
  destruct (next sleep_ends g trace) as [[[message_dict g']|e|] trace']; try reflexivity.
  unfold loop_body, bind.
  destruct (producer_send send_ends topic message_dict trace') as [[[]|e|] t2];
    reflexivity.
Qed.

(** While every call returns, the loop goes on, turn after turn. *)
Lemma for_message_dict_in_running sleep_ends send_ends turns g topic trace :
  (forall k, sleep_ends k = Ok tt) -> (forall k, send_ends k = Ok tt) ->
  for_message_dict_in sleep_ends send_ends turns g topic trace
  = (Running, trace ++ loop_actions turns g topic).
Proof.
  intros Hsleep Hsend. revert g trace.
  induction turns as [|turns IH]; intros g trace.
  - cbn. unfold running. by rewrite app_nil_r.
  - rewrite for_message_dict_in_S. destruct g as [|c].
    + rewrite next_not_started, loop_body_returns by apply Hsend.
      rewrite IH. cbn [loop_actions turn_actions counter].
      f_equal. by rewrite <- !app_assoc.
    + rewrite next_resumed, loop_body_returns by (apply Hsleep || apply Hsend).
      rewrite IH. cbn [loop_actions turn_actions counter].
      f_equal. by rewrite <- !app_assoc.
Qed.

Lemma sent_values_loop turns g topic :
  sent_values (loop_actions turns g topic)
  = map (fun k => ride_message (counter g + Z.of_nat k)) (seq 1 turns).
Proof.
  revert g. induction turns as [|turns IH]; intros g; [reflexivity|].
  cbn [loop_actions]. unfold sent_values in *. rewrite omap_app, IH.
  cbn [seq map]. rewrite <- (seq_shift turns 1), map_map.
  replace (omap _ (turn_actions g topic)) with [ride_message (counter g + 1)]
    by (by destruct g).
  cbn [app counter]. f_equal.
  apply map_ext. intros k. f_equal. lia.
Qed.

Lemma delays_resumed turns c topic :
  delays_from (Some 0) (loop_actions turns (AtYield c) topic) = repeat 2 turns.
Proof.
  revert c. induction turns as [|turns IH]; intros c; [reflexivity|].
  cbn [loop_actions turn_actions counter app delays_from option_map].
  by rewrite IH.
Qed.

Lemma sleeps_loop turns g topic :
  length (filter is_Sleep (loop_actions turns g topic))
  = match g with NotStarted => pred turns | AtYield _ => turns end.
Proof.
  revert g. induction turns as [|turns IH]; intros g; [by destruct g|].
  cbn [loop_actions]. rewrite filter_app, length_app, IH.
  destruct g; reflexivity.
Qed.

Lemma delays_loop turns topic :
  delays (loop_actions turns NotStarted topic) = repeat 2 (pred turns).
Proof.
  destruct turns as [|turns]; [reflexivity|].
  unfold delays. cbn [loop_actions turn_actions counter app delays_from].
  apply delays_resumed.
Qed.

End ProducerFacts.


(** * Properties of the producer *)

Section ProducerClaims.

Import Producer.

Implicit Types (g : generator) (trace : list action) (topic : string) (c : Z)
  (environ : gmap string string).

(** C7. Each call of the generator uses a counter one above that of the call
    before, starting at 1. Whether the counter is even selects the status
    (Completed or In Progress) and the destination (Airport or Hotel), which
    therefore alternate from one call to the next, and the duration is ten
    times the counter. The [k]-th value the loop sends is the record of
    counter [k]. *)
Theorem generator_step sleep_ends g trace :
  (g = NotStarted \/ sleep_ends (length (filter is_Sleep trace)) = Ok tt) ->
  let c := counter g + 1 in
  fst (next sleep_ends g trace) = Returned (ride_message c, AtYield c)
  /\ counter (AtYield c) = counter g + 1
  /\ py_get (ride_message c) "ride_id" = Ok (PStr (py_str_int c))
  /\ py_get (ride_message c) "status"
     = Ok (PStr (if c mod 2 =? 0 then "Completed" else "In Progress"))
  /\ py_get (ride_message c) "dropoff_location"
     = Ok (PStr (if c mod 2 =? 0 then "Airport" else "Hotel"))
  /\ py_get (ride_message c) "duration" = Ok (PInt (c * 10))
  /\ py_get (ride_message (c + 1)) "status" <> py_get (ride_message c) "status"
  /\ py_get (ride_message (c + 1)) "dropoff_location"
     <> py_get (ride_message c) "dropoff_location"
  /\ forall send_ends turns topic,
       (forall k, sleep_ends k = Ok tt) -> (forall k, send_ends k = Ok tt) ->
       sent_values (snd (for_message_dict_in sleep_ends send_ends turns
                           generate_messages topic []))
       = map (fun k => ride_message (Z.of_nat k)) (seq 1 turns).
Proof.
  intros Hcall c. subst c.
  split.
  { destruct g as [|c]; [by rewrite next_not_started|].
    destruct Hcall as [|Hsleep]; [discriminate|]. by rewrite next_resumed. }
  split; [reflexivity|]. split; [reflexivity|]. split; [reflexivity|].
  split; [reflexivity|]. split; [reflexivity|].
  destruct (status_alternates (counter g + 1)) as [Hstatus Hdest].
  split; [exact Hstatus|]. split; [exact Hdest|].
  intros send_ends turns topic Hsleeps Hsends.
  rewrite for_message_dict_in_running by done. cbn [snd app].
  rewrite sent_values_loop. apply map_ext. intros k. reflexivity.
Qed.

Lemma generator_step_witness :
  fst (next (fun _ => Ok tt) (AtYield 1) [Log (DebugGenerated (ride_message 1))])
  = Returned (ride_message 2, AtYield 2)
  /\ py_get (ride_message 2) "status" = Ok (PStr "Completed")
  /\ py_get (ride_message 2) "dropoff_location" = Ok (PStr "Airport")
  /\ py_get (ride_message 2) "duration" = Ok (PInt 20).
Proof.
  destruct (generator_step (fun _ => Ok tt) (AtYield 1)
              [Log (DebugGenerated (ride_message 1))] (or_intror eq_refl))
    as (Hnext & _ & _ & Hstatus & Hdest & Hduration & _).
  split; [exact Hnext|]. split; [exact Hstatus|].
  split; [exact Hdest | exact Hduration].
Defined.

Lemma main_producer_missing create_kafka_topic sleep_ends send_ends turns environ
    interval :
  configured_interval environ = Ok interval ->
  main (Ok tt) (Ok None) create_kafka_topic sleep_ends send_ends turns environ []
  = (Raised (SystemExit 3),
     [Log InfoStartProducer; Log (InfoKafkaTopic (configured_topic environ));
      Log (InfoMessageInterval interval); Log ErrorCreateProducer]).
Proof.
  intros Hint. unfold configured_interval in Hint.
  unfold main, get_kafka_topic, get_message_interval, bind, lift, emit, perform,
    modify, ret, raise; cbn.
  rewrite Hint. reflexivity.
Qed.

Lemma main_topic_fails producer create_kafka_topic sleep_ends send_ends turns
    environ interval e :
  configured_interval environ = Ok interval ->
  create_kafka_topic (configured_topic environ) = Raise e -> is_Exception e = true ->
  main (Ok tt) (Ok (Some producer)) create_kafka_topic sleep_ends send_ends turns
    environ []
  = (Raised (SystemExit 1),
     [Log InfoStartProducer; Log (InfoKafkaTopic (configured_topic environ));
      Log (InfoMessageInterval interval);
      Log (ErrorCreateTopic (configured_topic environ) e)]).
Proof.
  intros Hint Htopic Hexc. unfold configured_interval in Hint. unfold configured_topic in Htopic.
  unfold main, get_kafka_topic, get_message_interval, try_except, bind, lift, emit,
    perform, modify, ret, raise; cbn.
  rewrite Hint. cbn. rewrite Htopic, Hexc. reflexivity.
Qed.

Lemma main_running producer create_kafka_topic sleep_ends send_ends turns environ
    interval :
  configured_interval environ = Ok interval ->
  create_kafka_topic (configured_topic environ) = Ok tt ->
  (forall k, sleep_ends k = Ok tt) -> (forall k, send_ends k = Ok tt) ->
  main (Ok tt) (Ok (Some producer)) create_kafka_topic sleep_ends send_ends turns
    environ []
  = (Running,
     startup_actions (configured_topic environ) interval
     ++ loop_actions turns NotStarted (configured_topic environ)).
Proof.
  intros Hint Htopic Hsleeps Hsends.
  unfold configured_interval in Hint. unfold configured_topic in Htopic.
  unfold main, get_kafka_topic, get_message_interval, try_finally, try_except.
  unfold bind, lift, emit, perform, modify, ret, raise; cbn.
  rewrite Hint. cbn. rewrite Htopic. cbn.
  rewrite for_message_dict_in_running by done. reflexivity.
Qed.


(** C8. When no producer can be built the process leaves with status 3;
    when the topic cannot be provided it leaves with status 1; the two
    statuses differ and neither is 0. *)
Theorem startup_failures_exit_codes create_kafka_topic sleep_ends send_ends turns
    environ interval :
  configured_interval environ = Ok interval ->
  exit_status (fst (main (Ok tt) (Ok None) create_kafka_topic sleep_ends send_ends
                      turns environ [])) = Some 3
  /\ (forall producer e,
        create_kafka_topic (configured_topic environ) = Raise e ->
        is_Exception e = true ->
        exit_status (fst (main (Ok tt) (Ok (Some producer)) create_kafka_topic
                            sleep_ends send_ends turns environ [])) = Some 1)
  /\ 3 <> 1 /\ 3 <> 0 /\ 1 <> 0.
Proof.
  intros Hint. split.
  - by erewrite main_producer_missing.
  - split; [|lia]. intros producer e Htopic Hexc. by erewrite main_topic_fails.
Qed.

Lemma startup_failures_exit_codes_witness :
  exit_status (fst (main (Ok tt) (Ok None) (fun _ => Ok tt) (fun _ => Ok tt)
                      (fun _ => Ok tt) 3 ∅ [])) = Some 3
  /\ exit_status (fst (main (Ok tt) (Ok (Some KafkaProducer))
                         (fun _ => Raise (OtherException "NoBrokersAvailable"))
                         (fun _ => Ok tt) (fun _ => Ok tt) 3 ∅ [])) = Some 1.
Proof.
  assert (Hint : configured_interval ∅ = Ok 2) by reflexivity.
  split.
  - exact (proj1 (startup_failures_exit_codes (fun _ => Ok tt) (fun _ => Ok tt)
                    (fun _ => Ok tt) 3 ∅ 2 Hint)).
  - exact (proj1 (proj2 (startup_failures_exit_codes
                           (fun _ => Raise (OtherException "NoBrokersAvailable"))
                           (fun _ => Ok tt) (fun _ => Ok tt) 3 ∅ 2 Hint))
             KafkaProducer (OtherException "NoBrokersAvailable") eq_refl eq_refl).
Defined.

Lemma filter_is_Sleep_next sleep_ends g trace :
  filter is_Sleep (snd (next sleep_ends g trace))
  = filter is_Sleep trace
    ++ match g with NotStarted => [] | AtYield _ => [Sleep 2] end.
Proof.
  destruct g as [|c].
  - rewrite next_not_started. cbn [snd]. by rewrite filter_app.
  - destruct (sleep_ends (length (filter is_Sleep trace))) as [[]|e] eqn:Hsleep.
    + rewrite next_resumed by done. cbn [snd]. by rewrite filter_app.
    + erewrite next_interrupted by done. cbn [snd]. by rewrite filter_app.
Qed.

Lemma filter_is_Sleep_loop_body send_ends topic message trace :
  filter is_Sleep (snd (loop_body send_ends topic message trace))
  = filter is_Sleep trace.
Proof.
  unfold loop_body, producer_send, bind, get, emit, perform, modify, lift; cbv beta.
  destruct (send_ends _) as [[]|e]; cbn [snd];
    rewrite ?filter_app; cbn; by rewrite ?app_nil_r.
Qed.

(** C9, as stated, fails: with the interval set to 5 seconds the second
    record follows the first after 2 seconds; and the generator sleeps
    itself when it is resumed. *)
Lemma configured_interval_ignored :
  ~ (forall environ interval turns,
        configured_interval environ = Ok interval ->
        Forall (eq interval)
          (delays (snd (main (Ok tt) (Ok (Some KafkaProducer)) (fun _ => Ok tt)
                          (fun _ => Ok tt) (fun _ => Ok tt) turns environ []))))
  /\ ~ (forall sleep_ends g trace,
          filter is_Sleep (snd (next sleep_ends g trace)) = filter is_Sleep trace).
Proof.
  split.
  - intros Hclaim.
    specialize (Hclaim {[ "TRANSPORT_INTERVAL_SECONDS" := "5" ]} 5 2%nat eq_refl).
    vm_compute in Hclaim. inversion Hclaim as [|? ? Heq _]. discriminate Heq.
  - intros Hclaim. specialize (Hclaim (fun _ => Ok tt) (AtYield 1) []).
    vm_compute in Hclaim. discriminate Hclaim.
Qed.

(** C9, amended. The interval is read from the environment when the process
    starts, 2 seconds when it is not set. Between two consecutive sends
    there is one sleep, made by the generator itself when it is resumed; the
    rest of the loop of [main] does not sleep. With the interval not set,
    the delay between consecutive sends is the configured interval. *)
Theorem message_interval :
  (forall environ trace,
      environ !! "TRANSPORT_INTERVAL_SECONDS" = None ->
      get_message_interval environ trace
      = (Returned 2, trace ++ [Log (InfoMessageInterval 2)]))
  /\ (forall environ text trace,
        environ !! "TRANSPORT_INTERVAL_SECONDS" = Some text ->
        configured_interval environ = py_int text
        /\ get_message_interval environ trace
           = match py_int text with
             | Ok interval =>
                 (Returned interval, trace ++ [Log (InfoMessageInterval interval)])
             | Raise e => (Raised e, trace)
             end)
  /\ (forall sleep_ends c trace,
        exists seconds,
          filter is_Sleep (snd (next sleep_ends (AtYield c) trace))
          = filter is_Sleep trace ++ [Sleep seconds])
  /\ (forall sleep_ends trace,
        filter is_Sleep (snd (next sleep_ends NotStarted trace))
        = filter is_Sleep trace)
  /\ (forall send_ends topic message trace,
        filter is_Sleep (snd (loop_body send_ends topic message trace))
        = filter is_Sleep trace)
  /\ (forall producer create_kafka_topic sleep_ends send_ends turns environ interval,
        configured_interval environ = Ok interval ->
        create_kafka_topic (configured_topic environ) = Ok tt ->
        (forall k, sleep_ends k = Ok tt) -> (forall k, send_ends k = Ok tt) ->
        let trace := snd (main (Ok tt) (Ok (Some producer)) create_kafka_topic
                            sleep_ends send_ends turns environ []) in
        length (sent_values trace) = turns
        /\ length (filter is_Sleep trace) = pred turns
        /\ length (delays trace) = pred turns
        /\ (environ !! "TRANSPORT_INTERVAL_SECONDS" = None ->
            Forall (eq interval) (delays trace))).
Proof.
  split; [|split; [|split; [|split; [|split]]]].
  - intros environ trace Hunset.
    unfold get_message_interval, os_getenv, bind, lift, emit, perform, modify, ret.
    by rewrite Hunset.
  - intros environ text trace Hset. split.
    + unfold configured_interval, os_getenv. by rewrite Hset.
    + unfold get_message_interval, os_getenv, bind, lift, emit, perform, modify, ret.
      rewrite Hset. by destruct (py_int text).
  - intros sleep_ends c trace. exists 2. apply filter_is_Sleep_next.
  - intros sleep_ends trace. rewrite filter_is_Sleep_next. apply app_nil_r.
  - apply filter_is_Sleep_loop_body.
  - intros producer create_kafka_topic sleep_ends send_ends turns environ interval
      Hint Htopic Hsleeps Hsends trace. subst trace.
    rewrite (main_running producer create_kafka_topic sleep_ends send_ends turns
               environ interval Hint Htopic Hsleeps Hsends).
    cbn [snd].
    assert (Hdelays : delays (startup_actions (configured_topic environ) interval
                              ++ loop_actions turns NotStarted (configured_topic environ))
                      = repeat 2 (pred turns)) by apply delays_loop.
    rewrite Hdelays. split; [|split; [|split]].
    + unfold sent_values. rewrite omap_app.
      fold (sent_values (loop_actions turns NotStarted (configured_topic environ))).
      rewrite sent_values_loop. cbn. by rewrite length_map, length_seq.
    + rewrite filter_app, length_app, sleeps_loop. reflexivity.
    + apply repeat_length.
    + intros Hunset.
      assert (interval = 2) as ->.
      { unfold configured_interval, os_getenv in Hint. rewrite Hunset in Hint.
        congruence. }
      apply Forall_forall. intros x Hx.
      apply list_elem_of_In, repeat_spec in Hx. by subst.
Qed.

Lemma message_interval_witness :
  let trace := snd (main (Ok tt) (Ok (Some KafkaProducer)) (fun _ => Ok tt)
                      (fun _ => Ok tt) (fun _ => Ok tt) 4 ∅ []) in
  length (sent_values trace) = 4%nat
  /\ length (filter is_Sleep trace) = 3%nat
  /\ length (delays trace) = 3%nat
  /\ Forall (eq 2) (delays trace).
Proof.
  intros trace.
  assert (Hint : configured_interval ∅ = Ok 2) by reflexivity.
  destruct (proj2 (proj2 (proj2 (proj2 (proj2 message_interval))))
              KafkaProducer (fun _ => Ok tt) (fun _ => Ok tt) (fun _ => Ok tt) 4%nat ∅ 2
              Hint eq_refl (fun _ => eq_refl) (fun _ => eq_refl))
    as (Hsent & Hsleeps & Hdelays & Hequal).
  split; [exact Hsent|]. split; [exact Hsleeps|]. split; [exact Hdelays|].
  apply Hequal. reflexivity.
Defined.

(** [main] interrupted during its third send: the producer is closed and
    [main] returns. *)
Example main_interrupted :
  let run := main (Ok tt) (Ok (Some KafkaProducer)) (fun _ => Ok tt) (fun _ => Ok tt)
               (fun k => if (k =? 2)%nat then Raise KeyboardInterrupt else Ok tt)
               5 ∅ [] in
  fst run = Returned tt
  /\ exit_status (fst run) = Some 0
  /\ length (sent_values (snd run)) = 3%nat
  /\ length (filter is_Close (snd run)) = 1%nat.
Proof. vm_compute. repeat split. Qed.

End ProducerClaims.

(** * Further properties of [process_message] *)

Section MoreOnProcessMessage.

Import Consumer.

Implicit Types (decoder : string -> result pyval) (s : state) (message : string)
  (W : Z) (d : list (string * pyval)).

(** X1. A required field that is present with the value [None] (a JSON
    [null]) is treated like a missing one: the record is reported as an
    invalid message and the window is as before. *)
Theorem null_field_rejected decoder message W s d key :
  decoder message = Ok (PDict d) -> In key required_fields ->
  dict_lookup key d = Some PNone ->
  process_message decoder message W s
  = (Returned tt,
     logging [DebugRawMessage message; InfoProcessedJSON (PDict d);
              ErrorInvalidFormat message] s)
  /\ rolling_window (snd (process_message decoder message W s)) = rolling_window s.
Proof.
  intros Hload Hkey Hnull.
  assert (Hnone : None_in (map (field d) required_fields) = true).
  { unfold None_in. apply existsb_exists. exists (field d key).
    split; [by apply in_map|]. unfold field. by rewrite Hnull. }
  rewrite (process_message_invalid decoder message W s d Hload Hnone). by split.
Qed.

Lemma null_field_rejected_witness :
  rolling_window (snd (process_message json_loads record_with_null_temperature 5
                         (empty_window 5)))
  = Deque (Some 5) [].
Proof.
  apply (null_field_rejected json_loads record_with_null_temperature 5
           (empty_window 5) object_with_null_temperature "temperature").
  - vm_compute. reflexivity.
  - cbn. auto.
  - reflexivity.
Defined.

(** X2. A payload that decodes to something other than an object (a list, a
    number, a string, [null]) makes [data.get] raise [AttributeError]; the
    second [except] clause logs it, the window is as before and the call
    returns. *)
Theorem non_object_payload_logged decoder message W s data :
  decoder message = Ok data -> (forall d, data <> PDict d) ->
  process_message decoder message W s
  = (Returned tt,
     logging [DebugRawMessage message; ErrorProcessing message AttributeError] s)
  /\ rolling_window (snd (process_message decoder message W s)) = rolling_window s.
Proof.
  intros Hload Hnot.
  rewrite (process_message_not_an_object decoder message W s data Hload
             (py_get_not_dict data "timestamp" Hnot)).
  by split.
Qed.

Lemma non_object_payload_logged_witness :
  process_message json_loads "[20, 21]" 5 (empty_window 5)
  = (Returned tt,
     logging [DebugRawMessage "[20, 21]"; ErrorProcessing "[20, 21]" AttributeError]
       (empty_window 5)).
Proof.
  apply (non_object_payload_logged json_loads "[20, 21]" 5 (empty_window 5)
           (PList [PInt 20; PInt 21])).
  - vm_compute. reflexivity.
  - intros d. discriminate.
Defined.

(** The window after [process_message], for any decoder. *)
Lemma process_message_window decoder message W s :
  rolling_window (snd (process_message decoder message W s))
  = match accepted_temperature decoder message with
    | Some temperature => deque_append temperature (rolling_window s)
    | None => rolling_window s
    end.
Proof.
  unfold accepted_temperature.
  destruct (decoder message) as [data|e] eqn:Hload.
  - destruct data as [ | | | | | |d];
      try (by erewrite process_message_not_an_object).
    destruct (None_in (map (field d) required_fields)) eqn:Hnone.
    + by erewrite process_message_invalid.
    + by erewrite process_message_valid.
  - destruct (is_JSONDecodeError e) eqn:Hjson;
      [by erewrite process_message_undecodable|].
    destruct (is_Exception e) eqn:Hexc;
      [by erewrite process_message_decoder_error|].
    by erewrite process_message_escape.
Qed.

End MoreOnProcessMessage.

(** * The range of a window *)

Section Ranges.

Import Consumer.

Implicit Types (decoder : string -> result pyval) (s : state) (message : string)
  (W : Z) (d : list (string * pyval)).

Lemma extremum_max_ints best zs :
  extremum py_gt (PInt best) (map PInt zs) = Ok (PInt (foldl Z.max best zs)).
Proof.
  revert best. induction zs as [|z zs IH]; intros best; [reflexivity|].
  cbn [map extremum foldl]. unfold py_gt at 1. cbn [py_order as_number number_compare
    result_bind comparison_is].
  destruct (Z.compare_spec z best).
  - replace (Z.max best z) with best by lia. apply IH.
  - replace (Z.max best z) with best by lia. apply IH.
  - replace (Z.max best z) with z by lia. apply IH.
Qed.

Lemma extremum_min_ints best zs :
  extremum py_lt (PInt best) (map PInt zs) = Ok (PInt (foldl Z.min best zs)).
Proof.
  revert best. induction zs as [|z zs IH]; intros best; [reflexivity|].
  cbn [map extremum foldl]. unfold py_lt at 1. cbn [py_order as_number number_compare
    result_bind comparison_is].
  destruct (Z.compare_spec z best).
  - replace (Z.min best z) with best by lia. apply IH.
  - replace (Z.min best z) with z by lia. apply IH.
  - replace (Z.min best z) with best by lia. apply IH.
Qed.

Lemma foldl_max_spec best zs :
  In (foldl Z.max best zs) (best :: zs)
  /\ forall x, In x (best :: zs) -> x <= foldl Z.max best zs.
Proof.
  revert best. induction zs as [|z zs IH]; intros best.
  - cbn. split; [by left|]. intros x [->|[]]. lia.
  - cbn [foldl]. destruct (IH (Z.max best z)) as [Hin Hle]. split.
    + destruct Hin as [Heq|Hin]; [|right; by right].
      rewrite <- Heq. destruct (Z.max_spec best z) as [[_ ->]|[_ ->]];
        [right; by left | by left].
    + intros x [->|[->|Hx]].
      * specialize (Hle (Z.max x z) (or_introl eq_refl)). lia.
      * specialize (Hle (Z.max best x) (or_introl eq_refl)). lia.
      * apply Hle. by right.
Qed.

Lemma foldl_min_spec best zs :
  In (foldl Z.min best zs) (best :: zs)
  /\ forall x, In x (best :: zs) -> foldl Z.min best zs <= x.
Proof.
  revert best. induction zs as [|z zs IH]; intros best.
  - cbn. split; [by left|]. intros x [->|[]]. lia.
  - cbn [foldl]. destruct (IH (Z.min best z)) as [Hin Hle]. split.
    + destruct Hin as [Heq|Hin]; [|right; by right].
      rewrite <- Heq. destruct (Z.min_spec best z) as [[_ ->]|[_ ->]];
        [by left | right; by left].
    + intros x [->|[->|Hx]].
      * specialize (Hle (Z.min x z) (or_introl eq_refl)). lia.
      * specialize (Hle (Z.min best x) (or_introl eq_refl)). lia.
      * apply Hle. by right.
Qed.

(** X3. For a window of integer readings [max(window) - min(window)] is an
    integer: the difference between a largest and a smallest reading of the
    window, hence never negative. *)
Theorem integer_range z zs :
  exists lowest highest,
    max_minus_min (map PInt (z :: zs)) = Ok (PInt (highest - lowest))
    /\ In lowest (z :: zs) /\ In highest (z :: zs)
    /\ (forall x, In x (z :: zs) -> lowest <= x <= highest)
    /\ 0 <= highest - lowest.
Proof.
  exists (foldl Z.min z zs), (foldl Z.max z zs).
  destruct (foldl_max_spec z zs) as [Hmax_in Hmax].
  destruct (foldl_min_spec z zs) as [Hmin_in Hmin].
  split.
  { unfold max_minus_min. cbn [map py_max py_min].
    rewrite extremum_max_ints, extremum_min_ints. reflexivity. }
  split; [exact Hmin_in|]. split; [exact Hmax_in|]. split.
  - intros x Hx. split; [by apply Hmin | by apply Hmax].
  - specialize (Hmin z (or_introl eq_refl)). specialize (Hmax z (or_introl eq_refl)).
    lia.
Qed.

Lemma py_order_same_kind want a b c :
  py_order want a b = Ok c -> is_number a = is_number b.
Proof. destruct a, b; cbn; intros H; try reflexivity; discriminate H. Qed.

Lemma extremum_same_kind want best rest r :
  extremum (py_order want) best rest = Ok r ->
  is_number r = is_number best
  /\ forall x, In x rest -> is_number x = is_number best.
Proof.
  revert best. induction rest as [|item rest IH]; intros best; cbn.
  - intros [= <-]. by split.
  - destruct (py_order want item best) as [b|e] eqn:Hcmp; cbn; [|discriminate].
    apply py_order_same_kind in Hcmp. intros Hrest.
    apply IH in Hrest as [Hr Hall].
    assert (Hkind : is_number (if b then item else best) = is_number best)
      by (by destruct b).
    rewrite Hkind in *. split; [exact Hr|].
    intros x [<-|Hx]; [exact Hcmp | by apply Hall].
Qed.

Lemma extremum_of_non_number want first rest x r :
  In x (first :: rest) -> is_number x = false ->
  extremum (py_order want) first rest = Ok r -> is_number r = false.
Proof.
  intros Hx Hnot Hext. apply extremum_same_kind in Hext as [Hr Hall].
  rewrite Hr. destruct Hx as [->|Hx]; [exact Hnot|].
  rewrite <- (Hall x Hx). exact Hnot.
Qed.

Lemma max_minus_min_non_number l x :
  In x l -> is_number x = false -> max_minus_min l = Raise TypeError.
Proof.
  intros Hx Hnot. destruct l as [|first rest]; [destruct Hx|].
  unfold max_minus_min. cbn [py_max py_min].
  destruct (extremum py_gt first rest) as [hi|e] eqn:Hmax; cbn.
  - destruct (extremum py_lt first rest) as [lo|e] eqn:Hmin; cbn.
    + pose proof (extremum_of_non_number Gt first rest x hi Hx Hnot Hmax) as Hhi.
      unfold py_sub. unfold is_number in Hhi.
      by destruct (as_number hi).
    + by rewrite (extremum_raises Lt first rest e Hmin).
  - by rewrite (extremum_raises Gt first rest e Hmax).
Qed.

(** X4. A window that holds a value that is not a number (a string, a list,
    an object) has no range: [max(window) - min(window)] raises [TypeError].
    A valid record that fills such a window is appended, the error is logged
    and no range is reported. *)
Theorem non_number_blocks_range :
  (forall l x, In x l -> is_number x = false -> max_minus_min l = Raise TypeError)
  /\ (forall decoder message W s d x,
        decoder message = Ok (PDict d) ->
        None_in (map (field d) required_fields) = false ->
        let window := deque_append (field d "temperature") (rolling_window s) in
        deque_len window = W -> In x (items window) -> is_number x = false ->
        process_message decoder message W s
        = (Returned tt,
           State window (close_calls s)
             (log s ++ [DebugRawMessage message; InfoProcessedJSON (PDict d);
                        InfoWeatherData (field d "timestamp") (field d "temperature")
                                        (field d "humidity") (field d "pressure");
                        ErrorProcessing message TypeError]))).
Proof.
  split; [apply max_minus_min_non_number|].
  intros decoder message W s d x Hload Hnone window Hfull Hx Hnot.
  rewrite (process_message_valid decoder message W s d Hload Hnone).
  fold window. unfold valid_record_events.
  apply Z.eqb_eq in Hfull.
  by rewrite Hfull, (logged_range_not_computed _ _
                       (max_minus_min_non_number (items window) x Hx Hnot)).
Qed.

Lemma non_number_blocks_range_witness :
  max_minus_min [PInt 20; PStr "warm"; PInt 21] = Raise TypeError.
Proof.
  apply (proj1 non_number_blocks_range [PInt 20; PStr "warm"; PInt 21] (PStr "warm")).
  - cbn. auto.
  - reflexivity.
Defined.

(** X5. With a window of size 0 nothing is ever kept: the deque drops each
    temperature at once, [max] of the empty window raises [ValueError], and
    every valid record ends in an error record instead of a range. *)
Theorem zero_window_size decoder message s d :
  decoder message = Ok (PDict d) ->
  None_in (map (field d) required_fields) = false ->
  rolling_window s = Deque (Some 0) [] ->
  process_message decoder message 0 s
  = (Returned tt,
     State (Deque (Some 0) []) (close_calls s)
       (log s ++ [DebugRawMessage message; InfoProcessedJSON (PDict d);
                  InfoWeatherData (field d "timestamp") (field d "temperature")
                                  (field d "humidity") (field d "pressure");
                  ErrorProcessing message ValueError])).
Proof.
  intros Hload Hnone Hwindow.
  rewrite (process_message_valid decoder message 0 s d Hload Hnone).
  rewrite Hwindow. reflexivity.
Qed.

Lemma zero_window_size_witness :
  rolling_window (snd (process_message json_loads (reading "20") 0 (empty_window 0)))
  = Deque (Some 0) []
  /\ reported_ranges (log (snd (process_message json_loads (reading "20") 0
                                  (empty_window 0)))) = [].
Proof.
  assert (Hload : json_loads (reading "20")
                  = Ok (PDict [("timestamp", PStr "2023-10-01T12:00:00Z");
                               ("temperature", PInt 20); ("humidity", PInt 60);
                               ("pressure", PFloat (float_of_decimal false 10132 (-1)))]))
    by (vm_compute; reflexivity).
  rewrite (zero_window_size json_loads (reading "20") (empty_window 0) _ Hload
             eq_refl eq_refl).
  split; reflexivity.
Defined.

End Ranges.

(** * The window over a whole stream *)

Section Streams.

Import Consumer.

Implicit Types (decoder : string -> result pyval) (s : state) (message : string)
  (W : Z) (consumer : list delivery).

Lemma window_of_stream decoder consumer W s :
  raises_Exceptions_only decoder ->
  rolling_window (snd (for_message_in decoder consumer W s))
  = push_all (omap (accepted_temperature decoder) (polled consumer)) (rolling_window s).
Proof.
  intros Hdec. revert s.
  induction consumer as [|[message offset|e] consumer IH]; intros s; [done| |done].
  rewrite for_message_in_cons. cbn [polled].
  pose proof (process_message_window decoder message W
                (logging [DebugReceived offset message] s)) as Hwindow.
  pose proof (process_message_returns decoder message W
                (logging [DebugReceived offset message] s) Hdec) as Hret.
  destruct (process_message _ _ _ _) as [o s']. cbn in Hret, Hwindow. subst o.
  rewrite IH, Hwindow.
  change (omap (accepted_temperature decoder) (message :: polled consumer))
    with (match accepted_temperature decoder message with
          | Some t => t :: omap (accepted_temperature decoder) (polled consumer)
          | None => omap (accepted_temperature decoder) (polled consumer)
          end).
  by destruct (accepted_temperature decoder message).
Qed.

(** X6. Whatever the source delivers, rejected payloads leave no trace in
    the window: after the loop it holds the temperatures of the accepted
    records among the payloads received, pushed in arrival order. For a
    window created empty with bound [W] these are the last [W] accepted
    temperatures. *)
Theorem window_holds_accepted_temperatures decoder consumer W s :
  raises_Exceptions_only decoder ->
  let accepted := omap (accepted_temperature decoder) (polled consumer) in
  let s' := snd (for_message_in decoder consumer W s) in
  rolling_window s' = push_all accepted (rolling_window s)
  /\ (forall n, rolling_window s = Deque (Some n) [] -> 0 <= n ->
      items (rolling_window s') = drop (length accepted - Z.to_nat n) accepted).
Proof.
  intros Hdec accepted s'. subst accepted s'. split.
  - by apply window_of_stream.
  - intros n Hwindow Hn. rewrite window_of_stream by done. rewrite Hwindow.
    rewrite (items_push_all n); [done|done|].
    unfold within_bound, deque_len; cbn. lia.
Qed.

Lemma window_holds_accepted_temperatures_witness :
  let consumer :=
    deliveries [reading "20"; truncated_record; reading "21";
                record_without_temperature; reading "19"] in
  items (rolling_window (snd (for_message_in json_loads consumer 2 (empty_window 2))))
  = [PInt 21; PInt 19].
Proof.
  intros consumer.
  destruct (window_holds_accepted_temperatures json_loads consumer 2 (empty_window 2)
              json_loads_raises_Exceptions_only) as [_ Hlast].
  rewrite (Hlast 2 eq_refl ltac:(lia)). vm_compute. reflexivity.
Defined.

Lemma length_items_append x (d : deque) :
  (length (items (deque_append x d)) <= S (length (items d)))%nat.
Proof.
  unfold deque_append. destruct (maxlen d) as [n|]; cbn.
  - destruct (n <? _); rewrite ?length_drop, length_app; cbn; lia.
  - rewrite length_app; cbn; lia.
Qed.

Lemma reported_ranges_app evs evs' :
  reported_ranges (evs ++ evs') = reported_ranges evs ++ reported_ranges evs'.
Proof. unfold reported_ranges. apply omap_app. Qed.

Lemma no_range_while_filling decoder consumer W s :
  raises_Exceptions_only decoder ->
  Z.of_nat (length (items (rolling_window s))
            + length (omap (accepted_temperature decoder) (polled consumer))) < W ->
  exists evs,
    log (snd (for_message_in decoder consumer W s)) = log s ++ evs
    /\ reported_ranges evs = [].
Proof.
  intros Hdec. revert s.
  induction consumer as [|[message offset|e] consumer IH]; intros s Hfew.
  - exists []. by rewrite app_nil_r.
  - rewrite for_message_in_cons. cbn [polled] in Hfew.
    set (s1 := logging [DebugReceived offset message] s).
    assert (Hacc : omap (accepted_temperature decoder) (message :: polled consumer)
                   = match accepted_temperature decoder message with
                     | Some t => t :: omap (accepted_temperature decoder) (polled consumer)
                     | None => omap (accepted_temperature decoder) (polled consumer)
                     end) by reflexivity.
    rewrite Hacc in Hfew. clear Hacc.
    destruct (process_message_cases decoder message W s1)
      as [(d & Hload & Hnone & Hrun) | (o & evs & Hrun & Hnoreport & Hraised & _)].
    + assert (Haccepted : accepted_temperature decoder message
                          = Some (field d "temperature"))
        by (unfold accepted_temperature; by rewrite Hload, Hnone).
      rewrite Haccepted in Hfew. cbn [length] in Hfew. rewrite Hrun.
      set (window := deque_append (field d "temperature") (rolling_window s1)) in *.
      pose proof (length_items_append (field d "temperature") (rolling_window s1))
        as Hgrow. fold window in Hgrow.
      change (rolling_window s1) with (rolling_window s) in Hgrow.
      destruct (IH (State window (close_calls s1)
                      (log s1 ++ valid_record_events message W d window)))
        as (evs' & Hlog & Hnone').
      { cbn [rolling_window]. lia. }
      rewrite Hlog. cbn [log]. unfold s1, logging; cbn [log].
      exists ([DebugReceived offset message]
              ++ valid_record_events message W d window ++ evs').
      split; [by rewrite <- !app_assoc|].
      rewrite !reported_ranges_app, Hnone'.
      unfold valid_record_events.
      assert (Hshort : (deque_len window =? W) = false).
      { apply Z.eqb_neq. unfold deque_len. lia. }
      rewrite Hshort. reflexivity.
    + rewrite Hrun.
      pose proof (process_message_returns decoder message W s1 Hdec) as Hret.
      rewrite Hrun in Hret. cbn in Hret. subst o.
      destruct (IH (logging evs s1)) as (evs' & Hlog & Hnone').
      { cbn [logging rolling_window].
        change (rolling_window s1) with (rolling_window s).
        destruct (accepted_temperature decoder message); cbn [length] in Hfew; lia. }
      rewrite Hlog. unfold s1, logging; cbn [log].
      exists ([DebugReceived offset message] ++ evs ++ evs').
      split; [by rewrite <- !app_assoc|].
      by rewrite !reported_ranges_app, Hnoreport, Hnone'.
  - exists []. cbn. by rewrite app_nil_r.
Qed.

(** X7. No range is reported while the window is filling: as long as the
    items already in the window and the accepted records of the stream
    together number fewer than [W], the loop logs no temperature range. *)
Theorem no_range_before_window_full decoder consumer W s :
  raises_Exceptions_only decoder ->
  Z.of_nat (length (items (rolling_window s))
            + length (omap (accepted_temperature decoder) (polled consumer))) < W ->
  reported_ranges (new_events s (snd (for_message_in decoder consumer W s))) = [].
Proof.
  intros Hdec Hfew.
  destruct (no_range_while_filling decoder consumer W s Hdec Hfew) as (evs & Hlog & Hnone).
  unfold new_events. rewrite Hlog, drop_app_length. exact Hnone.
Qed.

Lemma no_range_before_window_full_witness :
  reported_ranges
    (new_events (empty_window 5)
       (snd (for_message_in json_loads
               (deliveries [reading "20"; reading "21"; truncated_record; reading "19"])
               5 (empty_window 5)))) = [].
Proof.
  apply (no_range_before_window_full json_loads
           (deliveries [reading "20"; reading "21"; truncated_record; reading "19"])
           5 (empty_window 5) json_loads_raises_Exceptions_only).
  vm_compute. reflexivity.
Defined.

(** X8. Once the source has raised, nothing that it would have delivered
    afterwards is processed: the loop ends in the same state and with the
    same outcome as on the stream cut after the first exception. *)
Theorem nothing_processed_after_source_raises decoder consumer W s :
  for_message_in decoder consumer W s
  = for_message_in decoder (until_raise consumer) W s.
Proof.
  revert s. induction consumer as [|[message offset|e] consumer IH]; intros s;
    [reflexivity| |reflexivity].
  cbn [until_raise]. rewrite !for_message_in_cons.
  destruct (process_message _ _ _ _) as [[[]|e|] s']; [apply IH|done|done].
Qed.

End Streams.

(** * The ranges reported over a stream *)

Section SlidingRanges.

Import Consumer.

Implicit Types (decoder : string -> result pyval) (s : state) (message : string)
  (W : Z) (consumer : list delivery) (d : deque) (temperatures : list pyval).

Lemma pushed_ranges_snoc W temperatures temperature d :
  pushed_ranges W (temperatures ++ [temperature]) d
  = pushed_ranges W temperatures d
    ++ pushed_ranges W [temperature] (push_all temperatures d).
Proof.
  revert d. induction temperatures as [|t temperatures IH]; intros d; [reflexivity|].
  cbn [app pushed_ranges]. rewrite push_all_cons, IH. by rewrite <- app_assoc.
Qed.

Lemma omap_ext_seq {A} (f g : nat -> option A) start len :
  (forall i, (start <= i < start + len)%nat -> f i = g i) ->
  omap f (seq start len) = omap g (seq start len).
Proof.
  revert start. induction len as [|len IH]; intros start Hfg; [reflexivity|].
  change (omap f (seq start (S len)))
    with (match f start with
          | Some y => y :: omap f (seq (S start) len)
          | None => omap f (seq (S start) len)
          end).
  change (omap g (seq start (S len)))
    with (match g start with
          | Some y => y :: omap g (seq (S start) len)
          | None => omap g (seq (S start) len)
          end).
  rewrite (Hfg start) by lia. rewrite (IH (S start)); [done|].
  intros i Hi. apply Hfg. lia.
Qed.

(** From an empty window of bound [W] the ranges reported are those of the
    successive runs of [W] consecutive temperatures. *)
Lemma pushed_ranges_fresh W temperatures :
  0 <= W ->
  pushed_ranges W temperatures (Deque (Some W) [])
  = omap (fun i => range_of_window (take (Z.to_nat W) (drop i temperatures)))
      (seq 0 (length temperatures + 1 - Z.to_nat W)).
Proof.
  intros HW. induction temperatures as [|t temperatures IH] using rev_ind.
  - cbn [pushed_ranges length]. destruct (Z.to_nat W) as [|w] eqn:Hw; [|reflexivity].
    reflexivity.
  - rewrite pushed_ranges_snoc, IH. clear IH.
    set (n := length temperatures). set (w := Z.to_nat W).
    assert (Hitems : items (push_all (temperatures ++ [t]) (Deque (Some W) []))
                     = drop (n + 1 - w) (temperatures ++ [t])).
    { rewrite (items_push_all W); [|done|unfold within_bound, deque_len; cbn; lia].
      cbn [items app]. by rewrite length_app. }
    cbn [pushed_ranges]. rewrite <- push_all_snoc, app_nil_r.
    unfold deque_len. rewrite Hitems, length_drop, !length_app. cbn [length].
    fold n.
    destruct (decide (n + 1 < w)%nat) as [Hfew|Hfull].
    + replace (n + 1 + 1 - w)%nat with 0%nat by lia.
      replace (n + 1 - w)%nat with 0%nat by lia.
      cbn [seq omap]. destruct (Z.eqb_spec (Z.of_nat (n + 1 - 0)) W); [lia|reflexivity].
    + replace (n + 1 + 1 - w)%nat with (S (n + 1 - w)) by lia.
      rewrite seq_S, omap_app. cbn [Nat.add]. f_equal.
      * apply omap_ext_seq. intros i Hi.
        rewrite drop_app_le by (fold n; lia).
        rewrite take_app_le by (rewrite length_drop; fold n; lia). reflexivity.
      * destruct (Z.eqb_spec (Z.of_nat (n + 1 - (n + 1 - w))) W); [|lia].
        change (omap ?f [?i]) with (match f i with Some y => [y] | None => [] end).
        cbv beta.
        rewrite (take_ge (drop (n + 1 - w) (temperatures ++ [t])))
          by (rewrite length_drop, length_app; cbn [length]; fold n; lia).
        reflexivity.
Qed.

Lemma stream_ranges decoder consumer W s :
  raises_Exceptions_only decoder ->
  exists evs,
    log (snd (for_message_in decoder consumer W s)) = log s ++ evs
    /\ reported_ranges evs
       = pushed_ranges W (omap (accepted_temperature decoder) (polled consumer))
           (rolling_window s).
Proof.
  intros Hdec. revert s.
  induction consumer as [|[message offset|e] consumer IH]; intros s.
  - exists []. by rewrite app_nil_r.
  - rewrite for_message_in_cons. cbn [polled].
    set (s1 := logging [DebugReceived offset message] s).
    assert (Hacc : omap (accepted_temperature decoder) (message :: polled consumer)
                   = match accepted_temperature decoder message with
                     | Some t => t :: omap (accepted_temperature decoder) (polled consumer)
                     | None => omap (accepted_temperature decoder) (polled consumer)
                     end) by reflexivity.
    rewrite Hacc. clear Hacc.
    destruct (accepted_temperature decoder message) as [t|] eqn:Haccepted.
    + unfold accepted_temperature in Haccepted.
      destruct (decoder message) as [data|e] eqn:Hload; [|discriminate].
      destruct data as [| | | | | |d]; try discriminate.
      destruct (None_in (map (field d) required_fields)) eqn:Hnone; [discriminate|].
      injection Haccepted as <-.
      rewrite (process_message_valid decoder message W s1 d Hload Hnone). cbn zeta.
      change (rolling_window s1) with (rolling_window s).
      set (window := deque_append (field d "temperature") (rolling_window s)).
      destruct (IH (State window (close_calls s1)
                      (log s1 ++ valid_record_events message W d window)))
        as (evs' & Hlog & Hranges).
      rewrite Hlog. cbn [log]. unfold s1, logging; cbn [log].
      exists ([DebugReceived offset message]
              ++ valid_record_events message W d window ++ evs').
      split; [by rewrite <- !app_assoc|].
      rewrite !reported_ranges_app, Hranges. cbn [rolling_window pushed_ranges].
      fold window.
      change (reported_ranges [DebugReceived offset message]) with (@nil pyval).
      cbn [app]. f_equal.
      unfold valid_record_events, range_of_window.
      rewrite reported_ranges_app.
      destruct (deque_len window =? W); [|reflexivity].
      by destruct (logged_range (items window)).
    + destruct (process_message_cases decoder message W s1)
        as [(d & Hload & Hnone & _) | (o & evs & Hrun & Hnoreport & Hraised & _)].
      { exfalso. unfold accepted_temperature in Haccepted.
        by rewrite Hload, Hnone in Haccepted. }
      rewrite Hrun.
      pose proof (process_message_returns decoder message W s1 Hdec) as Hret.
      rewrite Hrun in Hret. cbn in Hret. subst o.
      destruct (IH (logging evs s1)) as (evs' & Hlog & Hranges).
      rewrite Hlog. unfold s1, logging; cbn [log].
      exists ([DebugReceived offset message] ++ evs ++ evs').
      split; [by rewrite <- !app_assoc|].
      by rewrite !reported_ranges_app, Hnoreport, Hranges.
  - exists []. cbn. by rewrite app_nil_r.
Qed.

(** X17. Started with an empty window of bound [W], the loop reports the
    ranges of the successive runs of [W] consecutive accepted temperatures,
    in order, and nothing else: the i-th range logged is [max - min] of the
    accepted temperatures i, ..., i + W - 1. A run is passed over when its
    [max - min] has no value, or has one that the log record cannot be
    formatted with (an [int] of more than 4300 digits); [range_of_window]
    tells. Rejected payloads neither delay nor add a report. *)
Theorem ranges_of_successive_windows decoder consumer W s :
  raises_Exceptions_only decoder -> 0 <= W ->
  rolling_window s = Deque (Some W) [] ->
  let accepted := omap (accepted_temperature decoder) (polled consumer) in
  reported_ranges (new_events s (snd (for_message_in decoder consumer W s)))
  = omap (fun i => range_of_window (take (Z.to_nat W) (drop i accepted)))
      (seq 0 (length accepted + 1 - Z.to_nat W)).
Proof.
  intros Hdec HW Hwindow accepted. subst accepted.
  destruct (stream_ranges decoder consumer W s Hdec) as (evs & Hlog & Hranges).
  unfold new_events. rewrite Hlog, drop_app_length, Hranges, Hwindow.
  by apply pushed_ranges_fresh.
Qed.

Lemma ranges_of_successive_windows_witness :
  reported_ranges
    (new_events (empty_window 3)
       (snd (for_message_in json_loads
               (deliveries [reading "20"; reading "21"; truncated_record;
                            reading "19"; reading "25"])
               3 (empty_window 3))))
  = [PInt 2; PInt 6].
Proof.
  rewrite (ranges_of_successive_windows json_loads
             (deliveries [reading "20"; reading "21"; truncated_record;
                          reading "19"; reading "25"])
             3 (empty_window 3) json_loads_raises_Exceptions_only ltac:(lia) eq_refl).
  vm_compute. reflexivity.
Defined.

End SlidingRanges.

(** * [main] of the consumer *)

Section ConsumerMain.

Import Consumer.

Implicit Types (decoder : string -> result pyval) (s : state) (W : Z)
  (consumer : list delivery) (environ : gmap string string)
  (create_kafka_consumer : string -> string -> result (list delivery)).

(** The window size cannot be read: [main] stops in its getter. *)
Lemma main_window_size_unreadable decoder create_kafka_consumer environ s e :
  consumer_window_size environ = Raise e ->
  main decoder create_kafka_consumer environ s
  = (Raised e,
     logging [InfoStartConsumer; InfoKafkaTopic (consumer_topic environ);
              InfoConsumerGroup (consumer_group_id environ)] s).
Proof.
  intros Hsize. unfold consumer_window_size in Hsize.
  unfold main, get_kafka_topic, get_kafka_consumer_group_id, get_rolling_window_size,
    bind, lift, emit, modify, ret, logging; cbn.
  rewrite Hsize. cbn. unfold consumer_topic, consumer_group_id.
  by rewrite <- !app_assoc.
Qed.

(** The window size is read but [deque] refuses it. *)
Lemma main_window_refused decoder create_kafka_consumer environ s W e :
  consumer_window_size environ = Ok W -> deque_new W = Raise e ->
  main decoder create_kafka_consumer environ s
  = (Raised e,
     logging (consumer_startup_events (consumer_topic environ)
                (consumer_group_id environ) W) s).
Proof.
  intros Hsize Hnew. unfold consumer_window_size in Hsize.
  unfold main, get_kafka_topic, get_kafka_consumer_group_id, get_rolling_window_size,
    bind, lift, emit, modify, ret, logging; cbn.
  rewrite Hsize. cbn. rewrite Hnew.
  unfold consumer_startup_events, consumer_topic, consumer_group_id.
  by rewrite <- !app_assoc.
Qed.

(** No consumer can be created. *)
Lemma main_no_consumer decoder create_kafka_consumer environ s W window e :
  consumer_window_size environ = Ok W -> deque_new W = Ok window ->
  create_kafka_consumer (consumer_topic environ) (consumer_group_id environ) = Raise e ->
  main decoder create_kafka_consumer environ s
  = (Raised e,
     State window (close_calls s)
       (log s ++ consumer_startup_events (consumer_topic environ)
                   (consumer_group_id environ) W)).
Proof.
  intros Hsize Hnew Hcreate. unfold consumer_window_size in Hsize.
  unfold consumer_topic, consumer_group_id in Hcreate.
  unfold main, get_kafka_topic, get_kafka_consumer_group_id, get_rolling_window_size,
    set_rolling_window, bind, lift, emit, modify, ret, logging; cbn.
  rewrite Hsize. cbn. rewrite Hnew. cbn. rewrite Hcreate.
  unfold consumer_startup_events, consumer_topic, consumer_group_id.
  by rewrite <- !app_assoc.
Qed.

(** [main] gets as far as its [try] statement. *)
Lemma main_polls decoder create_kafka_consumer environ s W window consumer :
  consumer_window_size environ = Ok W -> deque_new W = Ok window ->
  create_kafka_consumer (consumer_topic environ) (consumer_group_id environ)
  = Ok consumer ->
  main decoder create_kafka_consumer environ s
  = poll_and_process decoder consumer (consumer_topic environ) W
      (State window (close_calls s)
         (log s ++ consumer_startup_events (consumer_topic environ)
                     (consumer_group_id environ) W
                ++ [InfoPolling (consumer_topic environ)])).
Proof.
  intros Hsize Hnew Hcreate. unfold consumer_window_size in Hsize.
  unfold consumer_topic, consumer_group_id in Hcreate.
  unfold main, get_kafka_topic, get_kafka_consumer_group_id, get_rolling_window_size,
    set_rolling_window, bind, lift, emit, modify, ret, logging; cbn.
  rewrite Hsize. cbn. rewrite Hnew. cbn. rewrite Hcreate. cbv beta iota.
  unfold consumer_startup_events, consumer_topic, consumer_group_id.
  cbn [rolling_window close_calls log]. by rewrite <- !app_assoc.
Qed.

(** X9. When [main] cannot start (the window size is not an integer; or it
    is negative, so that [deque] raises [ValueError]; or it does not fit a
    [Py_ssize_t], so that [deque] raises [OverflowError]; or no consumer
    can be created) the exception leaves [main], and [close] is not called:
    there is nothing to close, or the consumer was never created. *)
Theorem main_startup_failure decoder create_kafka_consumer environ s :
  (forall e, consumer_window_size environ = Raise e ->
     fst (main decoder create_kafka_consumer environ s) = Raised e
     /\ close_calls (snd (main decoder create_kafka_consumer environ s)) = close_calls s
     /\ rolling_window (snd (main decoder create_kafka_consumer environ s))
        = rolling_window s)
  /\ (forall W, consumer_window_size environ = Ok W -> ssize_min <= W < 0 ->
        fst (main decoder create_kafka_consumer environ s) = Raised ValueError
        /\ close_calls (snd (main decoder create_kafka_consumer environ s))
           = close_calls s)
  /\ (forall W, consumer_window_size environ = Ok W ->
        W < ssize_min \/ ssize_max < W ->
        fst (main decoder create_kafka_consumer environ s) = Raised OverflowError
        /\ close_calls (snd (main decoder create_kafka_consumer environ s))
           = close_calls s)
  /\ (forall W e, consumer_window_size environ = Ok W -> 0 <= W <= ssize_max ->
        create_kafka_consumer (consumer_topic environ) (consumer_group_id environ)
        = Raise e ->
        fst (main decoder create_kafka_consumer environ s) = Raised e
        /\ close_calls (snd (main decoder create_kafka_consumer environ s))
           = close_calls s).
Proof.
  split; [|split; [|split]].
  - intros e Hsize. by erewrite main_window_size_unreadable.
  - intros W Hsize Hneg.
    pose proof (deque_new_negative W Hneg) as Hnew.
    by erewrite main_window_refused.
  - intros W Hsize Hout.
    pose proof (deque_new_out_of_range W Hout) as Hnew.
    by erewrite main_window_refused.
  - intros W e Hsize Hrange Hcreate.
    pose proof (deque_new_in_range W Hrange) as Hnew.
    by erewrite main_no_consumer.
Qed.

Lemma main_startup_failure_witness :
  fst (main json_loads (fun _ _ => Ok [])
         {[ "WEATHER_ROLLING_WINDOW_SIZE" := "-3" ]} initial) = Raised ValueError
  /\ close_calls (snd (main json_loads (fun _ _ => Ok [])
                         {[ "WEATHER_ROLLING_WINDOW_SIZE" := "-3" ]} initial)) = 0%nat.
Proof.
  assert (Hsize : consumer_window_size {[ "WEATHER_ROLLING_WINDOW_SIZE" := "-3" ]}
                  = Ok (-3)) by reflexivity.
  exact (proj1 (proj2 (main_startup_failure json_loads (fun _ _ => Ok [])
                         {[ "WEATHER_ROLLING_WINDOW_SIZE" := "-3" ]} initial))
           (-3) Hsize ltac:(unfold ssize_min; lia)).
Defined.

Lemma poll_and_process_window decoder consumer topic W s :
  rolling_window (snd (poll_and_process decoder consumer topic W s))
  = rolling_window (snd (for_message_in decoder consumer W s)).
Proof.
  unfold poll_and_process, try_finally, try_except.
  destruct (for_message_in decoder consumer W s) as [[[]|e|] s1]; cbn; [done| |done].
  destruct (is_KeyboardInterrupt e); cbn; [done|].
  destruct (is_Exception e); done.
Qed.

(** X10. When [main] starts, it works on a window of its own, created empty
    with the configured size, whatever was there before; it ends with the
    last [W] accepted temperatures of the payloads received in that window,
    and the consumer closed once. With a source that only delivers
    messages, [main] returns. *)
Theorem main_final_window decoder create_kafka_consumer environ s W consumer :
  raises_Exceptions_only decoder ->
  consumer_window_size environ = Ok W -> 0 <= W <= ssize_max ->
  create_kafka_consumer (consumer_topic environ) (consumer_group_id environ)
  = Ok consumer ->
  let accepted := omap (accepted_temperature decoder) (polled consumer) in
  let s' := snd (main decoder create_kafka_consumer environ s) in
  rolling_window s' = Deque (Some W) (drop (length accepted - Z.to_nat W) accepted)
  /\ close_calls s' = S (close_calls s)
  /\ (Forall is_Message consumer ->
      fst (main decoder create_kafka_consumer environ s) = Returned tt).
Proof.
  intros Hdec Hsize [Hlow Hhigh] Hcreate accepted s'. subst accepted s'.
  pose proof (deque_new_in_range W (conj Hlow Hhigh)) as Hnew.
  rewrite (main_polls decoder create_kafka_consumer environ s W _ consumer
             Hsize Hnew Hcreate).
  set (s0 := State _ _ _).
  destruct (poll_and_process_outcome decoder consumer (consumer_topic environ) W s0)
    as [Hout Hclose].
  split; [|split].
  - rewrite poll_and_process_window.
    destruct (window_holds_accepted_temperatures decoder consumer W s0 Hdec)
      as [Hpush Hlast].
    specialize (Hlast W eq_refl Hlow).
    pose proof (maxlen_push_all (omap (accepted_temperature decoder) (polled consumer))
                  (rolling_window s0)) as Hmax.
    rewrite <- Hpush in Hmax.
    destruct (rolling_window (snd (for_message_in decoder consumer W s0)))
      as [bound contents]. cbn in Hlast, Hmax. by subst.
  - exact Hclose.
  - intros Hall. rewrite Hout. by rewrite for_message_in_messages.
Qed.

Lemma main_final_window_witness :
  let consumer :=
    deliveries [reading "20"; truncated_record; reading "21"; reading "19"] in
  rolling_window (snd (main json_loads (fun _ _ => Ok consumer)
                         {[ "WEATHER_ROLLING_WINDOW_SIZE" := "2" ]} initial))
  = Deque (Some 2) [PInt 21; PInt 19].
Proof.
  intros consumer.
  assert (Hsize : consumer_window_size {[ "WEATHER_ROLLING_WINDOW_SIZE" := "2" ]} = Ok 2)
    by reflexivity.
  destruct (main_final_window json_loads (fun _ _ => Ok consumer)
              {[ "WEATHER_ROLLING_WINDOW_SIZE" := "2" ]} initial 2 consumer
              json_loads_raises_Exceptions_only Hsize
              ltac:(unfold ssize_max; lia) eq_refl) as [Hwindow _].
  rewrite Hwindow. vm_compute. reflexivity.
Defined.

End ConsumerMain.

(** * The producer's records before the consumer *)

Section ProducerToConsumer.

Import Consumer.

Implicit Types (decoder : string -> result pyval) (s : state) (message : string)
  (W : Z).

(** X16. A record of the producer's generator carries none of the four
    fields the consumer asks for: when a payload decodes to such a record,
    [process_message] reports an invalid message, leaves the window as it
    is and returns, for every counter. *)
Theorem ride_records_rejected decoder message W s c :
  decoder message = Ok (Producer.ride_message c) ->
  process_message decoder message W s
  = (Returned tt,
     logging [DebugRawMessage message; InfoProcessedJSON (Producer.ride_message c);
              ErrorInvalidFormat message] s)
  /\ rolling_window (snd (process_message decoder message W s)) = rolling_window s
  /\ accepted_temperature decoder message = None.
Proof.
  intros Hload. unfold Producer.ride_message in *.
  split; [|split].
  - by apply process_message_invalid.
  - by erewrite process_message_invalid.
  - unfold accepted_temperature. by rewrite Hload.
Qed.

Lemma ride_records_rejected_witness :
  rolling_window (snd (process_message json_loads ride_record_2 5 (empty_window 5)))
  = Deque (Some 5) [].
Proof.
  assert (Hload : json_loads ride_record_2 = Ok (Producer.ride_message 2))
    by (vm_compute; reflexivity).
  exact (proj1 (proj2 (ride_records_rejected json_loads ride_record_2 5
                         (empty_window 5) 2 Hload))).
Defined.

End ProducerToConsumer.

(** * The producer's loop, whatever its calls do *)

Section ProducerLoop.

Import Producer.

Variables (sleep_ends send_ends : nat -> result unit).

Implicit Types (g : generator) (trace : list action) (topic : string) (c : Z)
  (turns : nat).

Lemma delays_from_app since trace trace' :
  delays_from since (trace ++ trace')
  = delays_from since trace ++ delays_from (since_after since trace) trace'.
Proof.
  revert since. induction trace as [|a trace IH]; intros since; [reflexivity|].
  destruct a as [ev|seconds|topic value|]; cbn [app delays_from since_after];
    try apply IH.
  destruct since; cbn [app]; by rewrite IH.
Qed.

Lemma since_after_app since trace trace' :
  since_after since (trace ++ trace') = since_after (since_after since trace) trace'.
Proof.
  revert since. induction trace as [|a trace IH]; intros since; [reflexivity|].
  destruct a; cbn [app since_after]; apply IH.
Qed.

Lemma loop_body_raises topic message trace e :
  send_ends (length (filter is_Send trace)) = Raise e ->
  loop_body send_ends topic message trace = (Raised e, trace ++ [Send topic message]).
Proof.
  intros Hsend. unfold loop_body, producer_send, bind, get, emit, perform, modify,
    lift; cbv beta.
  by rewrite Hsend.
Qed.

(** What [next] adds to the trace holds no [Send] and no [Close]. *)
Lemma next_keeps g trace :
  filter is_Send (snd (next sleep_ends g trace)) = filter is_Send trace
  /\ filter is_Close (snd (next sleep_ends g trace)) = filter is_Close trace
  /\ fst (next sleep_ends g trace) <> Running.
Proof.
  destruct g as [|c].
  - rewrite next_not_started. cbn [fst snd]. rewrite !filter_app. cbn.
    by rewrite !app_nil_r.
  - destruct (sleep_ends (length (filter is_Sleep trace))) as [[]|e] eqn:Hsleep.
    + rewrite next_resumed by done. cbn [fst snd]. rewrite !filter_app. cbn.
      by rewrite !app_nil_r.
    + erewrite next_interrupted by done. cbn [fst snd]. rewrite !filter_app. cbn.
      by rewrite !app_nil_r.
Qed.

(** The loop does not close the producer and does not end by itself; when it
    is left, a first record has been handed to [send]. *)
Lemma loop_keeps turns g topic trace :
  let run := for_message_dict_in sleep_ends send_ends turns g topic trace in
  filter is_Close (snd run) = filter is_Close trace
  /\ fst run <> Returned tt
  /\ (g = NotStarted \/ filter is_Send trace <> [] ->
      fst run <> Running -> filter is_Send (snd run) <> []).
Proof.
  revert g trace. induction turns as [|turns IH]; intros g trace run; subst run.
  { cbn. split; [done|]. split; [done|]. by intros. }
  rewrite for_message_dict_in_S.
  destruct (next_keeps g trace) as (Hsend & Hclose & Hrun).
  destruct (next sleep_ends g trace) as [[[message g']|e|] trace1] eqn:Hnext;
    cbn [fst snd] in *; [| |done].
  - destruct (send_ends (length (filter is_Send trace1))) as [[]|e] eqn:Hs.
    + rewrite loop_body_returns by done.
      destruct (IH g' (trace1 ++ [Send topic message; Log (InfoSent topic message)]))
        as (IHclose & IHret & IHsend).
      split; [|split].
      * rewrite IHclose, filter_app, Hclose. cbn. by rewrite app_nil_r.
      * exact IHret.
      * intros _. apply IHsend. right. rewrite filter_app. cbn.
        by destruct (filter is_Send trace1).
    + rewrite (loop_body_raises _ _ _ e) by done. cbn [fst snd]. split; [|split].
      * rewrite filter_app, Hclose. cbn. by rewrite app_nil_r.
      * done.
      * intros _ _. rewrite filter_app. cbn. by destruct (filter is_Send trace1).
  - split; [done|]. split; [done|].
    intros [->|Hsent] _; [|by rewrite Hsend].
    rewrite next_not_started in Hnext. discriminate Hnext.
Qed.

(** Every delay between two sends is one sleep of 2 seconds. *)
Lemma loop_paced turns g topic trace :
  Forall (eq 2) (delays trace) ->
  since_after None trace = match g with NotStarted => None | AtYield _ => Some 0 end ->
  Forall (eq 2) (delays (snd (for_message_dict_in sleep_ends send_ends turns g topic
                                trace))).
Proof.
  revert g trace. induction turns as [|turns IH]; intros g trace Hpaced Hsince;
    [done|].
  rewrite for_message_dict_in_S. destruct g as [|c].
  - rewrite next_not_started.
    set (trace1 := trace ++ [Log (DebugGenerated (ride_message 1))]).
    assert (Hdelays : forall tail, delays (trace1 ++ Send topic (ride_message 1) :: tail)
                                   = delays trace ++ delays_from (Some 0) tail).
    { intros tail. unfold delays, trace1. rewrite <- app_assoc, delays_from_app, Hsince.
      reflexivity. }
    assert (Hafter : forall tail, since_after None
                                    (trace1 ++ Send topic (ride_message 1) :: tail)
                                  = since_after (Some 0) tail).
    { intros tail. unfold trace1. rewrite <- app_assoc, since_after_app, Hsince.
      reflexivity. }
    destruct (send_ends (length (filter is_Send trace1))) as [[]|e] eqn:Hs.
    + rewrite loop_body_returns by done. apply IH.
      * rewrite Hdelays. cbn. by rewrite app_nil_r.
      * by rewrite Hafter.
    + rewrite (loop_body_raises _ _ _ e) by done. cbn [snd]. rewrite Hdelays. cbn.
      by rewrite app_nil_r.
  - destruct (sleep_ends (length (filter is_Sleep trace))) as [[]|e] eqn:Hsleep.
    + rewrite next_resumed by done.
      set (trace1 := trace ++ [Sleep 2; Log (DebugGenerated (ride_message (c + 1)))]).
      assert (Hdelays : forall tail,
                 delays (trace1 ++ Send topic (ride_message (c + 1)) :: tail)
                 = delays trace ++ 2 :: delays_from (Some 0) tail).
      { intros tail. unfold delays, trace1.
        rewrite <- app_assoc, delays_from_app, Hsince. reflexivity. }
      assert (Hafter : forall tail,
                 since_after None (trace1 ++ Send topic (ride_message (c + 1)) :: tail)
                 = since_after (Some 0) tail).
      { intros tail. unfold trace1. rewrite <- app_assoc, since_after_app, Hsince.
        reflexivity. }
      destruct (send_ends (length (filter is_Send trace1))) as [[]|e] eqn:Hs.
      * rewrite loop_body_returns by done. apply IH.
        -- rewrite Hdelays. cbn. apply Forall_app. split; [done|]. by constructor.
        -- by rewrite Hafter.
      * rewrite (loop_body_raises _ _ _ e) by done. cbn [snd]. rewrite Hdelays. cbn.
        apply Forall_app. split; [done|]. by constructor.
    + erewrite next_interrupted by done. cbn [snd].
      unfold delays. rewrite delays_from_app. fold (delays trace). rewrite Hsince. cbn.
      by rewrite app_nil_r.
Qed.

End ProducerLoop.

(** * [main] of the producer, whatever its collaborators do *)

Section ProducerMain.

Import Producer.

Variables (verify_services : result unit)
  (create_kafka_producer : result (option kafka_producer))
  (create_kafka_topic : string -> result unit)
  (sleep_ends send_ends : nat -> result unit).

Implicit Types (trace : list action) (topic : string) (turns : nat)
  (environ : gmap string string).

(** Either [main] stops before its loop, having done nothing but log, or it
    runs the loop after the five records of a successful start. *)
Lemma main_shape turns environ :
  let run := main verify_services create_kafka_producer create_kafka_topic
               sleep_ends send_ends turns environ [] in
  (filter is_Close (snd run) = [] /\ filter is_Send (snd run) = []
   /\ filter is_Sleep (snd run) = [] /\ exists e, fst run = Raised e)
  \/ (exists interval,
        configured_interval environ = Ok interval
        /\ run = producer_finish
                   (for_message_dict_in sleep_ends send_ends turns generate_messages
                      (configured_topic environ)
                      (startup_actions (configured_topic environ) interval))).
Proof.
  intros run. subst run.
  unfold main, get_kafka_topic, get_message_interval, configured_interval,
    configured_topic.
  destruct verify_services as [[]|e]; [|left; cbn; eauto 10].
  destruct (os_getenv environ "TRANSPORT_INTERVAL_SECONDS" py_int (Ok 2))
    as [interval|e] eqn:Hint;
    [|left; unfold bind, lift, emit, perform, modify, ret; cbn;
      eauto 10].
  destruct create_kafka_producer as [[producer|]|e];
    [| left; unfold bind, lift, emit, perform, modify, ret, raise; cbn; eauto 10
     | left; unfold bind, lift, emit, perform, modify, ret, raise; cbn; eauto 10].
  destruct (create_kafka_topic (os_getenv environ "TRANSPORT_TOPIC" id
                                  "transportation_updates")) as [[]|e] eqn:Htopic.
  - right. exists interval. split; [reflexivity|].
    unfold try_finally, try_except, producer_finish.
    unfold bind, lift, emit, perform, modify, ret, raise; cbn.
    rewrite Htopic. cbn. unfold startup_actions.
    destruct (for_message_dict_in _ _ _ _ _ _) as [[[]|e|] t]; cbn.
    + by rewrite <- ?app_assoc.
    + destruct (is_KeyboardInterrupt e); cbn; [by rewrite <- ?app_assoc|].
      destruct (is_Exception e); cbn; by rewrite <- ?app_assoc.
    + reflexivity.
  - left. unfold try_except, bind, lift, emit, perform, modify, ret, raise; cbn.
    rewrite Htopic. destruct (is_Exception e); cbn; eauto 10.
Qed.

End ProducerMain.

Section ProducerRuns.

Import Producer.

Implicit Types (g : generator) (trace : list action) (topic : string) (turns : nat)
  (environ : gmap string string) (sleep_ends send_ends : nat -> result unit).

Lemma delays_without_send since trace :
  filter is_Send trace = [] -> delays_from since trace = [].
Proof.
  revert since. induction trace as [|a trace IH]; intros since Hnone; [reflexivity|].
  destruct a; cbn in *; try (by apply IH). discriminate Hnone.
Qed.

Lemma delays_app_without_send trace tail :
  filter is_Send tail = [] -> delays (trace ++ tail) = delays trace.
Proof.
  intros Hnone. unfold delays. rewrite delays_from_app.
  rewrite (delays_without_send _ tail Hnone). apply app_nil_r.
Qed.

Lemma length_sent_values trace :
  length (sent_values trace) = length (filter is_Send trace).
Proof.
  induction trace as [|a trace IH]; [reflexivity|].
  destruct a as [ev|seconds|topic value|].
  - rewrite filter_cons_False by (cbn; tauto). exact IH.
  - rewrite filter_cons_False by (cbn; tauto). exact IH.
  - rewrite filter_cons_True by (cbn; tauto). cbn [length]. rewrite <- IH. reflexivity.
  - rewrite filter_cons_False by (cbn; tauto). exact IH.
Qed.

(** X11. Whatever the collaborators do and whatever the environment holds,
    two consecutive sends of the producer are separated by exactly one sleep
    of 2 seconds. *)
Theorem sends_two_seconds_apart verify_services create_kafka_producer
    create_kafka_topic sleep_ends send_ends turns environ :
  Forall (eq 2)
    (delays (snd (main verify_services create_kafka_producer create_kafka_topic
                    sleep_ends send_ends turns environ []))).
Proof.
  destruct (main_shape verify_services create_kafka_producer create_kafka_topic
              sleep_ends send_ends turns environ)
    as [(_ & Hnone & _) | (interval & _ & ->)].
  - unfold delays. by rewrite delays_without_send.
  - pose proof (loop_paced sleep_ends send_ends turns generate_messages
                  (configured_topic environ)
                  (startup_actions (configured_topic environ) interval)
                  (Forall_nil_2 _) eq_refl) as Hpaced.
    unfold producer_finish.
    destruct (for_message_dict_in _ _ _ _ _ _) as [[[]|e|] t]; cbn [snd] in *.
    + by rewrite delays_app_without_send.
    + destruct (is_KeyboardInterrupt e); cbn [snd];
        [by rewrite delays_app_without_send|].
      destruct (is_Exception e); cbn [snd]; by rewrite delays_app_without_send.
    + exact Hpaced.
Qed.

(** X12. Whatever the collaborators do, [producer.close()] is called at most
    once, and only after a record has been handed to [send]: a start that
    fails, also when the producer exists and the topic cannot be provided,
    closes nothing. [main] never returns without having closed the
    producer. *)
Theorem producer_closed_at_most_once verify_services create_kafka_producer
    create_kafka_topic sleep_ends send_ends turns environ :
  let run := main verify_services create_kafka_producer create_kafka_topic
               sleep_ends send_ends turns environ [] in
  (length (filter is_Close (snd run)) <= 1)%nat
  /\ (filter is_Close (snd run) <> [] -> filter is_Send (snd run) <> [])
  /\ (fst run = Returned tt -> length (filter is_Close (snd run)) = 1%nat).
Proof.
  intros run. subst run.
  destruct (main_shape verify_services create_kafka_producer create_kafka_topic
              sleep_ends send_ends turns environ)
    as [(Hclose & _ & _ & e & Hraised) | (interval & _ & ->)].
  - rewrite Hclose, Hraised. cbn. split; [lia|]. split; [done|discriminate].
  - destruct (loop_keeps sleep_ends send_ends turns generate_messages
                (configured_topic environ)
                (startup_actions (configured_topic environ) interval))
      as (Hclose & Hnot_returned & Hsent).
    change (filter is_Close (startup_actions (configured_topic environ) interval))
      with (@nil action) in Hclose.
    unfold producer_finish.
    destruct (for_message_dict_in _ _ _ _ _ _) as [[[]|e|] t]; cbn [fst snd] in *;
      [done| |].
    + assert (Hsends : filter is_Send t <> [])
        by (apply Hsent; [by left|discriminate]).
      assert (Hone : forall tail,
                 filter is_Close tail = [Close] ->
                 (length (filter is_Close (t ++ tail)) <= 1)%nat
                 /\ (filter is_Close (t ++ tail) <> [] -> filter is_Send (t ++ tail) <> [])
                 /\ length (filter is_Close (t ++ tail)) = 1%nat).
      { intros tail Htail. rewrite !filter_app, Hclose, Htail. cbn.
        split; [lia|]. split; [|done]. intros _. by destruct (filter is_Send t). }
      destruct (is_KeyboardInterrupt e); [|destruct (is_Exception e)]; cbn [fst snd];
        (edestruct Hone as (H1 & H2 & H3); [|split; [exact H1|split; [exact H2|]]]);
        try reflexivity; try (intros _; exact H3); discriminate.
    + rewrite Hclose. cbn. split; [lia|]. split; [done|discriminate].
Qed.

End ProducerRuns.

Section ProducerFailures.

Import Producer.

Implicit Types (g : generator) (trace : list action) (topic : string) (turns : nat)
  (environ : gmap string string) (sleep_ends send_ends : nat -> result unit).

(** After a successful start [main] is what [producer_finish] makes of its
    loop. *)
Lemma main_reaches_loop producer create_kafka_topic sleep_ends send_ends turns
    environ interval :
  configured_interval environ = Ok interval ->
  create_kafka_topic (configured_topic environ) = Ok tt ->
  main (Ok tt) (Ok (Some producer)) create_kafka_topic sleep_ends send_ends turns
    environ []
  = producer_finish
      (for_message_dict_in sleep_ends send_ends turns generate_messages
         (configured_topic environ)
         (startup_actions (configured_topic environ) interval)).
Proof.
  intros Hint Htopic.
  unfold configured_interval in Hint. unfold configured_topic in *.
  unfold main, get_kafka_topic, get_message_interval, try_finally, try_except,
    producer_finish.
  unfold bind, lift, emit, perform, modify, ret, raise; cbn.
  rewrite Hint. cbn. rewrite Htopic. cbn. unfold startup_actions.
  destruct (for_message_dict_in _ _ _ _ _ _) as [[[]|e|] t]; cbn.
  - by rewrite <- ?app_assoc.
  - destruct (is_KeyboardInterrupt e); cbn; [by rewrite <- ?app_assoc|].
    destruct (is_Exception e); cbn; by rewrite <- ?app_assoc.
  - reflexivity.
Qed.

(** What [main] makes of a loop that an exception left. *)
Lemma producer_finish_raised (loop : outcome unit * list action) e :
  fst loop = Raised e ->
  filter is_Close (snd loop) = [] ->
  fst (producer_finish loop)
  = (if is_KeyboardInterrupt e || is_Exception e then Returned tt else Raised e)
  /\ length (sent_values (snd (producer_finish loop)))
     = length (filter is_Send (snd loop))
  /\ length (filter is_Close (snd (producer_finish loop))) = 1%nat.
Proof.
  destruct loop as [o t]. cbn [fst snd]. intros -> Hclose. unfold producer_finish.
  rewrite !length_sent_values.
  destruct (is_KeyboardInterrupt e); [|destruct (is_Exception e)]; cbn [fst snd orb];
    rewrite !filter_app, !length_app, Hclose;
    (split; [reflexivity|]);
    cbn; repeat case_decide; try tauto; cbn; lia.
Qed.

(** The loop up to the first [send] that raises. *)
Lemma loop_send_fails sleep_ends send_ends turns g topic trace k e :
  (forall j, sleep_ends j = Ok tt) ->
  (forall j, (length (filter is_Send trace) <= j < k)%nat -> send_ends j = Ok tt) ->
  send_ends k = Raise e ->
  (length (filter is_Send trace) <= k)%nat ->
  (k - length (filter is_Send trace) < turns)%nat ->
  fst (for_message_dict_in sleep_ends send_ends turns g topic trace) = Raised e
  /\ length (filter is_Send
               (snd (for_message_dict_in sleep_ends send_ends turns g topic trace)))
     = S k.
Proof.
  intros Hsleeps. revert g trace.
  induction turns as [|turns IH]; intros g trace Hsends Hfails Hle Hturns; [lia|].
  rewrite for_message_dict_in_S.
  assert (Hnext : exists message g' added,
             next sleep_ends g trace = (Returned (message, g'), trace ++ added)
             /\ filter is_Send added = []).
  { destruct g as [|c].
    - rewrite next_not_started. by do 3 eexists.
    - rewrite next_resumed by apply Hsleeps. by do 3 eexists. }
  destruct Hnext as (message & g' & added & -> & Hadded).
  assert (Hcount : filter is_Send (trace ++ added) = filter is_Send trace)
    by (by rewrite filter_app, Hadded, app_nil_r).
  destruct (decide (length (filter is_Send trace) = k)) as [Heq|Hne].
  - rewrite (loop_body_raises send_ends topic message (trace ++ added) e)
      by (by rewrite Hcount, Heq).
    cbn [fst snd]. split; [done|].
    rewrite filter_app, Hcount, length_app, Heq.
    change (filter is_Send [Send topic message]) with [Send topic message]. cbn. lia.
  - rewrite loop_body_returns by (rewrite Hcount; apply Hsends; lia).
    assert (Hgrown : length (filter is_Send
                       ((trace ++ added)
                        ++ [Send topic message; Log (InfoSent topic message)]))
                     = S (length (filter is_Send trace))).
    { rewrite filter_app, Hcount, length_app.
      change (filter is_Send [Send topic message; Log (InfoSent topic message)])
        with [Send topic message].
      cbn. lia. }
    apply IH; rewrite ?Hgrown; try lia; try done. intros j Hj. apply Hsends. lia.
Qed.

(** X13. When a call of [send] raises an [Exception], the error is logged,
    the producer is closed and [main] returns, so the process ends with
    status 0; the same after an interrupt during [send]. The records sent
    are those up to the one whose [send] raised. Another kind of exception
    leaves [main] once the producer is closed. *)
Theorem send_failure_ends_the_run producer create_kafka_topic sleep_ends send_ends
    turns environ interval k e :
  configured_interval environ = Ok interval ->
  create_kafka_topic (configured_topic environ) = Ok tt ->
  (forall j, sleep_ends j = Ok tt) ->
  (forall j, (j < k)%nat -> send_ends j = Ok tt) ->
  send_ends k = Raise e -> (k < turns)%nat ->
  let run := main (Ok tt) (Ok (Some producer)) create_kafka_topic sleep_ends send_ends
               turns environ [] in
  fst run = (if is_KeyboardInterrupt e || is_Exception e then Returned tt else Raised e)
  /\ (is_KeyboardInterrupt e || is_Exception e = true ->
      exit_status (fst run) = Some 0)
  /\ length (sent_values (snd run)) = S k
  /\ length (filter is_Close (snd run)) = 1%nat.
Proof.
  intros Hint Htopic Hsleeps Hsends Hfails Hturns run. subst run.
  rewrite (main_reaches_loop producer create_kafka_topic sleep_ends send_ends turns
             environ interval Hint Htopic).
  assert (Hstart : filter is_Send (startup_actions (configured_topic environ) interval)
                   = []) by reflexivity.
  destruct (loop_send_fails sleep_ends send_ends turns generate_messages
              (configured_topic environ)
              (startup_actions (configured_topic environ) interval) k e Hsleeps)
    as [Hraised Hsent]; rewrite ?Hstart; cbn [length]; try lia; try done.
  { intros j Hj. apply Hsends. lia. }
  destruct (loop_keeps sleep_ends send_ends turns generate_messages
              (configured_topic environ)
              (startup_actions (configured_topic environ) interval))
    as (Hclose & _ & _).
  change (filter is_Close (startup_actions (configured_topic environ) interval))
    with (@nil action) in Hclose.
  destruct (producer_finish_raised _ e Hraised Hclose) as (Hout & Hvalues & Hclosed).
  rewrite Hout, Hvalues, Hsent, Hclosed.
  split; [reflexivity|]. split; [|done].
  by intros ->.
Qed.

Lemma send_failure_ends_the_run_witness :
  let send_ends k :=
    if (k =? 2)%nat then Raise (OtherException "KafkaTimeoutError") else Ok tt in
  let run := main (Ok tt) (Ok (Some KafkaProducer)) (fun _ => Ok tt) (fun _ => Ok tt)
               send_ends 5 ∅ [] in
  fst run = Returned tt
  /\ exit_status (fst run) = Some 0
  /\ length (sent_values (snd run)) = 3%nat
  /\ length (filter is_Close (snd run)) = 1%nat.
Proof.
  intros send_ends run.
  assert (Hint : configured_interval ∅ = Ok 2) by reflexivity.
  assert (Hsends : forall j, (j < 2)%nat -> send_ends j = Ok tt).
  { intros j Hj. unfold send_ends. by destruct (Nat.eqb_spec j 2); [lia|]. }
  destruct (send_failure_ends_the_run KafkaProducer (fun _ => Ok tt) (fun _ => Ok tt)
              send_ends 5 ∅ 2 2 (OtherException "KafkaTimeoutError")
              Hint eq_refl (fun _ => eq_refl) Hsends eq_refl ltac:(lia))
    as (Hout & Hexit & Hsent & Hclose).
  split; [exact Hout|]. split; [by apply Hexit|]. split; [exact Hsent|exact Hclose].
Defined.

(** The loop up to the first [time.sleep] that raises: the generator sleeps
    once between two records, so one record more than sleeps was sent. *)
Lemma loop_sleep_fails sleep_ends send_ends turns g topic trace k e :
  (forall j, send_ends j = Ok tt) ->
  (forall j, (length (filter is_Sleep trace) <= j < k)%nat -> sleep_ends j = Ok tt) ->
  sleep_ends k = Raise e ->
  (length (filter is_Sleep trace) <= k)%nat ->
  length (filter is_Send trace)
  = (length (filter is_Sleep trace) + (if g is NotStarted then 0 else 1))%nat ->
  (k - length (filter is_Sleep trace) + (if g is NotStarted then 1 else 0) < turns)%nat ->
  fst (for_message_dict_in sleep_ends send_ends turns g topic trace) = Raised e
  /\ length (filter is_Send
               (snd (for_message_dict_in sleep_ends send_ends turns g topic trace)))
     = S k.
Proof.
  intros Hsends. revert g trace.
  induction turns as [|turns IH]; intros g trace Hsleeps Hfails Hle Hinv Hturns;
    [lia|].
  rewrite for_message_dict_in_S.
  destruct g as [|c].
  - rewrite next_not_started, loop_body_returns by apply Hsends.
    apply IH; rewrite ?filter_app, ?length_app;
      change (filter is_Sleep [Log (DebugGenerated (ride_message 1))])
        with (@nil action);
      change (filter is_Send [Log (DebugGenerated (ride_message 1))])
        with (@nil action);
      change (filter is_Sleep [Send topic (ride_message 1);
                               Log (InfoSent topic (ride_message 1))])
        with (@nil action);
      change (filter is_Send [Send topic (ride_message 1);
                              Log (InfoSent topic (ride_message 1))])
        with [Send topic (ride_message 1)];
      cbn [length]; try lia; try done.
    intros j Hj. apply Hsleeps. lia.
  - destruct (decide (length (filter is_Sleep trace) = k)) as [Heq|Hne].
    + rewrite (next_interrupted sleep_ends c trace e) by (by rewrite Heq).
      cbn [fst snd]. split; [done|].
      rewrite filter_app, length_app.
      change (filter is_Send [Sleep 2]) with (@nil action). cbn [length]. lia.
    + rewrite next_resumed, loop_body_returns by (apply Hsends || (apply Hsleeps; lia)).
      apply IH; rewrite ?filter_app, ?length_app;
        change (filter is_Sleep [Sleep 2; Log (DebugGenerated (ride_message (c + 1)))])
          with [Sleep 2];
        change (filter is_Send [Sleep 2; Log (DebugGenerated (ride_message (c + 1)))])
          with (@nil action);
        change (filter is_Sleep [Send topic (ride_message (c + 1));
                                 Log (InfoSent topic (ride_message (c + 1)))])
          with (@nil action);
        change (filter is_Send [Send topic (ride_message (c + 1));
                                Log (InfoSent topic (ride_message (c + 1)))])
          with [Send topic (ride_message (c + 1))];
        cbn [length]; try lia; try done.
      intros j Hj. apply Hsleeps. lia.
Qed.

(** X14. When the generator's [time.sleep] is interrupted after record
    [k + 1] (a [KeyboardInterrupt], or any [Exception]), [main] closes the
    producer once and returns, so the process ends with status 0, and
    exactly [k + 1] records were sent; another kind of exception leaves
    [main] after the producer is closed. *)
Theorem interrupted_sleep_ends_the_run producer create_kafka_topic sleep_ends
    send_ends turns environ interval k e :
  configured_interval environ = Ok interval ->
  create_kafka_topic (configured_topic environ) = Ok tt ->
  (forall j, send_ends j = Ok tt) ->
  (forall j, (j < k)%nat -> sleep_ends j = Ok tt) ->
  sleep_ends k = Raise e -> (S k < turns)%nat ->
  let run := main (Ok tt) (Ok (Some producer)) create_kafka_topic sleep_ends send_ends
               turns environ [] in
  fst run = (if is_KeyboardInterrupt e || is_Exception e then Returned tt else Raised e)
  /\ (is_KeyboardInterrupt e || is_Exception e = true ->
      exit_status (fst run) = Some 0)
  /\ length (sent_values (snd run)) = S k
  /\ length (filter is_Close (snd run)) = 1%nat.
Proof.
  intros Hint Htopic Hsends Hsleeps Hfails Hturns run. subst run.
  rewrite (main_reaches_loop producer create_kafka_topic sleep_ends send_ends turns
             environ interval Hint Htopic).
  assert (Hstart : filter is_Sleep (startup_actions (configured_topic environ) interval)
                   = []) by reflexivity.
  assert (Hstart' : filter is_Send (startup_actions (configured_topic environ) interval)
                    = []) by reflexivity.
  destruct (loop_sleep_fails sleep_ends send_ends turns generate_messages
              (configured_topic environ)
              (startup_actions (configured_topic environ) interval) k e Hsends)
    as [Hraised Hsent]; rewrite ?Hstart, ?Hstart'; cbn [length]; try lia; try done.
  { intros j Hj. apply Hsleeps. lia. }
  { unfold generate_messages. lia. }
  destruct (loop_keeps sleep_ends send_ends turns generate_messages
              (configured_topic environ)
              (startup_actions (configured_topic environ) interval))
    as (Hclose & _ & _).
  change (filter is_Close (startup_actions (configured_topic environ) interval))
    with (@nil action) in Hclose.
  destruct (producer_finish_raised _ e Hraised Hclose) as (Hout & Hvalues & Hclosed).
  rewrite Hout, Hvalues, Hsent, Hclosed.
  split; [reflexivity|]. split; [|done].
  by intros ->.
Qed.

Lemma interrupted_sleep_ends_the_run_witness :
  let sleep_ends k := if (k =? 1)%nat then Raise KeyboardInterrupt else Ok tt in
  let run := main (Ok tt) (Ok (Some KafkaProducer)) (fun _ => Ok tt) sleep_ends
               (fun _ => Ok tt) 5 ∅ [] in
  fst run = Returned tt
  /\ exit_status (fst run) = Some 0
  /\ length (sent_values (snd run)) = 2%nat
  /\ length (filter is_Close (snd run)) = 1%nat.
Proof.
  intros sleep_ends run.
  assert (Hint : configured_interval ∅ = Ok 2) by reflexivity.
  assert (Hsleeps : forall j, (j < 1)%nat -> sleep_ends j = Ok tt).
  { intros j Hj. unfold sleep_ends. by destruct (Nat.eqb_spec j 1); [lia|]. }
  destruct (interrupted_sleep_ends_the_run KafkaProducer (fun _ => Ok tt) sleep_ends
              (fun _ => Ok tt) 5 ∅ 2 1 KeyboardInterrupt
              Hint eq_refl (fun _ => eq_refl) Hsleeps eq_refl ltac:(lia))
    as (Hout & Hexit & Hsent & Hclose).
  split; [exact Hout|]. split; [by apply Hexit|]. split; [exact Hsent|exact Hclose].
Defined.

End ProducerFailures.

(** * The records of a run, in the generator's order *)

Section ProducerRecords.

Import Producer.

Implicit Types (g : generator) (trace : list action) (topic : string) (turns : nat)
  (environ : gmap string string) (sleep_ends send_ends : nat -> result unit).

(** [str] of an integer determines the integer. *)
Lemma py_str_int_inj z z' : py_str_int z = py_str_int z' -> z = z'.
Proof.
  unfold py_str_int. intros Hstr.
  assert (Hnonnil : forall z, Z.to_int z <> Decimal.Pos Decimal.Nil
                              /\ Z.to_int z <> Decimal.Neg Decimal.Nil).
  { intros [|p|p]; cbn; split; try discriminate; intros Hnil; injection Hnil;
      apply DecimalPos.Unsigned.to_uint_nonnil. }
  assert (Hint : Some (Z.to_int z) = Some (Z.to_int z')).
  { rewrite <- (NilZero.isi (Z.to_int z)) by apply Hnonnil.
    rewrite <- (NilZero.isi (Z.to_int z')) by apply Hnonnil.
    by rewrite Hstr. }
  injection Hint as Hint.
  rewrite <- (DecimalZ.of_to z), <- (DecimalZ.of_to z'). by rewrite Hint.
Qed.

Lemma sent_values_app trace tail :
  sent_values (trace ++ tail) = sent_values trace ++ sent_values tail.
Proof. apply omap_app. Qed.

(** The loop hands the generator's records to [send] in the order of their
    counters, wherever it stops. *)
Lemma loop_sent_values sleep_ends send_ends turns g topic trace :
  exists n, (n <= turns)%nat
    /\ sent_values (snd (for_message_dict_in sleep_ends send_ends turns g topic trace))
       = sent_values trace
         ++ map (fun k => ride_message (counter g + Z.of_nat k)) (seq 1 n).
Proof.
  revert g trace. induction turns as [|turns IH]; intros g trace.
  { exists 0%nat. split; [lia|]. cbn. by rewrite app_nil_r. }
  rewrite for_message_dict_in_S.
  assert (Hnext : (exists e added,
                      next sleep_ends g trace = (Raised e, trace ++ added)
                      /\ sent_values added = [])
                  \/ (exists added,
                        next sleep_ends g trace
                        = (Returned (ride_message (counter g + 1),
                                     AtYield (counter g + 1)), trace ++ added)
                        /\ sent_values added = [])).
  { destruct g as [|c].
    - right. rewrite next_not_started. by eexists.
    - destruct (sleep_ends (length (filter is_Sleep trace))) as [[]|e] eqn:Hsleep.
      + right. rewrite next_resumed by done. by eexists.
      + left. rewrite (next_interrupted sleep_ends c trace e) by done.
        by do 2 eexists. }
  destruct Hnext as [(e & added & -> & Hadded) | (added & -> & Hadded)].
  { exists 0%nat. split; [lia|]. cbn [snd seq map].
    by rewrite sent_values_app, Hadded. }
  destruct (send_ends (length (filter is_Send (trace ++ added)))) as [[]|e] eqn:Hsend.
  - rewrite loop_body_returns by done.
    destruct (IH (AtYield (counter g + 1))
                ((trace ++ added)
                 ++ [Send topic (ride_message (counter g + 1));
                     Log (InfoSent topic (ride_message (counter g + 1)))]))
      as (n & Hn & ->).
    exists (S n). split; [lia|].
    rewrite !sent_values_app, Hadded, app_nil_r.
    cbn [seq map counter]. rewrite <- (seq_shift n 1), map_map.
    change (sent_values [Send topic (ride_message (counter g + 1));
                         Log (InfoSent topic (ride_message (counter g + 1)))])
      with [ride_message (counter g + 1)].
    rewrite <- app_assoc. cbn [app]. do 2 f_equal.
    apply map_ext. intros k. f_equal. lia.
  - rewrite (loop_body_raises send_ends topic _ (trace ++ added) e) by done.
    exists 1%nat. split; [lia|]. cbn [snd seq map].
    by rewrite !sent_values_app, Hadded, app_nil_r.
Qed.

(** X15. In every run of [main], however it ends, the values handed to
    [send] are the records of the counters 1, 2, ..., n in this order, one
    per turn of the loop at most: none is skipped, repeated or out of
    order, and no two of them carry the same [ride_id]. *)
Theorem records_sent_in_counter_order verify_services create_kafka_producer
    create_kafka_topic sleep_ends send_ends turns environ :
  let run := main verify_services create_kafka_producer create_kafka_topic
               sleep_ends send_ends turns environ [] in
  exists n, (n <= turns)%nat
    /\ sent_values (snd run) = map (fun k => ride_message (Z.of_nat k)) (seq 1 n)
    /\ NoDup (map (fun value => py_get value "ride_id") (sent_values (snd run))).
Proof.
  intros run.
  assert (Hrecords : exists n, (n <= turns)%nat
            /\ sent_values (snd run)
               = map (fun k => ride_message (Z.of_nat k)) (seq 1 n)).
  { subst run.
    destruct (main_shape verify_services create_kafka_producer create_kafka_topic
                sleep_ends send_ends turns environ)
      as [(_ & Hsend & _) | (interval & _ & ->)].
    - exists 0%nat. split; [lia|]. apply length_zero_iff_nil.
      by rewrite length_sent_values, Hsend.
    - destruct (loop_sent_values sleep_ends send_ends turns generate_messages
                  (configured_topic environ)
                  (startup_actions (configured_topic environ) interval))
        as (n & Hn & Hloop).
      exists n. split; [exact Hn|].
      change (sent_values (startup_actions (configured_topic environ) interval))
        with (@nil pyval) in Hloop.
      unfold producer_finish.
      destruct (for_message_dict_in _ _ _ _ _ _) as [[[]|e|] t]; cbn [fst snd] in *;
        [| destruct (is_KeyboardInterrupt e); [|destruct (is_Exception e)] |];
        cbn [snd]; rewrite ?sent_values_app, Hloop; cbn [app];
        rewrite ?app_nil_r; apply map_ext; intros k; f_equal; cbn; lia. }
  destruct Hrecords as (n & Hn & Hrecords). exists n.
  split; [exact Hn|]. split; [exact Hrecords|].
  rewrite Hrecords, map_map.
  assert (Hinj : Inj eq eq
                    (fun k : nat => py_get (ride_message (Z.of_nat k)) "ride_id")).
  { intros k k' Hsame. cbn in Hsame.
    injection Hsame as Hsame. apply py_str_int_inj in Hsame. lia. }
  apply (NoDup_fmap_2 _ _ (NoDup_seq 1 n)).
Qed.

End ProducerRecords.

(** * The producer does not stop by itself *)

Section ProducerStops.

Import Producer.

Implicit Types (g : generator) (trace : list action) (topic : string) (turns : nat)
  (environ : gmap string string) (sleep_ends send_ends : nat -> result unit).

(** An exception that leaves the loop was raised by [time.sleep] or by
    [send]. *)
Lemma loop_raised_origin sleep_ends send_ends turns g topic trace e :
  fst (for_message_dict_in sleep_ends send_ends turns g topic trace) = Raised e ->
  exists k, sleep_ends k = Raise e \/ send_ends k = Raise e.
Proof.
  revert g trace. induction turns as [|turns IH]; intros g trace; [discriminate|].
  rewrite for_message_dict_in_S.
  assert (Hnext : (exists e' added,
                      next sleep_ends g trace = (Raised e', trace ++ added)
                      /\ exists k, sleep_ends k = Raise e')
                  \/ (exists yielded added,
                        next sleep_ends g trace = (Returned yielded, trace ++ added))).
  { destruct g as [|c].
    - right. rewrite next_not_started. by do 2 eexists.
    - destruct (sleep_ends (length (filter is_Sleep trace))) as [[]|e'] eqn:Hsleep.
      + right. rewrite next_resumed by done. by do 2 eexists.
      + left. rewrite (next_interrupted sleep_ends c trace e') by done.
        do 2 eexists. split; [done|]. by eexists. }
  destruct Hnext as [(e' & added & -> & k & Hk) | ([message g'] & added & ->)].
  - cbn. intros [= ->]. exists k. by left.
  - destruct (send_ends (length (filter is_Send (trace ++ added)))) as [[]|e'] eqn:Hsend.
    + rewrite loop_body_returns by done. apply IH.
    + rewrite (loop_body_raises send_ends topic message (trace ++ added) e') by done.
      cbn. intros [= ->]. eexists. by right.
Qed.

(** X18. The producer does not stop by itself: when [main] returns, a call
    of [time.sleep] or of [send] has raised a [KeyboardInterrupt] or an
    [Exception], and the producer was closed after it. *)
Theorem producer_returns_only_after_failure verify_services create_kafka_producer
    create_kafka_topic sleep_ends send_ends turns environ :
  let run := main verify_services create_kafka_producer create_kafka_topic
               sleep_ends send_ends turns environ [] in
  fst run = Returned tt ->
  (exists k e, (sleep_ends k = Raise e \/ send_ends k = Raise e)
               /\ is_KeyboardInterrupt e || is_Exception e = true)
  /\ exists before, snd run = before ++ [Close; Log InfoProducerClosed;
                                          Log InfoEndProducer].
Proof.
  intros run. subst run.
  destruct (main_shape verify_services create_kafka_producer create_kafka_topic
              sleep_ends send_ends turns environ)
    as [(_ & _ & _ & e & ->) | (interval & _ & ->)]; [discriminate|].
  destruct (loop_keeps sleep_ends send_ends turns generate_messages
              (configured_topic environ)
              (startup_actions (configured_topic environ) interval))
    as (_ & Hnot_returned & _).
  pose proof (loop_raised_origin sleep_ends send_ends turns generate_messages
                (configured_topic environ)
                (startup_actions (configured_topic environ) interval)) as Horigin.
  unfold producer_finish.
  destruct (for_message_dict_in _ _ _ _ _ _) as [[[]|e|] t]; cbn [fst snd] in *;
    [done| |discriminate].
  destruct (Horigin e eq_refl) as (k & Hk).
  destruct (is_KeyboardInterrupt e) eqn:Hki; [|destruct (is_Exception e) eqn:Hexc];
    cbn [fst snd]; intros Hret; try discriminate.
  - split; [exists k, e; by rewrite Hki|].
    exists (t ++ [Log WarningProducerInterrupted]). by rewrite <- !app_assoc.
  - split; [exists k, e; by rewrite Hki, Hexc|].
    exists (t ++ [Log (ErrorProduction e)]). by rewrite <- !app_assoc.
Qed.

Lemma producer_returns_only_after_failure_witness :
  let sleep_ends k := if (k =? 1)%nat then Raise KeyboardInterrupt else Ok tt in
  exists k e, (sleep_ends k = Raise e \/ (fun _ : nat => Ok tt) k = Raise e)
              /\ is_KeyboardInterrupt e || is_Exception e = true.
Proof.
  intros sleep_ends.
  exact (proj1 (producer_returns_only_after_failure (Ok tt) (Ok (Some KafkaProducer))
                  (fun _ => Ok tt) sleep_ends (fun _ => Ok tt) 5 ∅ eq_refl)).
Defined.

End ProducerStops.

(** * At the limits of the interpreter *)

Section InterpreterLimits.

(** [int] strips white space but not the separators U+001C to U+001F, and
    reads at most 4300 digits, leading zeros and all. *)
Example py_int_at_its_limits :
  py_int (String "028" "5") = Raise ValueError
  /\ py_int (String "133" (String "009" "5 ")) = Ok 5
  /\ py_int (repeated_digit "0" 4300) = Ok 0
  /\ py_int (repeated_digit "0" 4301) = Raise ValueError
  /\ py_int ("-" ++ repeated_digit "9" 4300) = Ok (- (10 ^ 4300 - 1))
  /\ py_int ("+" ++ repeated_digit "9" 4301) = Raise ValueError.
Proof. vm_compute. repeat split. Qed.

Example deque_new_at_its_limits :
  deque_new (- 2 ^ 63 - 1) = Raise OverflowError
  /\ deque_new (- 2 ^ 63) = Raise ValueError
  /\ deque_new (2 ^ 63 - 1) = Ok (Deque (Some (2 ^ 63 - 1)) [])
  /\ deque_new (2 ^ 63) = Raise OverflowError.
Proof. vm_compute. repeat split. Qed.

(** A window size or an interval that [int] rejects stops either [main]
    before it creates anything: the exception leaves it, which ends the
    process with status 1. *)
Example main_rejects_separator_in_setting :
  let run := Consumer.main json_loads (fun _ _ => Ok [])
               {[ "WEATHER_ROLLING_WINDOW_SIZE" := String "028" "5" ]}
               Consumer.initial in
  let run' := Producer.main (Ok tt) (Ok None) (fun _ => Ok tt) (fun _ => Ok tt)
                (fun _ => Ok tt) 3
                {[ "TRANSPORT_INTERVAL_SECONDS" := String "028" "5" ]} [] in
  fst run = Raised ValueError /\ Consumer.close_calls (snd run) = 0%nat
  /\ fst run' = Raised ValueError /\ Producer.exit_status (fst run') = Some 1.
Proof. vm_compute. repeat split. Qed.

(** Two readings of 4300 digits and opposite signs: both are accepted, their
    range has 4301 digits, the f-string of its log record raises
    [ValueError], and the error is logged in place of the range. *)
Example range_beyond_the_limit :
  let high := reading (repeated_digit "9" 4300) in
  let low := reading ("-" ++ repeated_digit "9" 4300) in
  let s1 := after_records json_loads [high] 2 (empty_window 2) in
  let s2 := snd (Consumer.process_message json_loads low 2 s1) in
  deque_len (Consumer.rolling_window s2) = 2
  /\ max_minus_min (items (Consumer.rolling_window s2)) = Ok (PInt (2 * (10 ^ 4300 - 1)))
  /\ Consumer.reported_ranges (Consumer.log s2) = []
  /\ last (Consumer.log s2) = Some (ErrorProcessing low ValueError).
Proof. vm_compute. repeat split. Qed.

End InterpreterLimits.
